(** * elevenlabs-utilities: a shallow embedding of the aggregation pipeline

    The development follows the layout of the Python package:

    - [Enums]                 appcode/common/enums.py
    - [AgentGroupSelector]    appcode/helpers/agent_group_selector.py
    - [TimeHelper]            appcode/helpers/time_helpers.py
    - [AgentConnection]       appcode/connections/agent_connection.py
    - [ConversationConnection] appcode/connections/conversation_connection.py
    - [ConversationDownloader] appcode/processors/downloaders/conversation_downloader.py
    - [DataCollectionUpdater] appcode/processors/updaters/data_collection_updater.py

    Conventions.

    - A Python [str] is a Rocq [string] holding its UTF-8 bytes.  The
      operators the code uses on strings ([in], [startswith], [==]) give the
      same answer on the UTF-8 bytes as on the code points.
    - A Python [dict] is a [gmap]; a Python [list] is a [list].
    - A raised exception is the result [None].
    - The containers that a class body binds ([accepted_agent_ids = []] and
      the like) are objects owned by the class and reached through every
      instance that has not rebound the attribute.  Each class therefore
      comes with a record [Class] of those objects, threaded through the
      methods next to the record [t] of the attributes an instance binds
      itself. *)

From Stdlib Require Import ZArith Strings.String Strings.Ascii.
From stdpp Require Import base option list gmap fin_maps strings pretty.

Local Open Scope string_scope.
Local Open Scope list_scope.
Local Open Scope Z_scope.

(** ** The host

    Two library services the code calls are fixed by the interpreter and the
    machine it runs on rather than by the repository: [str.lower], and the
    rules of the local time zone behind [datetime.timestamp] and
    [datetime.fromtimestamp].  [utcoffset u] is the number of seconds local
    time is ahead of UTC at the POSIX instant [u]. *)

Class Host := {
  lower : string → string;
  utcoffset : Z → Z
}.

(** ** Python [str] operations *)

Module Str.

(** [s.startswith(p)] *)
Fixpoint startswith (p s : string) : bool :=
  match p, s with
  | EmptyString, _ => true
  | String a p', String b s' => if Ascii.eqb a b then startswith p' s' else false
  | String _ _, EmptyString => false
  end.

(** [needle in hay] *)
Fixpoint contains (needle hay : string) : bool :=
  match hay with
  | EmptyString => startswith needle hay
  | String _ rest => startswith needle hay || contains needle rest
  end.

(** [str.lower] restricted to ASCII letters; every other byte is kept. *)
Definition lower_byte (c : ascii) : ascii :=
  let n := N_of_ascii c in
  if ((65 <=? n) && (n <=? 90))%N then ascii_of_N (n + 32) else c.

Fixpoint lower_ascii (s : string) : string :=
  match s with
  | EmptyString => EmptyString
  | String c s' => String (lower_byte c) (lower_ascii s')
  end.

(** [for ch in s]: the characters of [s], each a string of its own.  In
    UTF-8 a character is a byte that is not a continuation byte, followed by
    its continuation bytes (10xxxxxx). *)
Definition is_continuation (c : ascii) : bool :=
  let n := N_of_ascii c in
  ((128 <=? n) && (n <? 192))%N.

Fixpoint chars (s : string) : list string :=
  match s with
  | EmptyString => []
  | String b rest =>
      match chars rest with
      | ch :: chs =>
          if match rest with String b' _ => is_continuation b' | EmptyString => false end
          then String b ch :: chs
          else String b "" :: ch :: chs
      | [] => [String b ""]
      end
  end.

End Str.

(** ** Python control flow and container idioms *)

Module Py.

(** [for x in l: body], where the body may raise. *)
Fixpoint for_each {S A : Type} (body : S → A → option S) (s : S) (l : list A)
  : option S :=
  match l with
  | [] => Some s
  | x :: l' => s' ← body s x; for_each body s' l'
  end.

(** [d[k].append(x)]; a [KeyError] when [k] is missing. *)
Definition dict_append (k x : string) (d : gmap string (list string))
  : option (gmap string (list string)) :=
  l ← d !! k;
  Some (<[k := l ++ [x]]> d).

(** [d.pop(k)], its value dropped; a [KeyError] when [k] is missing. *)
Definition pop {V : Type} (k : string) (d : gmap string V) : option (gmap string V) :=
  _ ← d !! k;
  Some (delete k d).

(** [d.keys()], in the order the map enumerates them. *)
Definition keys {V : Type} (d : gmap string V) : list string :=
  (map_to_list d).*1.

(** Truth value of an optional string: [None] and [""] are false. *)
Definition truthy (s : option string) : bool :=
  match s with
  | None => false
  | Some s => negb (String.eqb s "")
  end.

End Py.

(** ** appcode/common/enums.py *)

Module Enums.

Inductive AgentGroup :=
| ELENA | ELENA_AFFA | ELENA_NOAFFA | ELENA_BANNER
| MARIA | ARTESAN | COACH | OTHER.

#[export] Instance AgentGroup_eq_dec : EqDecision AgentGroup.
Proof. solve_decision. Defined.

(** [group.value] *)
Definition value (g : AgentGroup) : string :=
  match g with
  | ELENA => "Elena"
  | ELENA_AFFA => "Elena AFFA"
  | ELENA_NOAFFA => "Elena NOAFFA"
  | ELENA_BANNER => "Elena Banner"
  | MARIA => "María"
  | ARTESAN => "Artesan"
  | COACH => "Coach"
  | OTHER => "Other"
  end.

(** [for group in AgentGroup]: the members in definition order. *)
Definition members : list AgentGroup :=
  [ELENA; ELENA_AFFA; ELENA_NOAFFA; ELENA_BANNER; MARIA; ARTESAN; COACH; OTHER].

Inductive VariableType := STRING | BOOLEAN | FLOAT | INTEGER.

Definition variable_type_value (t : VariableType) : string :=
  match t with
  | STRING => "string"
  | BOOLEAN => "boolean"
  | FLOAT => "number"
  | INTEGER => "integer"
  end.

End Enums.

(** ** appcode/helpers/agent_group_selector.py *)

Module AgentGroupSelector.
Import Enums.

(** [generate_dictionary_keys()] *)
Definition generate_dictionary_keys : gmap string (list string) :=
  foldl (λ dictionary group, <[value group := []]> dictionary) ∅ members.

Section WithHost.
Context `{Host}.

(** [get_agent_groups(agent_name)] *)
Definition get_agent_groups (agent_name : string) : list AgentGroup :=
  let name := lower agent_name in
  let groups : list AgentGroup := [] in
  if Str.contains "elena" name then
    let groups := groups ++ [ELENA] in
    let groups :=
      if Str.contains "affa" name && negb (Str.contains "noaffa" name)
      then groups ++ [ELENA_AFFA] else groups in
    let groups :=
      if Str.contains "noaffa" name then groups ++ [ELENA_NOAFFA] else groups in
    let groups :=
      if Str.contains "banner" name then groups ++ [ELENA_BANNER] else groups in
    groups
  else if Str.contains "maría" name || Str.contains "maria" name then
    groups ++ [MARIA]
  else if Str.contains "coach" name then
    groups ++ [COACH]
  else if Str.contains "artesan" name then
    groups ++ [ARTESAN]
  else
    groups ++ [OTHER].

(** [get_agent_groups_as_strings(agent_name)] *)
Definition get_agent_groups_as_strings (agent_name : string) : list string :=
  let agent_groups := get_agent_groups agent_name in
  foldl (λ agent_groups_strings group, agent_groups_strings ++ [value group])
        [] agent_groups.

End WithHost.

End AgentGroupSelector.

(** ** appcode/helpers/time_helpers.py *)

Module TimeHelper.

(** *** The [datetime] library, as far as the helpers use it

    A [date] is identified with its proleptic Gregorian ordinal
    ([date.toordinal()]): 1 is 0001-01-01 ([date.min]) and 3652059 is
    9999-12-31 ([date.max]).  A naive [datetime] is the number of seconds
    between 1970-01-01T00:00:00 and it, both read on the same clock. *)

Definition MINORDINAL : Z := 1.
Definition MAXORDINAL : Z := 3652059.
Definition EPOCH_ORDINAL : Z := 719163.

(** [datetime.py]: [_is_leap], [_days_before_year], [_days_before_month]
    and [_ymd2ord]; they name the dates of the examples. *)
Definition is_leap (year : Z) : bool :=
  (year mod 4 =? 0) && (negb (year mod 100 =? 0) || (year mod 400 =? 0)).

Definition days_before_year (year : Z) : Z :=
  let y := year - 1 in
  y * 365 + y / 4 - y / 100 + y / 400.

Definition days_before_month (year month : Z) : Z :=
  nth (Z.to_nat month) [-1; 0; 31; 59; 90; 120; 151; 181; 212; 243; 273; 304; 334] 0
  + (if (2 <? month) && is_leap year then 1 else 0).

Definition ymd2ord (year month day : Z) : Z :=
  days_before_year year + days_before_month year month + day.

(** [dt.date()] and the second of the day of a naive datetime. *)
Definition date_of (dt : Z) : Z := EPOCH_ORDINAL + dt / 86400.
Definition second_of_day (dt : Z) : Z := dt mod 86400.

(** [datetime.combine(raw_date, datetime.min.time())] *)
Definition combine_midnight (raw_date : Z) : Z := (raw_date - EPOCH_ORDINAL) * 86400.

(** The [datetime] constructor refuses years outside 1..9999. *)
Definition year_in_range (dt : Z) : bool :=
  (MINORDINAL <=? date_of dt) && (date_of dt <=? MAXORDINAL).

Definition max_fold_seconds : Z := 24 * 3600.

(** [format(n, "02")] for an [int]: sign-aware zero padding to width 2. *)
Fixpoint zeros (n : nat) : string :=
  match n with O => "" | S n' => String "0" (zeros n') end.

Definition zfill (width : nat) (digits : string) : string :=
  (zeros (width - String.length digits) ++ digits)%string.

Definition format_02 (n : Z) : string :=
  if n <? 0 then ("-" ++ zfill 1 (pretty (Z.to_N (- n))))%string
  else zfill 2 (pretty (Z.to_N n)).

(** [dt.strftime("%H:%M:%S")] *)
Definition strftime_HMS (dt : Z) : string :=
  let s := second_of_day dt in
  (format_02 (s / 3600) ++ ":" ++ format_02 (s / 60 mod 60) ++ ":"
     ++ format_02 (s mod 60))%string.

Section WithHost.
Context `{Host}.

(** The inner [local(u)] of [datetime._mktime]: [time.localtime(u)]
    rebuilt as a naive datetime, a [ValueError] when its year is out of
    range. *)
Definition local (u : Z) : option Z :=
  let dt := u + utcoffset u in
  if year_in_range dt then Some dt else None.

(** [datetime._mktime] for a naive datetime with [fold = 0]: solve
    [t = local(u)] for [u]. *)
Definition mktime (t : Z) : option Z :=
  lt ← local t;
  let a := lt - t in
  let u1 := t - a in
  t1 ← local u1;
  let finish (b : Z) : option Z :=
    let u2 := t - b in
    t2 ← local u2;
    if t2 =? t then Some u2
    else if t1 =? t then Some u1
    else Some (Z.max u1 u2) in
  if t1 =? t then
    let u2 := u1 - max_fold_seconds in
    lt2 ← local u2;
    let b := lt2 - u2 in
    if a =? b then Some u1 else finish b
  else
    finish (t1 - u1).

(** [datetime.fromtimestamp(ts)] for an integer [ts] and no [tz]: the
    local time of [ts], after the two probes that set [fold]. *)
Definition fromtimestamp (ts : Z) : option Z :=
  result ← local ts;
  probe1 ← local (ts - max_fold_seconds);
  let trans := result - probe1 - max_fold_seconds in
  if trans <? 0 then
    _ ← local (ts + trans);
    Some result
  else Some result.

(** *** The helpers *)

(** [date_to_unix(raw_date)]; [int(float)] is exact on these values. *)
Definition date_to_unix (raw_date : Z) : option Z :=
  let dt := combine_midnight raw_date in
  mktime dt.

(** [unix_to_date(ts)] *)
Definition unix_to_date (ts : Z) : option Z :=
  dt ← fromtimestamp ts;
  Some (date_of dt).

(** [unix_to_time(ts)] *)
Definition unix_to_time (ts : Z) : option string :=
  dt ← fromtimestamp ts;
  Some (strftime_HMS dt).

End WithHost.

(** [seconds_to_timestamp(seconds)] *)
Definition seconds_to_timestamp (seconds : Z) : string :=
  let mm := seconds / 60 in
  let ss := seconds mod 60 in
  (format_02 mm ++ ":" ++ format_02 ss)%string.

End TimeHelper.

(** Hosts for the examples, each with an ASCII [lower]: one under UTC,
    and three under a clock that changes its offset, with the instants and
    offsets of the tz database.

    - Apia went from UTC-10 to UTC+14 at 2011-12-30T10:00:00Z and so had no
      30 December 2011.  The offsets are those of Pacific/Apia from 2 April
      2011 to 29 September 2012, and again since 3 April 2021, when Samoa
      gave up daylight saving time.
    - Madrid went from UTC+1 to UTC+2 at 2025-03-30T01:00:00Z; the offsets
      are those of Europe/Madrid from 27 October 2024 to 26 October 2025.
    - São Paulo went from UTC-3 to UTC-2 at 2018-11-04T03:00:00Z, when its
      clock showed midnight, so that 4 November 2018 began at 01:00; the
      offsets are those of America/Sao_Paulo from 18 February 2018 to 17
      February 2019. *)
Definition utc_host : Host :=
  {| lower := Str.lower_ascii; utcoffset := λ _, 0 |}.

Definition apia_host : Host :=
  {| lower := Str.lower_ascii;
     utcoffset := λ u,
       if u <? 1316872800 then -39600
       else if u <? 1325239200 then -36000
       else if u <? 1333202400 then 50400
       else 46800 |}.

Definition madrid_host : Host :=
  {| lower := Str.lower_ascii;
     utcoffset := λ u, if u <? 1743296400 then 3600 else 7200 |}.

Definition sao_paulo_host : Host :=
  {| lower := Str.lower_ascii;
     utcoffset := λ u, if u <? 1541300400 then -10800 else -7200 |}.

(** ** appcode/connections/agent_connection.py *)

Module AgentConnection.
Import Enums.

(** The records of the remote platform the code reads. *)
Record LiteralJsonSchemaProperty := {
  type : string;
  description : string
}.

Record PlatformSettings := {
  data_collection : option (gmap string LiteralJsonSchemaProperty)
}.

Record Agent := {
  agent_id : string;
  name : string;
  platform_settings : option PlatformSettings
}.

(** The remote agent endpoints: [agents.list()], [agents.get(agent_id=..)]
    and [agents.update(agent_id=.., platform_settings=..)].  A call that
    fails answers [None] (or [false] for the update). *)
Record Api := {
  agents_list : option (list (string * string));
  agents_get : string → option Agent;
  agents_update : string → gmap string LiteralJsonSchemaProperty → bool
}.

(** The objects bound in the class body: [agents = {}], [agents_ids = []].
    ([agent_groups_ids = {}] is rebound by every [__init__] and never read
    before.) *)
Record Class := {
  agents : gmap string Agent;
  agents_ids : list string
}.

Definition class_body : Class := {| agents := ∅; agents_ids := [] |}.

(** The attributes [__init__] binds on the instance. *)
Record t := {
  agent_groups_ids : gmap string (list string)
}.

Section WithHost.
Context `{Host}.

(** The body of [for agent in response.agents]. *)
Definition add_agent (api : Api) (st : Class * gmap string (list string))
    (agent : string * string) : option (Class * gmap string (list string)) :=
  let '(cls, agent_groups_ids) := st in
  let '(agent_id, agent_name) := agent in
  agent_info ← agents_get api agent_id;
  let groups := AgentGroupSelector.get_agent_groups agent_name in
  let cls := {| agents := <[agent_id := agent_info]> (agents cls);
                agents_ids := agents_ids cls ++ [agent_id] |} in
  agent_groups_ids ←
    Py.for_each (λ d group, Py.dict_append (value group) agent_id d)
                agent_groups_ids groups;
  Some (cls, agent_groups_ids).

(** [AgentConnection()] *)
Definition init (api : Api) (cls : Class) : option (Class * t) :=
  response ← agents_list api;
  let agent_groups_ids := AgentGroupSelector.generate_dictionary_keys in
  '(cls, agent_groups_ids) ←
    Py.for_each (add_agent api) (cls, agent_groups_ids) response;
  Some (cls, {| agent_groups_ids := agent_groups_ids |}).

End WithHost.

Definition get_all_agents (cls : Class) : gmap string Agent := agents cls.

Definition get_all_agent_ids (cls : Class) : list string := agents_ids cls.

Definition get_agent_group_ids (self : t) (agent_group : AgentGroup)
  : option (list string) :=
  agent_groups_ids self !! value agent_group.

(** [self.agents.get(agent_id)]: [None] is Python's [None]. *)
Definition get_agent (cls : Class) (agent_id : string) : option Agent :=
  agents cls !! agent_id.

End AgentConnection.

(** ** appcode/connections/conversation_connection.py *)

Module ConversationConnection.
Import Enums.

(** An item of [response.conversations]. *)
Record ConversationSummary := {
  conversation_id : string;
  agent_id : string;
  agent_name : string;
  start_time_unix_secs : Z;
  call_duration_secs : Z;
  status : string;
  call_successful : string;
  direction : string
}.

(** One answer of [conversations.list(..)]. *)
Record Response := {
  conversations_page : list ConversationSummary;
  has_more : bool;
  next_cursor : option string
}.

(** The dict [conversation_info], one field per key. *)
Record ConversationInfo := {
  info_conversation_id : string;
  info_agent_id : string;
  info_agent_name : string;
  info_start_date : Z;
  info_start_time : string;
  info_call_duration_secs : Z;
  info_call_duration_timestamp : string;
  info_status : string;
  info_successful : string;
  info_direction : string;
  info_agent_groups : list string
}.

Inductive ParamValue :=
| PInt (n : Z)
| PStr (s : string).

(** The objects bound in the class body and never rebound by a method:
    every instance reaches the same ones.  ([agent_connection = None] and
    [conversation_ids_per_agent_group = {}] are rebound on the instance
    before they are written to, see [t].) *)
Record Class := {
  parameters : gmap string ParamValue;
  accepted_agent_ids : list string;
  conversations : gmap string ConversationInfo;
  conversation_ids : list string;
  conversation_ids_per_agent_id : gmap string string
}.

Definition class_body : Class :=
  {| parameters := ∅; accepted_agent_ids := []; conversations := ∅;
     conversation_ids := []; conversation_ids_per_agent_id := ∅ |}.

(** The attributes a method binds on the instance; [None] while the
    instance has not bound it, when the lookup falls back to the class
    ([None], and [{}]). *)
Record t := {
  agent_connection : option AgentConnection.t;
  conversation_ids_per_agent_group : option (gmap string (list string))
}.

(** [ConversationConnection()] *)
Definition init : t :=
  {| agent_connection := None; conversation_ids_per_agent_group := None |}.

Definition set_parameter (k : string) (v : ParamValue) (cls : Class) : Class :=
  {| parameters := <[k := v]> (parameters cls);
     accepted_agent_ids := accepted_agent_ids cls;
     conversations := conversations cls;
     conversation_ids := conversation_ids cls;
     conversation_ids_per_agent_id := conversation_ids_per_agent_id cls |}.

(** The three statements that add [conversation_info] to the class. *)
Definition add_conversation (agent_id : string) (info : ConversationInfo)
    (cls : Class) : Class :=
  let conversation_id := info_conversation_id info in
  {| parameters := parameters cls;
     accepted_agent_ids := accepted_agent_ids cls;
     conversations := <[conversation_id := info]> (conversations cls);
     conversation_ids := conversation_ids cls ++ [conversation_id];
     conversation_ids_per_agent_id :=
       <[agent_id := conversation_id]> (conversation_ids_per_agent_id cls) |}.

(** The test of the [continue]:
    [len(self.accepted_agent_ids) > 0 and agent_id not in self.accepted_agent_ids] *)
Definition skipped (accepted : list string) (agent_id : string) : bool :=
  (0 <? length accepted)%nat && negb (bool_decide (agent_id ∈ accepted)).

Section WithHost.
Context `{Host}.

Definition conversation_info_of (conversation : ConversationSummary)
  : option ConversationInfo :=
  let group_strings :=
    AgentGroupSelector.get_agent_groups_as_strings (agent_name conversation) in
  start_date ← TimeHelper.unix_to_date (start_time_unix_secs conversation);
  start_time ← TimeHelper.unix_to_time (start_time_unix_secs conversation);
  call_duration_timestamp ← TimeHelper.unix_to_time (call_duration_secs conversation);
  Some {| info_conversation_id := conversation_id conversation;
          info_agent_id := agent_id conversation;
          info_agent_name := agent_name conversation;
          info_start_date := start_date;
          info_start_time := start_time;
          info_call_duration_secs := call_duration_secs conversation;
          info_call_duration_timestamp := call_duration_timestamp;
          info_status := status conversation;
          info_successful := call_successful conversation;
          info_direction := direction conversation;
          info_agent_groups := group_strings |}.

(** The body of [for conversation in response.conversations]; the second
    component is the dict [self.conversation_ids_per_agent_group]. *)
Definition index_conversation (st : Class * gmap string (list string))
    (conversation : ConversationSummary)
  : option (Class * gmap string (list string)) :=
  let '(cls, per_group) := st in
  if skipped (accepted_agent_ids cls) (agent_id conversation) then Some st
  else
    let groups := AgentGroupSelector.get_agent_groups (agent_name conversation) in
    conversation_info ← conversation_info_of conversation;
    let cls := add_conversation (agent_id conversation) conversation_info cls in
    per_group ←
      Py.for_each
        (λ d group, Py.dict_append (value group) (conversation_id conversation) d)
        per_group groups;
    Some (cls, per_group).

(** The [while has_more] loop.  [pages] are the answers of the listing
    endpoint to the successive calls, whatever the parameters sent; a
    call beyond them fails. *)
Fixpoint build_pages (pages : list Response) (cursor : option string)
    (st : Class * gmap string (list string))
  : option (Class * gmap string (list string)) :=
  match pages with
  | [] => None
  | response :: pages' =>
      let st :=
        if Py.truthy cursor
        then (set_parameter "cursor" (PStr (default "" cursor)) st.1, st.2)
        else st in
      st ← Py.for_each index_conversation st (conversations_page response);
      if has_more response then build_pages pages' (next_cursor response) st
      else Some st
  end.

(** [build()] *)
Definition build (pages : list Response) (cls : Class) (self : t)
  : option (Class * t) :=
  let per_group := AgentGroupSelector.generate_dictionary_keys in
  let cls := set_parameter "page_size" (PInt 100) cls in
  '(cls, per_group) ← build_pages pages None (cls, per_group);
  Some (cls, {| agent_connection := agent_connection self;
                conversation_ids_per_agent_group := Some per_group |}).

End WithHost.

(** [set_accepted_agent_ids(agent_ids)]: [self.accepted_agent_ids.extend(..)] *)
Definition set_accepted_agent_ids (agent_ids : list string) (cls : Class) : Class :=
  {| parameters := parameters cls;
     accepted_agent_ids := accepted_agent_ids cls ++ agent_ids;
     conversations := conversations cls;
     conversation_ids := conversation_ids cls;
     conversation_ids_per_agent_id := conversation_ids_per_agent_id cls |}.

Section WithHost.
Context `{Host}.

(** [set_accepted_agent_groups(agent_groups)] *)
Definition set_accepted_agent_groups (api : AgentConnection.Api)
    (agent_groups : list AgentGroup)
    (catalog : AgentConnection.Class) (cls : Class) (self : t)
  : option (AgentConnection.Class * Class * t) :=
  '(catalog, connection) ←
    match agent_connection self with
    | None => AgentConnection.init api catalog
    | Some connection => Some (catalog, connection)
    end;
  cls ←
    Py.for_each
      (λ cls group,
         group_ids ← AgentConnection.get_agent_group_ids connection group;
         Some (set_accepted_agent_ids group_ids cls))
      cls agent_groups;
  Some (catalog, cls,
        {| agent_connection := Some connection;
           conversation_ids_per_agent_group :=
             conversation_ids_per_agent_group self |}).

(** [set_start_date(start_date)] and [set_end_date(end_date)] *)
Definition set_start_date (start_date : Z) (cls : Class) : option Class :=
  ts ← TimeHelper.date_to_unix start_date;
  Some (set_parameter "call_start_after_unix" (PInt ts) cls).

Definition set_end_date (end_date : Z) (cls : Class) : option Class :=
  ts ← TimeHelper.date_to_unix end_date;
  Some (set_parameter "call_start_before_unix" (PInt ts) cls).

End WithHost.

(** The getters. *)
Definition get_all_conversations_info (cls : Class) : gmap string ConversationInfo :=
  conversations cls.

Definition get_all_conversation_ids (cls : Class) : list string :=
  conversation_ids cls.

Definition get_conversation_ids_from_agent (cls : Class) (agent_id : string)
  : option string :=
  conversation_ids_per_agent_id cls !! agent_id.

Definition get_conversation_ids_from_agent_group (self : t) (agent_group : AgentGroup)
  : option (list string) :=
  default ∅ (conversation_ids_per_agent_group self) !! value agent_group.

(** The loop shared by the two accessors below:
    [selected_conversations.append(self.conversations[conv_id])], a
    [KeyError] when [conv_id] is not a key. *)
Definition select_conversation (cls : Class)
    (selected_conversations : list ConversationInfo) (conv_id : string)
  : option (list ConversationInfo) :=
  info ← conversations cls !! conv_id;
  Some (selected_conversations ++ [info]).

(** [get_conversation_info_from_agent(agent_id)]: the loop runs over what
    [get_conversation_ids_from_agent] returns, which is one id, a string; it
    therefore takes the characters of that id one by one. *)
Definition get_conversation_info_from_agent (cls : Class) (agent_id : string)
  : option (list ConversationInfo) :=
  conversation_id ← get_conversation_ids_from_agent cls agent_id;
  Py.for_each (select_conversation cls) [] (Str.chars conversation_id).

(** [get_conversation_info_from_agent_group(agent_group)] *)
Definition get_conversation_info_from_agent_group (cls : Class) (self : t)
    (agent_group : AgentGroup) : option (list ConversationInfo) :=
  conversation_ids ← get_conversation_ids_from_agent_group self agent_group;
  Py.for_each (select_conversation cls) [] conversation_ids.

End ConversationConnection.

(** ** appcode/processors/downloaders/conversation_downloader.py *)

Module ConversationDownloader.

(** A value of a dynamic variable. *)
Inductive PyValue :=
| PyInt (n : Z)
| PyStr (s : string).

(** The part of [raw_details] that [process_dynamic_variables] reads. *)
Record ConversationInitiationClientData := {
  dynamic_variables : option (gmap string PyValue)
}.

Record RawDetails := {
  conversation_initiation_client_data : option ConversationInitiationClientData
}.

(** The body of [for key in raw_dynamic_variables.keys()]. *)
Definition drop_key (dynamic_variables : gmap string PyValue) (key : string)
  : option (gmap string PyValue) :=
  dynamic_variables ←
    (if Str.startswith "system" key then Py.pop key dynamic_variables
     else Some dynamic_variables);
  if String.eqb key "email" || String.eqb key "phone"
     || String.eqb key "secret_user_id" || String.eqb key "secret_object_id"
  then Py.pop key dynamic_variables
  else Some dynamic_variables.

(** [process_dynamic_variables(raw_details)] *)
Definition process_dynamic_variables (raw_details : RawDetails)
  : option (gmap string PyValue) :=
  match conversation_initiation_client_data raw_details with
  | None => Some ∅
  | Some client_data =>
      match dynamic_variables client_data with
      | None => Some ∅
      | Some variables =>
          let raw_dynamic_variables := variables in
          let dynamic_variables := variables in
          Py.for_each drop_key dynamic_variables (Py.keys raw_dynamic_variables)
      end
  end.

(** *** The other process methods

    They read two more attributes of [raw_details], [analysis] and
    [transcript].  [evaluation_criteria_results] and
    [data_collection_results] are dicts of which the code walks
    [.values()]: they are kept as their items in insertion order. *)

Module CriteriaResult.
Record t := {
  criteria_id : string;
  result : string;
  rationale : string
}.
End CriteriaResult.

Module DataCollectionResult.
Record t := {
  data_collection_id : string;
  value : option PyValue;
  rationale : string
}.
End DataCollectionResult.

Record Analysis := {
  transcript_summary : option string;
  evaluation_criteria_results : option (list (string * CriteriaResult.t));
  data_collection_results : option (list (string * DataCollectionResult.t))
}.

(** [turn.agent_metadata], when it is not [None]: the object of the
    platform's client library that names the agent of the turn. *)
Module AgentMetadata.
Record t := {
  agent_id : string
}.
End AgentMetadata.

(** An item of [raw_details.transcript]. *)
Module Turn.
Record t := {
  role : string;
  agent_metadata : option AgentMetadata.t;
  message : option string;
  time_in_call_secs : Z
}.
End Turn.

(** [raw_details] with the three attributes the process methods read;
    [initiation] holds [conversation_initiation_client_data]. *)
Record Conversation := {
  initiation : RawDetails;
  analysis : option Analysis;
  transcript : list Turn.t
}.

(** The dicts the methods build, one field per key: the values of
    [criteria] and of [data_collection], and the items of the transcript. *)
Record Criterion := {
  criterion_result : string;
  criterion_rationale : string
}.

Record Collected := {
  collected_value : option PyValue;
  collected_rationale : string
}.

Record TranscriptTurn := {
  turn : Z;
  time : string;
  turn_role : string;
  turn_agent_id : string;
  turn_message : option string
}.

(** [process_summary(raw_details)] *)
Definition process_summary (raw_details : Conversation) : string :=
  match analysis raw_details with
  | None => ""
  | Some analysis =>
      match transcript_summary analysis with
      | None => ""
      | Some summary => summary
      end
  end.

(** [turn.agent_metadata["agent_id"] if turn.agent_metadata else ""].  The
    metadata object is true, having neither [__bool__] nor [__len__], and
    cannot be subscripted, having no [__getitem__]: with metadata the
    expression raises [TypeError], whatever the agent id. *)
Definition agent_id_of_turn (turn : Turn.t) : option string :=
  match Turn.agent_metadata turn with
  | None => Some ""
  | Some _ => None
  end.

(** The body of [for turn in raw_details.transcript]; the state is
    [transcript] and [turn_index]. *)
Definition transcribe (st : list TranscriptTurn * Z) (turn : Turn.t)
  : option (list TranscriptTurn * Z) :=
  let '(transcript, turn_index) := st in
  let turn_index := turn_index + 1 in
  let timestamp := TimeHelper.seconds_to_timestamp (Turn.time_in_call_secs turn) in
  agent_id ← agent_id_of_turn turn;
  Some (transcript ++ [ {| turn := turn_index;
                           time := timestamp;
                           turn_role := Turn.role turn;
                           turn_agent_id := agent_id;
                           turn_message := Turn.message turn |} ],
        turn_index).

(** [process_transcript(raw_details)] *)
Definition process_transcript (raw_details : Conversation)
  : option (list TranscriptTurn) :=
  '(transcript, _) ← Py.for_each transcribe ([], 0) (transcript raw_details);
  Some transcript.

(** [process_criteria(raw_details)] *)
Definition process_criteria (raw_details : Conversation) : gmap string Criterion :=
  match analysis raw_details with
  | None => ∅
  | Some analysis =>
      match evaluation_criteria_results analysis with
      | None => ∅
      | Some results =>
          foldl
            (λ criteria result,
               let criteria_id := CriteriaResult.criteria_id result in
               <[criteria_id := {| criterion_result := CriteriaResult.result result;
                                   criterion_rationale := CriteriaResult.rationale result |}]>
                 criteria)
            ∅ results.*2
      end
  end.

(** [process_data_collection(raw_details)] *)
Definition process_data_collection (raw_details : Conversation)
  : gmap string Collected :=
  match analysis raw_details with
  | None => ∅
  | Some analysis =>
      match data_collection_results analysis with
      | None => ∅
      | Some results =>
          foldl
            (λ data_collection data,
               let data_collection_id := DataCollectionResult.data_collection_id data in
               <[data_collection_id :=
                   {| collected_value := DataCollectionResult.value data;
                      collected_rationale := DataCollectionResult.rationale data |}]>
                 data_collection)
            ∅ results.*2
      end
  end.

(** A value of the dict [details] as [build] hands it to
    [process_basic_variables]: a string or an integer, the date
    [start_date], or the list [agent_groups]. *)
Inductive Field :=
| FValue (v : PyValue)
| FDate (d : Z)
| FGroups (groups : list string).

(** The dict literal of [build], from a record of the listing. *)
Definition basic_details (conversation : ConversationConnection.ConversationInfo)
  : gmap string Field :=
  let conv_id := ConversationConnection.info_conversation_id conversation in
  list_to_map
    [ ("conversation_id", FValue (PyStr conv_id));
      ("agent_id", FValue (PyStr (ConversationConnection.info_agent_id conversation)));
      ("agent_name", FValue (PyStr (ConversationConnection.info_agent_name conversation)));
      ("agent_groups", FGroups (ConversationConnection.info_agent_groups conversation));
      ("start_date", FDate (ConversationConnection.info_start_date conversation));
      ("start_time", FValue (PyStr (ConversationConnection.info_start_time conversation)));
      ("call_duration_secs",
       FValue (PyInt (ConversationConnection.info_call_duration_secs conversation)));
      ("call_duration_timestamp",
       FValue (PyStr (ConversationConnection.info_call_duration_timestamp conversation)));
      ("status", FValue (PyStr (ConversationConnection.info_status conversation)));
      ("successful", FValue (PyStr (ConversationConnection.info_successful conversation)));
      ("direction", FValue (PyStr (ConversationConnection.info_direction conversation))) ].

(** Truth value of [dynamic_variables.get(key)]: a missing key, [0] and
    [""] are false. *)
Definition truthy (v : option PyValue) : bool :=
  match v with
  | None => false
  | Some (PyInt n) => negb (n =? 0)
  | Some (PyStr s) => negb (String.eqb s "")
  end.

(** [if dynamic_variables.get(source): details[target] = dynamic_variables[source]] *)
Definition copy_variable (source target : string)
    (dynamic_variables : gmap string PyValue) (details : gmap string Field)
  : gmap string Field :=
  match dynamic_variables !! source with
  | Some v => if truthy (Some v) then <[target := FValue v]> details else details
  | None => details
  end.

(** [process_basic_variables(details, raw_details)] *)
Definition process_basic_variables (details : gmap string Field)
    (raw_details : Conversation) : gmap string Field :=
  let details := <["email" := FValue (PyStr "")]> details in
  let details := <["phone" := FValue (PyStr "")]> details in
  let details := <["salesforce_user_id" := FValue (PyStr "")]> details in
  let details := <["salesforce_object_id" := FValue (PyStr "")]> details in
  match conversation_initiation_client_data (initiation raw_details) with
  | None => details
  | Some client_data =>
      match dynamic_variables client_data with
      | None => details
      | Some dynamic_variables =>
          let details := copy_variable "email" "email" dynamic_variables details in
          let details := copy_variable "phone" "phone" dynamic_variables details in
          let details :=
            copy_variable "secret_user_id" "salesforce_user_id" dynamic_variables details in
          let details :=
            copy_variable "secret_object_id" "salesforce_object_id" dynamic_variables details in
          details
      end
  end.

End ConversationDownloader.

(** ** appcode/processors/updaters/data_collection_updater.py *)

Module DataCollectionUpdater.
Import Enums.

(** The object bound in the class body: [agent_ids = []]. *)
Record Class := {
  agent_ids : list string
}.

Definition class_body : Class := {| agent_ids := [] |}.

(** The attributes bound on the instance.  The three variable attributes
    are only annotated in the class body, so they do not exist until their
    setter ran.  [set_all_agents] binds [self.agent_ids] to the very list
    [AgentConnection.agents_ids]; [all_agents] records that it did. *)
Record t := {
  connection : AgentConnection.t;
  variable_name : option string;
  variable_type : option string;
  variable_prompt : option string;
  all_agents : bool
}.

Section WithHost.
Context `{Host}.

(** [DataCollectionUpdater()] *)
Definition init (api : AgentConnection.Api) (catalog : AgentConnection.Class)
  : option (AgentConnection.Class * t) :=
  '(catalog, connection) ← AgentConnection.init api catalog;
  Some (catalog,
        {| connection := connection; variable_name := None;
           variable_type := None; variable_prompt := None;
           all_agents := false |}).

End WithHost.

Definition set_variable_name (name : string) (self : t) : t :=
  {| connection := connection self; variable_name := Some name;
     variable_type := variable_type self; variable_prompt := variable_prompt self;
     all_agents := all_agents self |}.

Definition set_variable_type (_variable_type : VariableType) (self : t) : t :=
  {| connection := connection self; variable_name := variable_name self;
     variable_type := Some (variable_type_value _variable_type);
     variable_prompt := variable_prompt self;
     all_agents := all_agents self |}.

Definition set_variable_prompt (prompt : string) (self : t) : t :=
  {| connection := connection self; variable_name := variable_name self;
     variable_type := variable_type self; variable_prompt := Some prompt;
     all_agents := all_agents self |}.

(** [self.agent_ids] *)
Definition selected (catalog : AgentConnection.Class) (cls : Class) (self : t)
  : list string :=
  if all_agents self then AgentConnection.agents_ids catalog else agent_ids cls.

(** [set_agent_group(agent_group)]: the [extend] lands in whichever list
    [self.agent_ids] denotes. *)
Definition set_agent_group (agent_group : AgentGroup)
    (catalog : AgentConnection.Class) (cls : Class) (self : t)
  : option (AgentConnection.Class * Class) :=
  group_ids ← AgentConnection.get_agent_group_ids (connection self) agent_group;
  if all_agents self then
    Some ({| AgentConnection.agents := AgentConnection.agents catalog;
             AgentConnection.agents_ids :=
               AgentConnection.agents_ids catalog ++ group_ids |}, cls)
  else
    Some (catalog, {| agent_ids := agent_ids cls ++ group_ids |}).

(** [set_all_agents()] *)
Definition set_all_agents (self : t) : t :=
  {| connection := connection self; variable_name := variable_name self;
     variable_type := variable_type self; variable_prompt := variable_prompt self;
     all_agents := true |}.

(** What one pass of the loop of [update] does before the remote call:
    the cached agent's [data_collection] dict receives the new entry in
    place, and that dict is what is sent. *)
Definition prepare (self : t) (agents : gmap string AgentConnection.Agent)
    (agent_id : string)
  : option (gmap string AgentConnection.Agent
            * gmap string AgentConnection.LiteralJsonSchemaProperty) :=
  agent ← agents !! agent_id;
  settings ← AgentConnection.platform_settings agent;
  data_collection ← AgentConnection.data_collection settings;
  type ← variable_type self;
  description ← variable_prompt self;
  let variable_settings :=
    {| AgentConnection.type := type; AgentConnection.description := description |} in
  name ← variable_name self;
  let data_collection := <[name := variable_settings]> data_collection in
  let agent :=
    {| AgentConnection.agent_id := AgentConnection.agent_id agent;
       AgentConnection.name := AgentConnection.name agent;
       AgentConnection.platform_settings :=
         Some {| AgentConnection.data_collection := Some data_collection |} |} in
  Some (<[agent_id := agent]> agents, data_collection).

(** The outcome of [update()]: the cached agents, the update calls issued
    to the remote in order (agent id and the [data_collection] of the
    [platform_settings] sent), and whether the loop ran to its end. *)
Record Run := {
  run_agents : gmap string AgentConnection.Agent;
  run_calls : list (string * gmap string AgentConnection.LiteralJsonSchemaProperty);
  run_completed : bool
}.

(** [for agent_id in self.agent_ids] *)
Fixpoint update_loop (api : AgentConnection.Api) (self : t) (ids : list string)
    (agents : gmap string AgentConnection.Agent)
    (calls : list (string * gmap string AgentConnection.LiteralJsonSchemaProperty))
  : Run :=
  match ids with
  | [] => {| run_agents := agents; run_calls := calls; run_completed := true |}
  | agent_id :: ids' =>
      match prepare self agents agent_id with
      | None => {| run_agents := agents; run_calls := calls; run_completed := false |}
      | Some (agents, data_collection) =>
          let calls := calls ++ [(agent_id, data_collection)] in
          if AgentConnection.agents_update api agent_id data_collection
          then update_loop api self ids' agents calls
          else {| run_agents := agents; run_calls := calls; run_completed := false |}
      end
  end.

(** [update()] *)
Definition update (api : AgentConnection.Api) (catalog : AgentConnection.Class)
    (cls : Class) (self : t) : Run :=
  update_loop api self (selected catalog cls self) (AgentConnection.agents catalog) [].

End DataCollectionUpdater.

(** * Properties *)

(** ** Substring tests *)

Module StrFacts.
Import Str.

Lemma app_String (a : ascii) (p q : string) :
  (String a p ++ q)%string = String a (p ++ q)%string.
Proof. reflexivity. Qed.

Lemma app_empty (q : string) : ("" ++ q)%string = q.
Proof. reflexivity. Qed.

Lemma startswith_app (p s : string) :
  startswith p s = true ↔ ∃ post, s = (p ++ post)%string.
Proof.
  revert s. induction p as [|a p IH]; intros s; simpl.
  - split; [intros _; by exists s | done].
  - destruct s as [|b s].
    + split; [done | intros [post Hpost]; discriminate].
    + destruct (Ascii.eqb_spec a b) as [->|Hab].
      * rewrite IH. split; intros [post Hpost]; exists post.
        -- by rewrite app_String, Hpost.
        -- rewrite app_String in Hpost. by simplify_eq.
      * split; [done | intros [post Hpost]].
        rewrite app_String in Hpost. by simplify_eq.
Qed.

Lemma contains_app (needle hay : string) :
  contains needle hay = true ↔ ∃ pre post, hay = (pre ++ needle ++ post)%string.
Proof.
  induction hay as [|b hay IH]; simpl.
  - rewrite startswith_app. split.
    + intros [post Hpost]. by exists "", post.
    + intros (pre & post & Heq). destruct pre; [by exists post|discriminate].
  - rewrite orb_true_iff, IH, startswith_app. split.
    + intros [[post Hpost]|(pre & post & Heq)].
      * by exists "", post.
      * exists (String b pre), post. by rewrite app_String, Heq.
    + intros (pre & post & Heq). destruct pre as [|c pre].
      * left. by exists post.
      * right. exists pre, post. rewrite app_String in Heq. by simplify_eq.
Qed.

Lemma string_app_assoc (a b c : string) :
  ((a ++ b) ++ c = a ++ (b ++ c))%string.
Proof.
  induction a as [|x a IH]; [done|]. by rewrite !app_String, IH.
Qed.

(** A substring of a substring is a substring. *)
Lemma contains_trans (a b c : string) :
  contains a b = true → contains b c = true → contains a c = true.
Proof.
  rewrite !contains_app. intros (p1 & q1 & ->) (p2 & q2 & ->).
  exists (p2 ++ p1)%string, (q1 ++ q2)%string.
  by rewrite !string_app_assoc.
Qed.

Lemma noaffa_affa (name : string) :
  contains "noaffa" name = true → contains "affa" name = true.
Proof. apply contains_trans. reflexivity. Qed.

End StrFacts.

(** ** The classifier *)

Module ClassifierFacts.
Import Enums AgentGroupSelector.

Section WithHost.
Context `{Host}.

(** The groups of a name of the Elena family, written out. *)
Lemma elena_groups (agent_name : string) :
  Str.contains "elena" (lower agent_name) = true →
  get_agent_groups agent_name =
    [ELENA]
    ++ (if Str.contains "affa" (lower agent_name)
           && negb (Str.contains "noaffa" (lower agent_name))
        then [ELENA_AFFA] else [])
    ++ (if Str.contains "noaffa" (lower agent_name) then [ELENA_NOAFFA] else [])
    ++ (if Str.contains "banner" (lower agent_name) then [ELENA_BANNER] else []).
Proof.
  intros Helena. unfold get_agent_groups. rewrite Helena.
  by repeat case_match.
Qed.

Lemma get_agent_groups_cases (agent_name : string) :
  Str.contains "elena" (lower agent_name) = true
  ∨ get_agent_groups agent_name = [MARIA]
  ∨ get_agent_groups agent_name = [COACH]
  ∨ get_agent_groups agent_name = [ARTESAN]
  ∨ get_agent_groups agent_name = [OTHER].
Proof.
  unfold get_agent_groups.
  destruct (Str.contains "elena" _); [by left | right].
  repeat case_match; naive_solver.
Qed.

Lemma get_agent_groups_NoDup (agent_name : string) :
  NoDup (get_agent_groups agent_name).
Proof.
  destruct (get_agent_groups_cases agent_name) as [He|Hr].
  - rewrite (elena_groups _ He).
    repeat case_match; by apply (bool_decide_unpack _).
  - destruct Hr as [-> | [-> | [-> | ->]]]; apply NoDup_singleton.
Qed.

(** C2.  A name of the Elena family gets ELENA, then ELENA_AFFA when it
    has "affa" without "noaffa", ELENA_NOAFFA when it has "noaffa" and
    ELENA_BANNER when it has "banner", each independently of the others;
    ELENA_AFFA is among the groups exactly when "affa" occurs and
    "noaffa" does not; and with "banner" but without "affa" the groups
    are exactly ELENA and ELENA_BANNER.  All tests are on the lowered
    name. *)
Theorem elena_family_groups (agent_name : string) :
  Str.contains "elena" (lower agent_name) = true →
  (Str.contains "banner" (lower agent_name) = true →
   Str.contains "affa" (lower agent_name) = false →
   Str.contains "noaffa" (lower agent_name) = false
   ∧ get_agent_groups agent_name = [ELENA; ELENA_BANNER])
  ∧ get_agent_groups agent_name =
      [ELENA]
      ++ (if Str.contains "affa" (lower agent_name)
             && negb (Str.contains "noaffa" (lower agent_name))
          then [ELENA_AFFA] else [])
      ++ (if Str.contains "noaffa" (lower agent_name) then [ELENA_NOAFFA] else [])
      ++ (if Str.contains "banner" (lower agent_name) then [ELENA_BANNER] else [])
  ∧ (ELENA_AFFA ∈ get_agent_groups agent_name
     ↔ Str.contains "affa" (lower agent_name) = true
       ∧ Str.contains "noaffa" (lower agent_name) = false).
Proof.
  intros Helena. pose proof (elena_groups _ Helena) as Hgroups.
  split; [|split; [done|]].
  - intros Hbanner Haffa.
    assert (Str.contains "noaffa" (lower agent_name) = false) as Hno.
    { destruct (Str.contains "noaffa" _) eqn:E; [|done].
      apply StrFacts.noaffa_affa in E. congruence. }
    split; [done|]. by rewrite Hgroups, Haffa, Hno, Hbanner.
  - rewrite Hgroups.
    destruct (Str.contains "affa" _), (Str.contains "noaffa" _),
      (Str.contains "banner" _); simpl;
      rewrite ?elem_of_cons, ?elem_of_nil; intuition congruence.
Qed.

(** C7.  The classifier answers on every string, never with the empty
    list, and with exactly OTHER when the lowered name has none of
    "elena", "maría", "maria", "coach" and "artesan". *)
Theorem classifier_total (agent_name : string) :
  get_agent_groups agent_name ≠ []
  ∧ (Str.contains "elena" (lower agent_name) = false →
     Str.contains "maría" (lower agent_name) = false →
     Str.contains "maria" (lower agent_name) = false →
     Str.contains "coach" (lower agent_name) = false →
     Str.contains "artesan" (lower agent_name) = false →
     get_agent_groups agent_name = [OTHER]).
Proof.
  split.
  - destruct (get_agent_groups_cases agent_name) as [He|Hr].
    + by rewrite (elena_groups _ He).
    + by destruct Hr as [-> | [-> | [-> | ->]]].
  - intros He Hm1 Hm2 Hc Ha. unfold get_agent_groups.
    by rewrite He, Hm1, Hm2, Hc, Ha.
Qed.

End WithHost.

Lemma elena_family_groups_witness :
  get_agent_groups (H := utc_host) "Elena Banner ES" = [ELENA; ELENA_BANNER].
Proof.
  apply (elena_family_groups (H := utc_host) "Elena Banner ES"); reflexivity.
Defined.

Lemma classifier_total_witness :
  get_agent_groups (H := utc_host) "" = [OTHER]
  ∧ get_agent_groups (H := utc_host) "Soporte 24h" = [OTHER].
Proof.
  split.
  - apply (classifier_total (H := utc_host) ""); reflexivity.
  - apply (classifier_total (H := utc_host) "Soporte 24h"); reflexivity.
Defined.

End ClassifierFacts.

(** ** Dates and times *)

Module TimeFacts.
Import TimeHelper.

(** Converting a date to the instant of its local midnight and back. *)
Definition round_trip `{Host} (d : Z) : option Z :=
  ts ← date_to_unix d;
  unix_to_date ts.

Lemma date_of_midnight (d r : Z) :
  0 ≤ r < 86400 → date_of (combine_midnight d + r) = d.
Proof.
  intros Hr. unfold date_of, combine_midnight, EPOCH_ORDINAL.
  Z.div_mod_to_equations. lia.
Qed.

Lemma date_of_before_midnight (d r : Z) :
  -86400 ≤ r < 0 → date_of (combine_midnight d + r) = d - 1.
Proof.
  intros Hr. unfold date_of, combine_midnight, EPOCH_ORDINAL.
  Z.div_mod_to_equations. lia.
Qed.

Section WithHost.
Context `{Host}.

Lemma local_at (u c : Z) :
  utcoffset u = c →
  MINORDINAL ≤ date_of (u + c) ≤ MAXORDINAL →
  local u = Some (u + c).
Proof.
  intros Hc Hrange. unfold local, year_in_range. rewrite Hc.
  destruct (Z.leb_spec MINORDINAL (date_of (u + c))); [|lia].
  destruct (Z.leb_spec (date_of (u + c)) MAXORDINAL); [done|lia].
Qed.

(** What [fromtimestamp] answers, when it answers, is the local time. *)
Lemma fromtimestamp_local (ts dt : Z) :
  fromtimestamp ts = Some dt → dt = ts + utcoffset ts.
Proof.
  unfold fromtimestamp, local. intros Hts.
  repeat (case_match; simplify_option_eq); done.
Qed.

(** Whenever [mktime] answers with an instant whose local time is the
    datetime asked for, the way back gives that datetime. *)
Lemma unix_to_date_of_solution (d u : Z) :
  u + utcoffset u = combine_midnight d →
  is_Some (unix_to_date u) → unix_to_date u = Some d.
Proof.
  intros Hu [d' Hd']. rewrite Hd'. unfold unix_to_date in Hd'.
  destruct (fromtimestamp u) as [dt|] eqn:Hdt; simplify_option_eq.
  apply fromtimestamp_local in Hdt. subst dt. rewrite Hu.
  f_equal. pose proof (date_of_midnight d 0). rewrite Z.add_0_r in *. lia.
Qed.

Lemma year_in_range_near (d x : Z) :
  MINORDINAL < d ≤ MAXORDINAL →
  (combine_midnight d - 86400 ≤ x
   ∨ (MINORDINAL + 1 < d ∧ combine_midnight d - 172800 ≤ x)) →
  x < combine_midnight d + 86400 →
  year_in_range x = true.
Proof.
  unfold year_in_range, date_of, combine_midnight, MINORDINAL, MAXORDINAL,
    EPOCH_ORDINAL.
  intros Hd Hlow Hhigh. apply andb_true_iff. rewrite !Z.leb_le.
  Z.div_mod_to_equations. lia.
Qed.

(** *** A clock that changes its offset at most once around the midnight

    Within 24 hours of the local midnight of [d], reckoned with either
    offset, the clock is [c1] ahead of UTC before the instant [s] and [c2]
    from [s] on.  With [c1 = c2] this is a clock at a fixed offset; with
    [c2 - c1] an hour, a change to or from daylight saving time. *)
Section OneChange.
Variables d c1 c2 s : Z.
Hypothesis Hd : MINORDINAL < d ≤ MAXORDINAL.
Hypothesis Hedge : c1 = c2 ∨ MINORDINAL + 1 < d.
Hypothesis Hc1 : -86400 < c1 < 86400.
Hypothesis Hc2 : -86400 < c2 < 86400.
Hypothesis Hjump : -86400 < c2 - c1 < 86400.
Hypothesis Hzone : ∀ u,
  combine_midnight d - Z.max c1 c2 - 86400 ≤ u
  ≤ combine_midnight d - Z.min c1 c2 + 86400 →
  utcoffset u = if u <? s then c1 else c2.

Lemma local_before (u : Z) :
  combine_midnight d - Z.max c1 c2 - 86400 ≤ u
  ≤ combine_midnight d - Z.min c1 c2 + 86400 →
  u < s →
  (combine_midnight d - 86400 ≤ u + c1
   ∨ (MINORDINAL + 1 < d ∧ combine_midnight d - 172800 ≤ u + c1)) →
  u + c1 < combine_midnight d + 86400 →
  local u = Some (u + c1).
Proof.
  intros Hw Hu Hlow Hhigh. unfold local. rewrite (Hzone u Hw).
  destruct (Z.ltb_spec u s); [|lia].
  by rewrite (year_in_range_near d).
Qed.

Lemma local_after (u : Z) :
  combine_midnight d - Z.max c1 c2 - 86400 ≤ u
  ≤ combine_midnight d - Z.min c1 c2 + 86400 →
  s ≤ u →
  (combine_midnight d - 86400 ≤ u + c2
   ∨ (MINORDINAL + 1 < d ∧ combine_midnight d - 172800 ≤ u + c2)) →
  u + c2 < combine_midnight d + 86400 →
  local u = Some (u + c2).
Proof.
  intros Hw Hu Hlow Hhigh. unfold local. rewrite (Hzone u Hw).
  destruct (Z.ltb_spec u s); [lia|].
  by rewrite (year_in_range_near d).
Qed.

(** One call of [local]: on which side of the change the instant lies. *)
Local Ltac probe :=
  match goal with
  | |- context [local ?u] =>
      destruct (Z_lt_le_dec u s);
      [ first [ exfalso; lia
              | rewrite (local_before u) by (unfold max_fold_seconds in *; lia) ]
      | first [ exfalso; lia
              | rewrite (local_after u) by (unfold max_fold_seconds in *; lia) ] ];
      cbn [mbind option_bind]
  end.

(** The comparisons of the code. *)
Local Ltac tests :=
  repeat match goal with
         | |- context [?x =? ?y] => destruct (Z.eqb_spec x y); try (exfalso; lia)
         | |- context [?x <? ?y] => destruct (Z.ltb_spec x y); try (exfalso; lia)
         end.

(** The instant [mktime] picks for the midnight of [d]: one at which the
    clock shows that midnight, or, when the change skips the midnight,
    [c1] before it on the UTC clock, which is past the change. *)
Lemma mktime_one_change :
  let t := combine_midnight d in
  ∃ ts, mktime t = Some ts
        ∧ ((ts = t - c1 ∧ ts < s)
           ∨ (ts = t - c2 ∧ s ≤ ts)
           ∨ (ts = t - c1 ∧ s ≤ ts ∧ t - c2 < s)).
Proof.
  cbv zeta. unfold mktime, max_fold_seconds.
  probe.
  all: match goal with
       | |- context [combine_midnight d - (combine_midnight d + ?c - combine_midnight d)] =>
           replace (combine_midnight d - (combine_midnight d + c - combine_midnight d))
             with (combine_midnight d - c) by lia
       end.
  all: probe.
  all: tests.
  all: repeat probe.
  all: tests.
  all: repeat probe.
  all: tests.
  all: eexists; split; [reflexivity|]; lia.
Qed.

(** From such an instant [unix_to_date] comes back to [d]. *)
Lemma unix_to_date_one_change (ts : Z) :
  let t := combine_midnight d in
  (ts = t - c1 ∧ ts < s)
  ∨ (ts = t - c2 ∧ s ≤ ts)
  ∨ (ts = t - c1 ∧ s ≤ ts ∧ t - c2 < s) →
  t ≤ ts + utcoffset ts < t + 86400
  ∧ unix_to_date ts = Some d.
Proof.
  cbv zeta. intros Hts.
  assert (utcoffset ts = if ts <? s then c1 else c2) as Hoff by (apply Hzone; lia).
  split; [rewrite Hoff; tests; lia|].
  unfold unix_to_date, fromtimestamp, max_fold_seconds.
  probe; probe; tests; repeat probe; cbn [mbind option_bind]; f_equal.
  all: match goal with
       | |- date_of ?x = d =>
           replace x with (combine_midnight d + (x - combine_midnight d)) by lia;
           apply date_of_midnight; lia
       end.
Qed.

(** C8, as the code has it.  Let [d] be a date after [date.min], on a host
    whose UTC offset, within 24 hours of the local midnight of [d], changes
    at most once: it is [c1] before the instant [s] and [c2] from [s] on,
    both of less than a day and less than a day apart (a host at a fixed
    offset has [c1 = c2]; a change to or from daylight saving time is an
    hour).  If the offset does change there, let [d] be after 0001-01-02
    too.  Then [date_to_unix d] returns an instant at which the local clock
    shows the midnight of [d], or, when the change skips that midnight, the
    first time of [d] after it; and [unix_to_date] takes that instant back
    to [d]. *)
Theorem date_round_trip :
  let t := combine_midnight d in
  ∃ ts,
    date_to_unix d = Some ts
    ∧ (ts = t - c1 ∨ ts = t - c2)
    ∧ (ts + utcoffset ts = t
       ∨ (s + c1 ≤ t < s + c2 ∧ ts = t - c1
          ∧ ts + utcoffset ts = t + (c2 - c1)))
    ∧ unix_to_date ts = Some d
    ∧ round_trip d = Some d.
Proof.
  cbv zeta. destruct mktime_one_change as (ts & Hts & Hcases).
  destruct (unix_to_date_one_change ts Hcases) as [Hday Hback].
  exists ts. split; [done|]. split; [lia|]. split.
  - assert (utcoffset ts = if ts <? s then c1 else c2) as Hoff by (apply Hzone; lia).
    rewrite Hoff. tests; lia.
  - split; [done|]. unfold round_trip, date_to_unix. rewrite Hts. done.
Qed.

End OneChange.

End WithHost.

Lemma date_round_trip_witness :
  round_trip (H := utc_host) (ymd2ord 2025 10 17) = Some (ymd2ord 2025 10 17)
  ∧ round_trip (H := madrid_host) (ymd2ord 2025 3 30) = Some (ymd2ord 2025 3 30)
  ∧ round_trip (H := madrid_host) (ymd2ord 2025 3 31) = Some (ymd2ord 2025 3 31)
  ∧ round_trip (H := sao_paulo_host) (ymd2ord 2018 11 4) = Some (ymd2ord 2018 11 4)
  ∧ date_to_unix (H := sao_paulo_host) (ymd2ord 2018 11 4) = Some 1541300400.
Proof.
  assert (∀ y m d, (MINORDINAL + 1 <? ymd2ord y m d) = true →
                   (ymd2ord y m d <=? MAXORDINAL) = true →
                   MINORDINAL < ymd2ord y m d ≤ MAXORDINAL
                   ∧ MINORDINAL + 1 < ymd2ord y m d) as Hrange.
  { intros y m d Hlow Hhigh. apply Z.ltb_lt in Hlow. apply Z.leb_le in Hhigh. lia. }
  destruct (Hrange 2025 10 17 eq_refl eq_refl) as [Hd1 _].
  destruct (Hrange 2025 3 30 eq_refl eq_refl) as [Hd2 He2].
  destruct (Hrange 2025 3 31 eq_refl eq_refl) as [Hd3 He3].
  destruct (Hrange 2018 11 4 eq_refl eq_refl) as [Hd4 He4].
  assert (∀ u : Z,
            combine_midnight (ymd2ord 2025 10 17) - Z.max 0 0 - 86400 ≤ u
            ≤ combine_midnight (ymd2ord 2025 10 17) - Z.min 0 0 + 86400 →
            utcoffset (Host := utc_host) u = if u <? 0 then 0 else 0) as Hutc.
  { intros u _. simpl. by destruct (u <? 0). }
  split; [|split; [|split; [|split]]].
  - destruct (date_round_trip (H := utc_host) (ymd2ord 2025 10 17) 0 0 0 Hd1
                (or_introl eq_refl) ltac:(lia) ltac:(lia) ltac:(lia) Hutc)
      as (ts & _ & _ & _ & _ & Hround).
    exact Hround.
  - destruct (date_round_trip (H := madrid_host) (ymd2ord 2025 3 30)
                3600 7200 1743296400 Hd2 (or_intror He2)
                ltac:(lia) ltac:(lia) ltac:(lia) (λ _ _, eq_refl))
      as (ts & _ & _ & _ & _ & Hround).
    exact Hround.
  - destruct (date_round_trip (H := madrid_host) (ymd2ord 2025 3 31)
                3600 7200 1743296400 Hd3 (or_intror He3)
                ltac:(lia) ltac:(lia) ltac:(lia) (λ _ _, eq_refl))
      as (ts & _ & _ & _ & _ & Hround).
    exact Hround.
  - destruct (date_round_trip (H := sao_paulo_host) (ymd2ord 2018 11 4)
                (-10800) (-7200) 1541300400 Hd4 (or_intror He4)
                ltac:(lia) ltac:(lia) ltac:(lia) (λ _ _, eq_refl))
      as (ts & _ & _ & _ & _ & Hround).
    exact Hround.
  - reflexivity.
Defined.

(** C8, as the claim has it, fails: in Apia, which had no 30 December
    2011, that date comes back as the 31st; and on any host [date.min]
    does not come back at all, [date_to_unix] raising on it (UTC here). *)
Lemma date_round_trip_fails :
  round_trip (H := apia_host) (ymd2ord 2011 12 30) = Some (ymd2ord 2011 12 31)
  ∧ round_trip (H := utc_host) (ymd2ord 1 1 1) = None
  ∧ ¬ (∀ (host : Host) (d : Z),
         MINORDINAL ≤ d ≤ MAXORDINAL → round_trip (H := host) d = Some d).
Proof.
  split; [by vm_compute|]. split; [by vm_compute|].
  intros Hall. specialize (Hall utc_host (ymd2ord 1 1 1)).
  assert (MINORDINAL ≤ ymd2ord 1 1 1 ≤ MAXORDINAL) as Hr
    by (vm_compute; split; discriminate).
  specialize (Hall Hr). vm_compute in Hall. discriminate.
Qed.

(** Why the day after [date.min] is left out when the offset changes
    around its midnight: on a clock put forward by an hour two hours
    before that midnight, [date_to_unix] looks 24 hours back from the
    midnight, an hour further because of the change, and leaves year 1. *)
Lemma date_round_trip_second_day :
  let host := {| lower := Str.lower_ascii;
                 utcoffset := λ u, if u <? -62135517600 then 0 else 3600 |} in
  combine_midnight (ymd2ord 1 1 2) - 7200 = -62135517600
  ∧ date_to_unix (H := host) (ymd2ord 1 1 2) = None
  ∧ round_trip (H := host) (ymd2ord 1 1 2) = None
  ∧ round_trip (H := host) (ymd2ord 1 1 3) = Some (ymd2ord 1 1 3).
Proof. by vm_compute. Qed.

(** The two formats of a duration of 125 seconds. *)
Lemma duration_formats :
  unix_to_time (H := utc_host) 125 = Some "00:02:05"
  ∧ seconds_to_timestamp 125 = "02:05"
  ∧ seconds_to_timestamp 59 = "00:59"
  ∧ seconds_to_timestamp 6000 = "100:00".
Proof. by vm_compute. Qed.

End TimeFacts.

(** ** Loops *)

Module PyFacts.

Lemma for_each_cons {S A : Type} (body : S → A → option S) (s : S) (x : A) (l : list A) :
  Py.for_each body s (x :: l) = body s x ≫= λ s', Py.for_each body s' l.
Proof. reflexivity. Qed.

Lemma for_each_app {S A : Type} (body : S → A → option S) (s : S) (l1 l2 : list A) :
  Py.for_each body s (l1 ++ l2)
  = Py.for_each body s l1 ≫= λ s', Py.for_each body s' l2.
Proof.
  revert s. induction l1 as [|x l1 IH]; intros s; [done|].
  rewrite <- app_comm_cons, !for_each_cons.
  destruct (body s x) as [s1|]; [|done]. simpl. apply IH.
Qed.

End PyFacts.

(** ** Dicts keyed by the group values *)

Module GroupDictFacts.
Import Enums AgentGroupSelector.

Lemma value_inj (g1 g2 : AgentGroup) : value g1 = value g2 → g1 = g2.
Proof. by destruct g1, g2. Qed.

Lemma generate_dictionary_keys_lookup (g : AgentGroup) :
  generate_dictionary_keys !! value g = Some [].
Proof. by destruct g. Qed.

(** [for group in groups: d[group.value].append(x)] on a dict that has
    every group key. *)
Lemma append_to_groups (x : string) (groups : list AgentGroup)
    (d : gmap string (list string)) :
  NoDup groups →
  (∀ g, is_Some (d !! value g)) →
  ∃ d', Py.for_each (λ d group, Py.dict_append (value group) x d) d groups = Some d'
        ∧ ∀ g, d' !! value g
               = (λ l, if decide (g ∈ groups) then l ++ [x] else l) <$> d !! value g.
Proof.
  revert d. induction groups as [|g0 groups IH]; intros d Hnd Hall; simpl.
  - exists d. split; [done|]. intros g. by destruct (d !! value g).
  - apply NoDup_cons in Hnd as [Hg0 Hnd].
    destruct (Hall g0) as [l0 Hl0].
    assert (Py.dict_append (value g0) x d = Some (<[value g0 := l0 ++ [x]]> d))
      as Hstep by (unfold Py.dict_append; by rewrite Hl0).
    rewrite Hstep. simpl.
    destruct (IH (<[value g0 := l0 ++ [x]]> d) Hnd) as (d' & Hd' & Hlook).
    { intros g. destruct (decide (value g0 = value g)) as [->|Hne].
      - rewrite lookup_insert_eq. by eexists.
      - rewrite lookup_insert_ne by done. apply Hall. }
    exists d'. split; [done|]. intros g. rewrite Hlook.
    destruct (decide (g = g0)) as [->|Hne].
    + rewrite lookup_insert_eq, Hl0. simpl.
      rewrite decide_False by done.
      by rewrite decide_True by (apply elem_of_cons; by left).
    + rewrite lookup_insert_ne by (intros Hv; by apply value_inj in Hv).
      destruct (d !! value g); [|done]. simpl. f_equal.
      destruct (decide (g ∈ groups)).
      * by rewrite decide_True by (apply elem_of_cons; by right).
      * rewrite decide_False; [done|]. rewrite elem_of_cons. by intros [?|?].
Qed.

End GroupDictFacts.

(** ** The agent catalog *)

Module CatalogFacts.
Import Enums AgentGroupSelector AgentConnection GroupDictFacts.

Section WithHost.
Context `{Host}.

Lemma add_agents_groups (api : Api) (response : list (string * string))
    (L : AgentGroup → list string) cls d cls' d' :
  (∀ g, d !! value g = Some (L g)) →
  Py.for_each (add_agent api) (cls, d) response = Some (cls', d') →
  (∀ g, d' !! value g
        = Some (L g ++ (fst <$> filter (λ a, g ∈ get_agent_groups a.2) response)))
  ∧ agents_ids cls' = agents_ids cls ++ (fst <$> response).
Proof.
  revert L cls d. induction response as [|[id name] response IH];
    intros L cls d HL Hrun.
  - simpl in Hrun. simplify_eq.
    split; [|by rewrite app_nil_r]. intros g.
    by rewrite filter_nil, fmap_nil, app_nil_r.
  - rewrite PyFacts.for_each_cons in Hrun.
    destruct (add_agent api (cls, d) (id, name)) as [[cls1 d1]|] eqn:Hadd;
      [|done].
    simpl in Hrun. unfold add_agent in Hadd.
    destruct (agents_get api id) as [agent_info|]; [|done]. simpl in Hadd.
    destruct (append_to_groups id (get_agent_groups name) d)
      as (d0 & Hd0 & Hlook).
    { apply ClassifierFacts.get_agent_groups_NoDup. }
    { intros g. rewrite HL. by eexists. }
    rewrite Hd0 in Hadd. simpl in Hadd. simplify_eq.
    apply (IH (λ g, if decide (g ∈ get_agent_groups name)
                    then L g ++ [id] else L g)) in Hrun as [Hgroups Hids].
    + split.
      * intros g. rewrite Hgroups, filter_cons. simpl. f_equal.
        case_decide; [|done]. by rewrite <- app_assoc.
      * rewrite Hids. simpl. by rewrite <- app_assoc.
    + intros g. rewrite Hlook, HL. done.
Qed.

(** After construction the per-group dict has, for each group, the ids
    of the listed agents whose name carries it, in listing order. *)
Lemma init_groups (api : Api) catalog catalog' connection :
  init api catalog = Some (catalog', connection) →
  ∃ response,
    agents_list api = Some response
    ∧ (∀ g, get_agent_group_ids connection g
            = Some (fst <$> filter (λ a, g ∈ get_agent_groups a.2) response))
    ∧ agents_ids catalog' = agents_ids catalog ++ (fst <$> response).
Proof.
  unfold init. intros Hinit.
  destruct (agents_list api) as [response|]; [|done]. simpl in Hinit.
  destruct (Py.for_each _ _ response) as [[cls1 d1]|] eqn:Hrun; [|done].
  simpl in Hinit. simplify_eq. exists response. split; [done|].
  apply (add_agents_groups api response (λ _, [])) in Hrun as [Hgroups Hids].
  - split; [|done]. intros g. unfold get_agent_group_ids. simpl.
    by rewrite Hgroups.
  - intros g. apply generate_dictionary_keys_lookup.
Qed.

End WithHost.

(** A remote with three agents, for the examples. *)
Definition schema_of (agent_id : string) : gmap string LiteralJsonSchemaProperty :=
  if String.eqb agent_id "agent_1"
  then {[ "interes" := {| type := "string"; description := "Producto de interés" |} ]}
  else ∅.

Definition three_agents : Api :=
  {| agents_list :=
       Some [("agent_1", "María ES"); ("agent_2", "Elena AFFA Banner");
             ("agent_3", "Soporte")];
     agents_get := λ id,
       Some {| agent_id := id; name := id;
               platform_settings :=
                 Some {| data_collection := Some (schema_of id) |} |};
     agents_update := λ _ _, true |}.

End CatalogFacts.

(** ** The aggregator *)

Module AggregatorFacts.
Import Enums AgentGroupSelector ConversationConnection GroupDictFacts.

(** The conversations the loop of [build] receives: those of every page
    up to and including the first one that says [has_more = False]. *)
Fixpoint received (pages : list Response) : list ConversationSummary :=
  match pages with
  | [] => []
  | response :: pages' =>
      conversations_page response ++ (if has_more response then received pages' else [])
  end.

(** The pages end: one of them says [has_more = False]. *)
Fixpoint complete (pages : list Response) : bool :=
  match pages with
  | [] => false
  | response :: pages' => if has_more response then complete pages' else true
  end.

(** The conversations that pass the test of the [continue]. *)
Definition indexed (accepted : list string) (convs : list ConversationSummary)
  : list ConversationSummary :=
  filter (λ c, skipped accepted (agent_id c) = false) convs.

Lemma skipped_false (accepted : list string) (a : string) :
  skipped accepted a = false ↔ accepted = [] ∨ a ∈ accepted.
Proof.
  unfold skipped. destruct accepted as [|x accepted]; simpl.
  - split; [by left | done].
  - rewrite negb_false_iff, bool_decide_eq_true.
    split; [by right | by intros [?|?]].
Qed.

Lemma indexed_snoc (accepted : list string) seen (c : ConversationSummary) :
  indexed accepted (seen ++ [c])
  = indexed accepted seen ++ (if skipped accepted (agent_id c) then [] else [c]).
Proof.
  unfold indexed. rewrite filter_app. f_equal.
  rewrite filter_cons, filter_nil.
  destruct (skipped accepted (agent_id c)); by case_decide.
Qed.

Lemma elem_of_indexed (accepted : list string) convs (c : ConversationSummary) :
  c ∈ indexed accepted convs
  ↔ c ∈ convs ∧ (accepted = [] ∨ agent_id c ∈ accepted).
Proof. unfold indexed. by rewrite list_elem_of_filter, skipped_false, (comm and). Qed.

Section WithHost.
Context `{Host}.

(** What one pass of the inner loop does. *)
Lemma index_conversation_skip cls per_group (c : ConversationSummary) :
  skipped (accepted_agent_ids cls) (agent_id c) = true →
  index_conversation (cls, per_group) c = Some (cls, per_group).
Proof. intros Hs. unfold index_conversation. by rewrite Hs. Qed.

Lemma index_conversation_keep cls per_group (c : ConversationSummary) cls' per_group' :
  skipped (accepted_agent_ids cls) (agent_id c) = false →
  index_conversation (cls, per_group) c = Some (cls', per_group') →
  ∃ info,
    conversation_info_of c = Some info
    ∧ cls' = add_conversation (agent_id c) info cls
    ∧ Py.for_each
        (λ d group, Py.dict_append (value group) (conversation_id c) d)
        per_group (get_agent_groups (agent_name c)) = Some per_group'.
Proof.
  intros Hs. unfold index_conversation. rewrite Hs. intros Hstep.
  destruct (conversation_info_of c) as [info|]; [|done]. simpl in Hstep.
  destruct (Py.for_each _ per_group _) as [d|]; [|done]. simpl in Hstep.
  exists info. by simplify_eq.
Qed.

Lemma conversation_info_of_id (c : ConversationSummary) info :
  conversation_info_of c = Some info →
  info_conversation_id info = conversation_id c
  ∧ info_call_duration_secs info = call_duration_secs c
  ∧ TimeHelper.unix_to_time (call_duration_secs c)
    = Some (info_call_duration_timestamp info).
Proof.
  unfold conversation_info_of. intros Hinfo.
  destruct (TimeHelper.unix_to_date _); [|done]. simpl in Hinfo.
  destruct (TimeHelper.unix_to_time (start_time_unix_secs c)); [|done].
  simpl in Hinfo.
  destruct (TimeHelper.unix_to_time (call_duration_secs c)); [|done].
  simpl in Hinfo. by simplify_eq.
Qed.

(** *** An invariant rule for the two loops

    [I seen cls per_group] relates the conversations received so far to
    the state the loops have reached. *)
Section Invariant.
Variable I : list ConversationSummary → Class → gmap string (list string) → Prop.

Hypothesis I_step : ∀ seen cls per_group c cls' per_group',
  I seen cls per_group →
  index_conversation (cls, per_group) c = Some (cls', per_group') →
  I (seen ++ [c]) cls' per_group'.

Hypothesis I_parameter : ∀ seen cls per_group k v,
  I seen cls per_group → I seen (set_parameter k v cls) per_group.

Lemma for_each_index_inv convs seen cls per_group cls' per_group' :
  I seen cls per_group →
  Py.for_each index_conversation (cls, per_group) convs = Some (cls', per_group') →
  I (seen ++ convs) cls' per_group'.
Proof.
  revert seen cls per_group.
  induction convs as [|c convs IH]; intros seen cls per_group HI Hrun.
  - simpl in Hrun. simplify_eq. by rewrite app_nil_r.
  - rewrite PyFacts.for_each_cons in Hrun.
    destruct (index_conversation (cls, per_group) c) as [[cls1 g1]|] eqn:Hc;
      [|done].
    simpl in Hrun. rewrite (cons_middle c), app_assoc.
    eapply IH; [|done]. by eapply I_step.
Qed.

Lemma build_pages_inv pages cursor seen cls per_group cls' per_group' :
  I seen cls per_group →
  build_pages pages cursor (cls, per_group) = Some (cls', per_group') →
  I (seen ++ received pages) cls' per_group'.
Proof.
  revert cursor seen cls per_group.
  induction pages as [|response pages IH];
    intros cursor seen cls per_group HI Hrun; [done|].
  simpl in Hrun.
  set (st0 := if Py.truthy cursor then _ else _) in Hrun.
  assert (I seen st0.1 st0.2) as HI0.
  { unfold st0. destruct (Py.truthy cursor); simpl; [by apply I_parameter|done]. }
  destruct st0 as [cls0 g0]. simpl in HI0.
  destruct (Py.for_each index_conversation (cls0, g0) (conversations_page response))
    as [[cls1 g1]|] eqn:Hpage; [|done].
  simpl in Hrun. apply (for_each_index_inv _ _ _ _ _ _ HI0) in Hpage.
  simpl. rewrite app_assoc. destruct (has_more response).
  - by eapply IH.
  - simplify_eq. by rewrite app_nil_r.
Qed.

End Invariant.

(** *** The state [build] reaches

    [Indexed cls0 seen cls per_group]: starting from the class objects
    [cls0], after the conversations [seen] the class objects are [cls]
    and the instance's per-group dict is [per_group]. *)
Definition Indexed (cls0 : Class) (seen : list ConversationSummary)
    (cls : Class) (per_group : gmap string (list string)) : Prop :=
  let kept := indexed (accepted_agent_ids cls0) seen in
  accepted_agent_ids cls = accepted_agent_ids cls0
  ∧ conversation_ids cls = conversation_ids cls0 ++ (conversation_id <$> kept)
  ∧ (∀ a, conversation_ids_per_agent_id cls !! a
          = match last (filter (λ c, agent_id c = a) kept) with
            | Some c => Some (conversation_id c)
            | None => conversation_ids_per_agent_id cls0 !! a
            end)
  ∧ (∀ g, per_group !! value g
          = Some (conversation_id
                    <$> filter (λ c, g ∈ get_agent_groups (agent_name c)) kept))
  ∧ (∀ id info, conversations cls !! id = Some info →
                conversations cls0 !! id = Some info
                ∨ ∃ c, c ∈ kept ∧ conversation_info_of c = Some info).

Lemma Indexed_start (cls0 : Class) :
  Indexed cls0 [] cls0 generate_dictionary_keys.
Proof.
  unfold Indexed, indexed. rewrite filter_nil. simpl.
  split; [done|]. split; [by rewrite app_nil_r|]. split; [done|].
  split; [apply generate_dictionary_keys_lookup | by left].
Qed.

Lemma Indexed_parameter cls0 seen cls per_group k v :
  Indexed cls0 seen cls per_group →
  Indexed cls0 seen (set_parameter k v cls) per_group.
Proof. done. Qed.

Lemma Indexed_step cls0 seen cls per_group c cls' per_group' :
  Indexed cls0 seen cls per_group →
  index_conversation (cls, per_group) c = Some (cls', per_group') →
  Indexed cls0 (seen ++ [c]) cls' per_group'.
Proof.
  intros (Hacc & Hids & Hagent & Hgroup & Hrec) Hstep.
  unfold Indexed. rewrite indexed_snoc. rewrite <- Hacc.
  destruct (skipped (accepted_agent_ids cls) (agent_id c)) eqn:Hskip.
  - rewrite index_conversation_skip in Hstep by done. simplify_eq.
    rewrite app_nil_r, Hacc. done.
  - destruct (index_conversation_keep _ _ _ _ _ Hskip Hstep)
      as (info & Hinfo & -> & Hgroups).
    destruct (conversation_info_of_id _ _ Hinfo) as (Hid & _ & _).
    rewrite Hacc in *. simpl. rewrite Hid.
    split; [done|]. split; [|split; [|split]].
    + by rewrite Hids, fmap_app, app_assoc.
    + intros a. rewrite filter_app, filter_cons, filter_nil.
      case_decide as Ha.
      * subst a. by rewrite lookup_insert_eq, last_snoc.
      * rewrite lookup_insert_ne, app_nil_r by done. apply Hagent.
    + intros g.
      destruct (append_to_groups (conversation_id c)
                  (get_agent_groups (agent_name c)) per_group)
        as (d' & Hd' & Hlook).
      { apply ClassifierFacts.get_agent_groups_NoDup. }
      { intros g'. rewrite Hgroup. by eexists. }
      rewrite Hgroups in Hd'. simplify_eq.
      rewrite Hlook, Hgroup. simpl.
      rewrite filter_app, filter_cons, filter_nil, fmap_app.
      case_decide; [done | by rewrite app_nil_r].
    + intros id info' Hlookup.
      destruct (decide (conversation_id c = id)) as [<-|Hne].
      * rewrite lookup_insert_eq in Hlookup. simplify_eq. right.
        exists c. split; [|done]. apply elem_of_app. right.
        by apply list_elem_of_singleton.
      * rewrite lookup_insert_ne in Hlookup by done.
        destruct (Hrec _ _ Hlookup) as [?|(c' & Hc' & Hinfo')]; [by left|].
        right. exists c'. split; [|done]. apply elem_of_app. by left.
Qed.

Lemma build_Indexed pages cls self cls' self' :
  build pages cls self = Some (cls', self') →
  ∃ per_group,
    conversation_ids_per_agent_group self' = Some per_group
    ∧ agent_connection self' = agent_connection self
    ∧ Indexed cls (received pages) cls' per_group.
Proof.
  unfold build. intros Hbuild.
  destruct (build_pages pages None _) as [[cls1 g1]|] eqn:Hpages; [|done].
  simpl in Hbuild. simplify_eq. exists g1. split; [done|]. split; [done|].
  apply (build_pages_inv (Indexed cls)) with (seen := []) in Hpages.
  - done.
  - apply Indexed_step.
  - apply Indexed_parameter.
  - apply Indexed_parameter, Indexed_start.
Qed.

(** *** [build] returns

    When the pages end and the three time conversions succeed on every
    conversation that is not skipped, [build] does not raise. *)
Lemma index_conversation_returns cls per_group (c : ConversationSummary) :
  (∀ g, is_Some (per_group !! value g)) →
  (skipped (accepted_agent_ids cls) (agent_id c) = false →
   is_Some (conversation_info_of c)) →
  ∃ cls' per_group',
    index_conversation (cls, per_group) c = Some (cls', per_group')
    ∧ accepted_agent_ids cls' = accepted_agent_ids cls
    ∧ ∀ g, is_Some (per_group' !! value g).
Proof.
  intros Hall Hinfo. unfold index_conversation.
  destruct (skipped _ _); [by exists cls, per_group|].
  destruct Hinfo as [info ->]; [done|]. simpl.
  destruct (append_to_groups (conversation_id c)
              (get_agent_groups (agent_name c)) per_group)
    as (d' & -> & Hlook); [apply ClassifierFacts.get_agent_groups_NoDup|done|].
  simpl. eexists _, d'. split; [done|]. split; [done|].
  intros g. rewrite Hlook. destruct (Hall g) as [l ->]. by eexists.
Qed.

Lemma for_each_index_returns convs cls per_group :
  (∀ g, is_Some (per_group !! value g)) →
  Forall (λ c, is_Some (conversation_info_of c))
         (indexed (accepted_agent_ids cls) convs) →
  ∃ cls' per_group',
    Py.for_each index_conversation (cls, per_group) convs = Some (cls', per_group')
    ∧ accepted_agent_ids cls' = accepted_agent_ids cls
    ∧ ∀ g, is_Some (per_group' !! value g).
Proof.
  revert cls per_group. induction convs as [|c convs IH]; intros cls g Hall Hinfo.
  - by exists cls, g.
  - unfold indexed in Hinfo. rewrite filter_cons in Hinfo.
    destruct (index_conversation_returns cls g c Hall)
      as (cls1 & g1 & Hstep & Hacc & Hall1).
    { intros Hskip. rewrite decide_True in Hinfo by done.
      by apply Forall_cons in Hinfo as [? _]. }
    destruct (IH cls1 g1 Hall1) as (cls' & g' & Hrest & Hacc' & Hall').
    { rewrite Hacc. case_decide; [|done]. by apply Forall_cons in Hinfo as [_ ?]. }
    exists cls', g'. rewrite PyFacts.for_each_cons, Hstep. simpl.
    split; [done|]. split; [congruence|done].
Qed.

Lemma build_pages_returns pages cursor cls per_group :
  complete pages = true →
  (∀ g, is_Some (per_group !! value g)) →
  Forall (λ c, is_Some (conversation_info_of c))
         (indexed (accepted_agent_ids cls) (received pages)) →
  is_Some (build_pages pages cursor (cls, per_group)).
Proof.
  revert cursor cls per_group.
  induction pages as [|response pages IH]; intros cursor cls g Hc Hall Hinfo;
    [done|].
  simpl in *. unfold indexed in Hinfo.
  rewrite filter_app in Hinfo. apply Forall_app in Hinfo as [Hpage Hrest].
  set (st0 := if Py.truthy cursor then _ else _).
  assert (accepted_agent_ids st0.1 = accepted_agent_ids cls ∧ st0.2 = g) as [Ha Hg].
  { unfold st0. by destruct (Py.truthy cursor). }
  destruct st0 as [cls0 g0]. simpl in Ha, Hg. subst g0.
  destruct (for_each_index_returns (conversations_page response) cls0 g Hall)
    as (cls1 & g1 & -> & Hacc & Hall1); [by rewrite Ha|].
  simpl. destruct (has_more response); [|by eexists].
  apply IH; [done|done|]. by rewrite Hacc, Ha.
Qed.

Lemma build_returns pages cls self :
  complete pages = true →
  Forall (λ c, is_Some (conversation_info_of c))
         (indexed (accepted_agent_ids cls) (received pages)) →
  is_Some (build pages cls self).
Proof.
  intros Hc Hinfo. unfold build.
  destruct (build_pages_returns pages None
              (set_parameter "page_size" (PInt 100) cls) generate_dictionary_keys)
    as [[cls1 g1] ->]; [done| |done|by eexists].
  intros g. rewrite generate_dictionary_keys_lookup. by eexists.
Qed.

(** C3.  After [build], the per-agent accessor answers with the id of
    the last conversation of that agent that the build indexed: each
    insertion for the agent replaces the one before. *)
Theorem per_agent_last_wins pages cls self cls' self' (a : string) c :
  build pages cls self = Some (cls', self') →
  last (filter (λ c, agent_id c = a)
               (indexed (accepted_agent_ids cls) (received pages))) = Some c →
  get_conversation_ids_from_agent cls' a = Some (conversation_id c).
Proof.
  intros Hbuild Hlast.
  destruct (build_Indexed _ _ _ _ _ Hbuild) as (g & _ & _ & HI).
  destruct HI as (_ & _ & Hagent & _).
  unfold get_conversation_ids_from_agent. by rewrite Hagent, Hlast.
Qed.

(** C4.  After [build] the lookup of any of the eight groups in the
    per-group index succeeds, with the ids of the indexed conversations
    that carry the group (none, possibly); and after the construction of
    the agent catalog the lookup of any group succeeds too. *)
Theorem group_lookup_never_fails :
  (∀ pages cls self cls' self',
     build pages cls self = Some (cls', self') →
     ∀ g, get_conversation_ids_from_agent_group self' g
          = Some (conversation_id
                    <$> filter (λ c, g ∈ get_agent_groups (agent_name c))
                          (indexed (accepted_agent_ids cls) (received pages))))
  ∧ (∀ api catalog catalog' connection,
       AgentConnection.init api catalog = Some (catalog', connection) →
       ∀ g, is_Some (AgentConnection.get_agent_group_ids connection g))
  ∧ length members = 8%nat
  ∧ ∀ g, g ∈ members.
Proof.
  split; [|split; [|split]].
  - intros pages cls self cls' self' Hbuild g.
    destruct (build_Indexed _ _ _ _ _ Hbuild) as (d & Hd & _ & HI).
    destruct HI as (_ & _ & _ & Hgroup & _).
    unfold get_conversation_ids_from_agent_group. rewrite Hd. simpl.
    apply Hgroup.
  - intros api catalog catalog' connection Hinit g.
    destruct (CatalogFacts.init_groups _ _ _ _ Hinit) as (r & _ & Hg & _).
    rewrite Hg. by eexists.
  - done.
  - intros g. unfold members. rewrite !elem_of_cons. destruct g; tauto.
Qed.

Lemma set_accepted_agent_groups_loop connection groups cls cls' :
  Py.for_each
    (λ cls group,
       group_ids ← AgentConnection.get_agent_group_ids connection group;
       Some (set_accepted_agent_ids group_ids cls))
    cls groups = Some cls' →
  ∃ expansions,
    Forall2 (λ g ids, AgentConnection.get_agent_group_ids connection g = Some ids)
            groups expansions
    ∧ accepted_agent_ids cls' = accepted_agent_ids cls ++ concat expansions.
Proof.
  revert cls. induction groups as [|g groups IH]; intros cls Hrun.
  - simpl in Hrun. simplify_eq. exists []. split; [done|].
    by rewrite app_nil_r.
  - rewrite PyFacts.for_each_cons in Hrun.
    destruct (AgentConnection.get_agent_group_ids connection g) as [ids|] eqn:Hg;
      [|done].
    simpl in Hrun. apply IH in Hrun as (expansions & Hall & Hacc).
    exists (ids :: expansions). split; [by constructor|].
    rewrite Hacc. simpl. by rewrite app_assoc.
Qed.

(** C6.  [build] leaves the accepted ids as they are and appends to the
    list of conversation ids those of the received conversations that
    pass the filter, in order; a received conversation passes exactly
    when the accepted list is empty or has its agent id.
    [set_accepted_agent_groups] works on the agent catalog the instance
    holds, or, when it holds none, on the one [AgentConnection()] builds
    then, which it keeps; it appends to the accepted ids, keeping the ones
    already there, the catalog's ids of each group in turn.  With a catalog
    built then, these are the ids of the agents the remote lists whose name
    carries the group, in listing order, and the call returns exactly when
    the construction of the catalog does. *)
Theorem accepted_ids_filter :
  (∀ pages cls self cls' self',
     build pages cls self = Some (cls', self') →
     accepted_agent_ids cls' = accepted_agent_ids cls
     ∧ get_all_conversation_ids cls'
       = get_all_conversation_ids cls
         ++ (conversation_id <$> indexed (accepted_agent_ids cls) (received pages))
     ∧ ∀ c, c ∈ indexed (accepted_agent_ids cls) (received pages)
            ↔ c ∈ received pages
              ∧ (accepted_agent_ids cls = [] ∨ agent_id c ∈ accepted_agent_ids cls))
  ∧ (∀ api groups catalog cls self catalog' cls' self',
       set_accepted_agent_groups api groups catalog cls self
       = Some (catalog', cls', self') →
       ∃ connection expansions,
         match agent_connection self with
         | Some held => connection = held ∧ catalog' = catalog
         | None => AgentConnection.init api catalog = Some (catalog', connection)
         end
         ∧ agent_connection self' = Some connection
         ∧ Forall2
             (λ g ids, AgentConnection.get_agent_group_ids connection g = Some ids)
             groups expansions
         ∧ accepted_agent_ids cls' = accepted_agent_ids cls ++ concat expansions)
  ∧ (∀ api groups catalog cls self,
       agent_connection self = None →
       (is_Some (set_accepted_agent_groups api groups catalog cls self)
        ↔ is_Some (AgentConnection.init api catalog))
       ∧ ∀ catalog' cls' self',
           set_accepted_agent_groups api groups catalog cls self
           = Some (catalog', cls', self') →
           ∃ response,
             AgentConnection.agents_list api = Some response
             ∧ accepted_agent_ids cls'
               = accepted_agent_ids cls
                 ++ concat ((λ g, fst <$> filter (λ a, g ∈ get_agent_groups a.2) response)
                              <$> groups)).
Proof.
  assert (∀ api groups catalog cls self catalog' cls' self',
            set_accepted_agent_groups api groups catalog cls self
            = Some (catalog', cls', self') →
            ∃ connection expansions,
              match agent_connection self with
              | Some held => connection = held ∧ catalog' = catalog
              | None => AgentConnection.init api catalog = Some (catalog', connection)
              end
              ∧ agent_connection self' = Some connection
              ∧ Forall2
                  (λ g ids, AgentConnection.get_agent_group_ids connection g = Some ids)
                  groups expansions
              ∧ accepted_agent_ids cls' = accepted_agent_ids cls ++ concat expansions)
    as Hexpand.
  { intros api groups catalog cls self catalog' cls' self'.
    unfold set_accepted_agent_groups. intros Hset.
    destruct (agent_connection self) as [held|].
    - simpl in Hset.
      destruct (Py.for_each _ cls groups) as [cls1|] eqn:Hloop; [|done].
      simpl in Hset. simplify_eq.
      apply set_accepted_agent_groups_loop in Hloop as (expansions & Hall & Hacc).
      by exists held, expansions.
    - destruct (AgentConnection.init api catalog) as [[catalog1 connection]|];
        [|done].
      simpl in Hset.
      destruct (Py.for_each _ cls groups) as [cls1|] eqn:Hloop; [|done].
      simpl in Hset. simplify_eq.
      apply set_accepted_agent_groups_loop in Hloop as (expansions & Hall & Hacc).
      by exists connection, expansions. }
  split; [|split; [exact Hexpand|]].
  - intros pages cls self cls' self' Hbuild.
    destruct (build_Indexed _ _ _ _ _ Hbuild) as (d & _ & _ & HI).
    destruct HI as (Hacc & Hids & _).
    split; [done|]. split; [done|]. intros c. apply elem_of_indexed.
  - intros api groups catalog cls self Hnone. split.
    + unfold set_accepted_agent_groups. rewrite Hnone. split.
      * intros [r Hr].
        destruct (AgentConnection.init api catalog); [by eexists|done].
      * intros [[catalog1 connection] Hinit]. rewrite Hinit. simpl.
        destruct (CatalogFacts.init_groups _ _ _ _ Hinit) as (response & _ & Hg & _).
        assert (∀ cls0, is_Some
                  (Py.for_each
                     (λ cls group,
                        group_ids ← AgentConnection.get_agent_group_ids connection group;
                        Some (set_accepted_agent_ids group_ids cls))
                     cls0 groups)) as Hloop.
        { induction groups as [|g groups IH]; intros cls0; [by eexists|].
          rewrite PyFacts.for_each_cons, Hg. simpl. apply IH. }
        destruct (Hloop cls) as [cls1 ->]. by eexists.
    + intros catalog' cls' self' Hset.
      destruct (Hexpand _ _ _ _ _ _ _ _ Hset)
        as (connection & expansions & Hinit & _ & Hall & Hacc).
      rewrite Hnone in Hinit.
      destruct (CatalogFacts.init_groups _ _ _ _ Hinit) as (response & Hlist & Hg & _).
      exists response. split; [done|]. rewrite Hacc. do 2 f_equal.
      clear -Hall Hg. induction Hall as [|g ids groups expansions Hids _ IH]; [done|].
      rewrite fmap_cons, <- IH. f_equal. rewrite Hg in Hids. by simplify_eq.
Qed.

(** The dict of records [build] reaches: under each id the record of the
    last indexed conversation with that id; and the conversions succeeded on
    every indexed conversation. *)
Definition Recorded (cls0 : Class) (seen : list ConversationSummary)
    (cls : Class) (per_group : gmap string (list string)) : Prop :=
  let kept := indexed (accepted_agent_ids cls0) seen in
  accepted_agent_ids cls = accepted_agent_ids cls0
  ∧ Forall (λ c, is_Some (conversation_info_of c)) kept
  ∧ ∀ id, conversations cls !! id
          = match last (filter (λ c, conversation_id c = id) kept) with
            | Some c => conversation_info_of c
            | None => conversations cls0 !! id
            end.

Lemma Recorded_step cls0 seen cls per_group c cls' per_group' :
  Recorded cls0 seen cls per_group →
  index_conversation (cls, per_group) c = Some (cls', per_group') →
  Recorded cls0 (seen ++ [c]) cls' per_group'.
Proof.
  intros (Hacc & Hall & Hrec) Hstep. unfold Recorded.
  rewrite indexed_snoc, <- Hacc.
  destruct (skipped (accepted_agent_ids cls) (agent_id c)) eqn:Hskip.
  - rewrite index_conversation_skip in Hstep by done. simplify_eq.
    rewrite app_nil_r, Hacc. done.
  - destruct (index_conversation_keep _ _ _ _ _ Hskip Hstep)
      as (info & Hinfo & -> & _).
    destruct (conversation_info_of_id _ _ Hinfo) as (Hid & _ & _).
    rewrite Hacc in *. simpl. rewrite Hid. split; [done|]. split.
    + apply Forall_app. split; [done|]. apply Forall_singleton. by eexists.
    + intros id. rewrite filter_app, filter_cons, filter_nil.
      case_decide as Hc.
      * subst id. by rewrite lookup_insert_eq, last_snoc.
      * rewrite lookup_insert_ne, app_nil_r by done. apply Hrec.
Qed.

Lemma build_Recorded pages cls self cls' self' :
  build pages cls self = Some (cls', self') →
  ∃ per_group, Recorded cls (received pages) cls' per_group.
Proof.
  unfold build. intros Hbuild.
  destruct (build_pages pages None _) as [[cls1 g1]|] eqn:Hpages; [|done].
  simpl in Hbuild. simplify_eq. exists g1.
  apply (build_pages_inv (Recorded cls)) with (seen := []) in Hpages.
  - done.
  - apply Recorded_step.
  - by intros seen cls0 g k v (? & ? & ?).
  - unfold Recorded, indexed. rewrite filter_nil. simpl. by repeat split.
Qed.

Lemma built_records pages cls self cls' self' id info :
  build pages cls self = Some (cls', self') →
  conversations cls' !! id = Some info →
  conversations cls !! id = Some info
  ∨ TimeHelper.unix_to_time (info_call_duration_secs info)
    = Some (info_call_duration_timestamp info).
Proof.
  intros Hbuild Hlookup.
  destruct (build_Indexed _ _ _ _ _ Hbuild) as (d & _ & _ & HI).
  destruct HI as (_ & _ & _ & _ & Hrec).
  destruct (Hrec _ _ Hlookup) as [?|(c & _ & Hinfo)]; [by left|right].
  destruct (conversation_info_of_id _ _ Hinfo) as (_ & -> & ?). done.
Qed.

End WithHost.

(** *** A run under UTC *)

Definition conversation (id agent name : string) (start duration : Z)
  : ConversationSummary :=
  {| conversation_id := id; agent_id := agent; agent_name := name;
     start_time_unix_secs := start; call_duration_secs := duration;
     status := "done"; call_successful := "success"; direction := "inbound" |}.

Definition two_pages : list Response :=
  [ {| conversations_page :=
         [ conversation "conv_1" "agent_1" "María ES" 1760659200 125;
           conversation "conv_2" "agent_2" "Elena AFFA Banner" 1760662800 59;
           conversation "conv_3" "agent_1" "María ES" 1760666400 6000 ];
       has_more := true; next_cursor := Some "page_2" |};
    {| conversations_page :=
         [ conversation "conv_4" "agent_3" "Soporte" 1760670000 30 ];
       has_more := false; next_cursor := None |} ].

Lemma two_pages_build :
  is_Some (build (H := utc_host) two_pages class_body init).
Proof.
  apply build_returns; [done|].
  change (indexed _ _) with (received two_pages).
  unfold two_pages. simpl. repeat constructor; vm_compute; by eexists.
Qed.

Lemma per_agent_last_wins_witness :
  ∃ cls' self',
    build (H := utc_host) two_pages class_body init = Some (cls', self')
    ∧ get_conversation_ids_from_agent cls' "agent_1" = Some "conv_3".
Proof.
  destruct (build (H := utc_host) two_pages class_body init)
    as [[cls' self']|] eqn:Hbuild.
  - exists cls', self'. split; [reflexivity|].
    apply (per_agent_last_wins (H := utc_host) two_pages class_body init cls' self'
             "agent_1" (conversation "conv_3" "agent_1" "María ES" 1760666400 6000)
             Hbuild).
    vm_compute. reflexivity.
  - exfalso. vm_compute in Hbuild. discriminate Hbuild.
Defined.

Lemma group_lookup_never_fails_witness :
  ∃ cls' self',
    build (H := utc_host) two_pages class_body init = Some (cls', self')
    ∧ get_conversation_ids_from_agent_group self' MARIA = Some ["conv_1"; "conv_3"]
    ∧ get_conversation_ids_from_agent_group self' COACH = Some [].
Proof.
  destruct (build (H := utc_host) two_pages class_body init)
    as [[cls' self']|] eqn:Hbuild.
  - exists cls', self'. split; [reflexivity|].
    pose proof (proj1 (group_lookup_never_fails (H := utc_host))
                  two_pages class_body init cls' self' Hbuild) as Hgroup.
    split; (etrans; [apply Hgroup | vm_compute; reflexivity]).
  - exfalso. vm_compute in Hbuild. discriminate Hbuild.
Defined.

Lemma accepted_ids_filter_witness :
  (∃ cls' self',
     build (H := utc_host) two_pages
           (set_accepted_agent_ids ["agent_1"] class_body) init = Some (cls', self')
     ∧ get_all_conversation_ids cls' = ["conv_1"; "conv_3"])
  ∧ (∃ catalog' cls' self',
       set_accepted_agent_groups (H := utc_host) CatalogFacts.three_agents
         [MARIA; ELENA_BANNER] AgentConnection.class_body
         (set_accepted_agent_ids ["agent_9"] class_body) init
       = Some (catalog', cls', self')
       ∧ accepted_agent_ids cls' = ["agent_9"; "agent_1"; "agent_2"]).
Proof.
  split.
  - destruct (build (H := utc_host) two_pages
                (set_accepted_agent_ids ["agent_1"] class_body) init)
      as [[cls' self']|] eqn:Hbuild.
    + exists cls', self'. split; [reflexivity|].
      destruct (proj1 (accepted_ids_filter (H := utc_host)) _ _ _ _ _ Hbuild)
        as (_ & Hids & _).
      etrans; [apply Hids | vm_compute; reflexivity].
    + exfalso. vm_compute in Hbuild. discriminate Hbuild.
  - destruct (proj2 (proj2 (accepted_ids_filter (H := utc_host)))
                CatalogFacts.three_agents [MARIA; ELENA_BANNER]
                AgentConnection.class_body
                (set_accepted_agent_ids ["agent_9"] class_body) init eq_refl)
      as [Hreturns Hids].
    destruct (proj2 Hreturns) as [[[catalog' cls'] self'] Hset].
    { vm_compute. by eexists. }
    exists catalog', cls', self'. split; [exact Hset|].
    destruct (Hids _ _ _ Hset) as (response & Hlist & ->).
    injection Hlist as <-. vm_compute. reflexivity.
Defined.

(** C10.  The [call_duration_timestamp] of a record is [unix_to_time] of
    the call's duration, the duration read as a POSIX instant and its
    local time of day printed as HH:MM:SS.  [build] stores such a record
    for every conversation it indexes: after [build] the dict of
    conversations has, under the id of each indexed conversation, a record
    whose [call_duration_timestamp] is [unix_to_time] of its
    [call_duration_secs], the duration of the last indexed conversation
    with that id; and every record of the dict that was not there before
    has the field so.  Under UTC a call of 125 seconds has "00:02:05"
    there, where [seconds_to_timestamp] would give "02:05". *)
Theorem call_duration_timestamp_is_unix_to_time :
  (∀ (host : Host) c info,
     conversation_info_of (H := host) c = Some info →
     TimeHelper.unix_to_time (H := host) (call_duration_secs c)
     = Some (info_call_duration_timestamp info))
  ∧ (∀ (host : Host) pages cls self cls' self',
       build (H := host) pages cls self = Some (cls', self') →
       (∀ c, c ∈ indexed (accepted_agent_ids cls) (received pages) →
             ∃ info,
               get_all_conversations_info cls' !! conversation_id c = Some info
               ∧ TimeHelper.unix_to_time (H := host) (info_call_duration_secs info)
                 = Some (info_call_duration_timestamp info))
       ∧ (∀ id c,
            last (filter (λ c, conversation_id c = id)
                    (indexed (accepted_agent_ids cls) (received pages))) = Some c →
            ∃ info,
              get_all_conversations_info cls' !! id = Some info
              ∧ info_call_duration_secs info = call_duration_secs c
              ∧ TimeHelper.unix_to_time (H := host) (call_duration_secs c)
                = Some (info_call_duration_timestamp info))
       ∧ (∀ id info,
            get_all_conversations_info cls' !! id = Some info →
            get_all_conversations_info cls !! id = Some info
            ∨ TimeHelper.unix_to_time (H := host) (info_call_duration_secs info)
              = Some (info_call_duration_timestamp info)))
  ∧ (∀ c info,
       conversation_info_of (H := utc_host) c = Some info →
       call_duration_secs c = 125 →
       info_call_duration_timestamp info = "00:02:05"
       ∧ TimeHelper.seconds_to_timestamp (call_duration_secs c) = "02:05").
Proof.
  split; [|split].
  - intros host c info Hinfo. by apply (conversation_info_of_id (H := host)).
  - intros host pages cls self cls' self' Hbuild.
    destruct (build_Recorded (H := host) _ _ _ _ _ Hbuild) as (g & _ & Hall & Hrec).
    set (kept := indexed (accepted_agent_ids cls) (received pages)) in *.
    assert (∀ id c,
              last (filter (λ c, conversation_id c = id) kept) = Some c →
              ∃ info,
                get_all_conversations_info cls' !! id = Some info
                ∧ info_call_duration_secs info = call_duration_secs c
                ∧ TimeHelper.unix_to_time (H := host) (call_duration_secs c)
                  = Some (info_call_duration_timestamp info)) as Hlast.
    { intros id c Hc. unfold get_all_conversations_info. rewrite Hrec, Hc.
      apply last_Some_elem_of, list_elem_of_filter in Hc as [_ Hkept].
      rewrite Forall_forall in Hall. destruct (Hall c Hkept) as [info Hinfo].
      exists info. split; [done|].
      by destruct (conversation_info_of_id (H := host) _ _ Hinfo) as (_ & ? & ?). }
    split; [|split; [exact Hlast|]].
    + intros c Hc.
      destruct (last (filter (λ c0, conversation_id c0 = conversation_id c) kept))
        as [c'|] eqn:Hc'.
      * destruct (Hlast _ _ Hc') as (info & Hinfo & Hsecs & Htime).
        exists info. split; [done|]. by rewrite Hsecs.
      * apply last_None in Hc'.
        assert (c ∈ filter (λ c0, conversation_id c0 = conversation_id c) kept) as Hin
          by (by apply list_elem_of_filter).
        rewrite Hc' in Hin. by apply elem_of_nil in Hin.
    + intros id info. apply (built_records (H := host) _ _ _ _ _ _ _ Hbuild).
  - intros c info Hinfo Hsecs.
    apply (conversation_info_of_id (H := utc_host)) in Hinfo as (_ & _ & Htime).
    rewrite Hsecs in *. split; [|reflexivity].
    vm_compute in Htime. by simplify_eq.
Qed.

Lemma call_duration_timestamp_is_unix_to_time_witness :
  ∃ cls' self' info,
    build (H := utc_host) two_pages class_body init = Some (cls', self')
    ∧ get_all_conversations_info cls' !! "conv_1" = Some info
    ∧ info_call_duration_secs info = 125
    ∧ info_call_duration_timestamp info = "00:02:05".
Proof.
  destruct two_pages_build as [[cls' self'] Hbuild].
  destruct (proj1 (proj2 call_duration_timestamp_is_unix_to_time)
              utc_host _ _ _ _ _ Hbuild) as (_ & Hlast & _).
  destruct (Hlast "conv_1" (conversation "conv_1" "agent_1" "María ES" 1760659200 125))
    as (info & Hinfo & Hsecs & Htime).
  { vm_compute. reflexivity. }
  exists cls', self', info. split; [done|]. split; [done|]. split; [done|].
  vm_compute in Htime. injection Htime as Htime. exact (eq_sym Htime).
Defined.

End AggregatorFacts.

(** ** The enricher's dynamic variables *)

Module EnricherFacts.
Import ConversationDownloader.

(** The keys [process_dynamic_variables] removes. *)
Definition dropped (key : string) : bool :=
  Str.startswith "system" key
  || String.eqb key "email" || String.eqb key "phone"
  || String.eqb key "secret_user_id" || String.eqb key "secret_object_id".

Lemma dropped_spec (key : string) :
  dropped key = true
  ↔ Str.startswith "system" key = true
    ∨ key = "email" ∨ key = "phone"
    ∨ key = "secret_user_id" ∨ key = "secret_object_id".
Proof.
  unfold dropped. rewrite !orb_true_iff, !String.eqb_eq. tauto.
Qed.

(** One pass of the loop on a key the dict still has: no [KeyError], and
    the key goes exactly when it is one of the dropped ones. *)
Lemma drop_key_present (d : gmap string PyValue) (key : string) :
  is_Some (d !! key) →
  drop_key d key = Some (if dropped key then delete key d else d).
Proof.
  intros [v Hv]. unfold drop_key, dropped, Py.pop.
  destruct (Str.startswith "system" key) eqn:Hsys; simpl.
  - rewrite Hv. simpl.
    destruct (String.eqb_spec key "email") as [->|_]; [done|].
    destruct (String.eqb_spec key "phone") as [->|_]; [done|].
    destruct (String.eqb_spec key "secret_user_id") as [->|_]; [done|].
    destruct (String.eqb_spec key "secret_object_id") as [->|_]; [done|].
    done.
  - destruct (_ || _); [|done]. by rewrite Hv.
Qed.

Lemma drop_keys (ks : list string) (d : gmap string PyValue) :
  NoDup ks →
  (∀ k, k ∈ ks → is_Some (d !! k)) →
  Py.for_each drop_key d ks
  = Some (filter (λ kv, ¬ (kv.1 ∈ ks ∧ dropped kv.1 = true)) d).
Proof.
  revert d. induction ks as [|k ks IH]; intros d Hnd Hin.
  - simpl. f_equal. symmetry. apply map_filter_id.
    intros i x _ [Hi _]. simpl in Hi. by apply not_elem_of_nil in Hi.
  - apply NoDup_cons in Hnd as [Hk Hnd].
    rewrite PyFacts.for_each_cons, drop_key_present
      by (apply Hin, elem_of_cons; by left).
    simpl. rewrite IH; [|done|].
    + f_equal. apply map_eq. intros i. apply option_eq. intros x.
      rewrite !map_lookup_filter_Some. simpl. rewrite elem_of_cons.
      destruct (dropped k) eqn:Hdk.
      * rewrite lookup_delete_Some. split.
        -- intros [[Hne Hx] Hno]. split; [done|].
           intros [[->|Hi] Hd]; [done|]. by apply Hno.
        -- intros [Hx Hno]. split; [split; [|done]|].
           ++ intros <-. apply Hno. split; [by left|done].
           ++ intros [Hi Hd]. apply Hno. split; [by right|done].
      * split.
        -- intros [Hx Hno]. split; [done|].
           intros [[->|Hi] Hd]; [congruence|]. by apply Hno.
        -- intros [Hx Hno]. split; [done|].
           intros [Hi Hd]. apply Hno. split; [by right|done].
    + intros k' Hk'.
      assert (k' ≠ k) as Hne by (intros ->; done).
      destruct (Hin k') as [x Hx]; [apply elem_of_cons; by right|].
      destruct (dropped k); [|by eexists].
      exists x. by rewrite lookup_delete_ne.
Qed.

(** C5.  [process_dynamic_variables] never raises on a present mapping
    and returns it without the keys that start with "system" and without
    [email], [phone], [secret_user_id] and [secret_object_id], every other
    entry as it was; on the mapping of the example the result is
    [{other: "v"}]. *)
Theorem dynamic_variables_filtered :
  (∀ variables,
     process_dynamic_variables
       {| conversation_initiation_client_data :=
            Some {| dynamic_variables := Some variables |} |}
     = Some (filter (λ kv, dropped kv.1 = false) variables))
  ∧ (∀ key, dropped key = true
            ↔ Str.startswith "system" key = true
              ∨ key = "email" ∨ key = "phone"
              ∨ key = "secret_user_id" ∨ key = "secret_object_id")
  ∧ process_dynamic_variables
      {| conversation_initiation_client_data :=
           Some {| dynamic_variables :=
                     Some (<["system_x" := PyInt 1]>
                             (<["email" := PyStr "a@b.com"]>
                                (<["phone" := PyStr "123"]>
                                   (<["secret_user_id" := PyStr "u1"]>
                                      (<["other" := PyStr "v"]> ∅))))) |} |}
    = Some (<["other" := PyStr "v"]> ∅).
Proof.
  assert (∀ variables,
     process_dynamic_variables
       {| conversation_initiation_client_data :=
            Some {| dynamic_variables := Some variables |} |}
     = Some (filter (λ kv, dropped kv.1 = false) variables)) as Hgeneral.
  { intros variables. unfold process_dynamic_variables. simpl.
    rewrite drop_keys.
    - f_equal. apply map_filter_ext. intros i x Hx. simpl. split.
      + intros Hno. destruct (dropped i) eqn:Hd; [|done].
        exfalso. apply Hno. split; [|done].
        unfold Py.keys. apply list_elem_of_fmap. exists (i, x).
        split; [done|]. by apply elem_of_map_to_list.
      + intros Hd [_ Hd']. congruence.
    - apply NoDup_fst_map_to_list.
    - intros k Hk. unfold Py.keys in Hk.
      apply list_elem_of_fmap in Hk as ([k' x] & -> & Hx).
      apply elem_of_map_to_list in Hx. by eexists. }
  split; [done|]. split; [apply dropped_spec|].
  rewrite Hgeneral. vm_compute. reflexivity.
Qed.

End EnricherFacts.

(** ** The bulk updater *)

Module UpdaterFacts.
Import Enums AgentConnection DataCollectionUpdater.

(** [agent.platform_settings.data_collection] of the cached agent. *)
Definition schema (agents : gmap string Agent) (agent_id : string)
  : option (gmap string LiteralJsonSchemaProperty) :=
  agent ← agents !! agent_id;
  settings ← platform_settings agent;
  data_collection settings.

Section Configured.
Variables (self : DataCollectionUpdater.t) (name type prompt : string).
Hypothesis Hname : variable_name self = Some name.
Hypothesis Htype : variable_type self = Some type.
Hypothesis Hprompt : variable_prompt self = Some prompt.

Let definition := {| AgentConnection.type := type; description := prompt |}.

Lemma prepare_Some agents agent_id agents' pushed :
  prepare self agents agent_id = Some (agents', pushed) →
  ∃ current,
    schema agents agent_id = Some current
    ∧ pushed = <[name := definition]> current
    ∧ schema agents' agent_id = Some pushed
    ∧ ∀ other, other ≠ agent_id → schema agents' other = schema agents other.
Proof.
  unfold prepare, schema. rewrite Hname, Htype, Hprompt. intros Hprep.
  destruct (agents !! agent_id) as [agent|]; [|done]. simpl in *.
  destruct (platform_settings agent) as [settings|]; [|done]. simpl in *.
  destruct (data_collection settings) as [current|]; [|done]. simpl in *.
  simplify_eq. exists current. split; [done|]. split; [done|]. split.
  - by rewrite lookup_insert_eq.
  - intros other Hne. by rewrite lookup_insert_ne.
Qed.

Lemma prepare_returns agents agent_id :
  is_Some (schema agents agent_id) → is_Some (prepare self agents agent_id).
Proof.
  unfold prepare, schema. rewrite Hname, Htype, Hprompt. intros [current Hc].
  destruct (agents !! agent_id) as [agent|]; [|done]. simpl in *.
  destruct (platform_settings agent) as [settings|]; [|done]. simpl in *.
  destruct (data_collection settings); [|done]. by eexists.
Qed.

(** What is sent for an agent, given the schema it had before [update]. *)
Definition pushes (agents0 : gmap string Agent) (agent_id : string)
    (call : string * gmap string LiteralJsonSchemaProperty) : Prop :=
  call.1 = agent_id
  ∧ ∃ original,
      schema agents0 agent_id = Some original
      ∧ call.2 = <[name := definition]> original
      ∧ call.2 !! name = Some definition
      ∧ ∀ key, key ≠ name → call.2 !! key = original !! key.

(** The cache during the loop: every schema is the original one, with or
    without the new entry. *)
Definition touched (agents0 agents : gmap string Agent) : Prop :=
  ∀ agent_id,
    schema agents agent_id = schema agents0 agent_id
    ∨ ∃ original, schema agents0 agent_id = Some original
                  ∧ schema agents agent_id = Some (<[name := definition]> original).

Lemma update_loop_pushes api agents0 ids agents calls :
  touched agents0 agents →
  ∃ new_calls,
    run_calls (update_loop api self ids agents calls) = calls ++ new_calls
    ∧ Forall2 (pushes agents0) (take (length new_calls) ids) new_calls
    ∧ (run_completed (update_loop api self ids agents calls) = true →
       length new_calls = length ids)
    ∧ ((∀ id, id ∈ ids → is_Some (schema agents0 id)) →
       (∀ id dc, agents_update api id dc = true) →
       run_completed (update_loop api self ids agents calls) = true).
Proof.
  revert agents calls. induction ids as [|agent_id ids IH]; intros agents calls Ht.
  - exists []. simpl. rewrite app_nil_r. repeat split; done.
  - simpl. destruct (prepare self agents agent_id) as [[agents' pushed]|] eqn:Hprep.
    + destruct (prepare_Some _ _ _ _ Hprep) as (current & Hcur & -> & Hnew & Hother).
      assert (pushes agents0 agent_id (agent_id, <[name := definition]> current))
        as Hpush.
      { split; [done|]. simpl.
        destruct (Ht agent_id) as [Heq|(original & Horig & Heq)].
        - exists current. rewrite <- Heq. split; [done|]. split; [done|].
          split; [apply lookup_insert_eq|].
          intros key Hne. by rewrite lookup_insert_ne.
        - exists original. split; [done|]. rewrite Hcur in Heq. simplify_eq.
          rewrite insert_insert_eq. split; [done|].
          split; [apply lookup_insert_eq|].
          intros key Hne. by rewrite lookup_insert_ne. }
      assert (touched agents0 agents') as Ht'.
      { intros id. destruct (decide (id = agent_id)) as [->|Hne].
        - right. destruct Hpush as (_ & original & Horig & Heq & _).
          exists original. split; [done|]. simpl in Heq. by rewrite Hnew, Heq.
        - rewrite Hother by done. apply Ht. }
      destruct (agents_update api agent_id _) eqn:Hremote.
      * destruct (IH agents' (calls ++ [(agent_id, <[name := definition]> current)]) Ht')
          as (new_calls & Hcalls & Hall & Hdone & Hreturns).
        exists ((agent_id, <[name := definition]> current) :: new_calls).
        split; [by rewrite Hcalls, <- app_assoc|]. simpl.
        split; [by constructor|]. split; [intros Hc; by rewrite Hdone|].
        intros Hschemas Hremotes. apply Hreturns; [|done].
        intros id Hid. apply Hschemas, elem_of_cons. by right.
      * exists [(agent_id, <[name := definition]> current)]. simpl.
        split; [done|]. split; [constructor; [done|constructor]|].
        split; [done|].
        intros _ Hremotes. by rewrite Hremotes in Hremote.
    + exists []. simpl. rewrite app_nil_r. split; [done|]. split; [done|].
      split; [done|]. intros Hschemas _.
      assert (is_Some (prepare self agents agent_id)) as [? Hsome].
      { apply prepare_returns. destruct (Hschemas agent_id) as [s Hs].
        - apply elem_of_cons. by left.
        - destruct (Ht agent_id) as [->|(o & _ & ->)]; by eexists. }
      congruence.
Qed.

(** C9.  With the variable configured, the update calls that [update]
    issues are, in order, one for each selected agent id it gets to;
    each names that agent and sends the agent's data-collection mapping
    as it was before, the entry [name] set to the new definition and all
    other entries as they were.  A run that completes has called for
    every selected id, and the run completes when every selected agent
    has a mapping and the remote accepts every call. *)
Theorem update_pushes_merged_schema api catalog cls :
  let run := update api catalog cls self in
  let ids := selected catalog cls self in
  Forall2 (pushes (agents catalog)) (take (length (run_calls run)) ids) (run_calls run)
  ∧ (run_completed run = true → length (run_calls run) = length ids)
  ∧ ((∀ id, id ∈ ids → is_Some (schema (agents catalog) id)) →
     (∀ id dc, agents_update api id dc = true) →
     run_completed run = true).
Proof.
  intros run ids. unfold run, update. fold ids.
  destruct (update_loop_pushes api (agents catalog) ids (agents catalog) [])
    as (new_calls & Hcalls & Hall & Hdone & Hreturns); [by left|].
  simpl in Hcalls. rewrite Hcalls. done.
Qed.

End Configured.

End UpdaterFacts.

(** *** A configured updater over two cached agents *)

Module UpdaterExample.
Import Enums AgentConnection DataCollectionUpdater.

Definition cached (agent_id : string) : Agent :=
  {| agent_id := agent_id; name := agent_id;
     platform_settings :=
       Some {| data_collection := Some (CatalogFacts.schema_of agent_id) |} |}.

Definition catalog : AgentConnection.Class :=
  {| agents := <["agent_1" := cached "agent_1"]> (<["agent_2" := cached "agent_2"]> ∅);
     agents_ids := ["agent_1"; "agent_2"] |}.

Definition prompt : string := "Indica True si se ha hablado de agendar una demo.".

Definition updater : DataCollectionUpdater.t :=
  set_all_agents
    (set_variable_prompt prompt
       (set_variable_type BOOLEAN
          (set_variable_name "demoVerbalizada"
             {| connection :=
                  {| agent_groups_ids := AgentGroupSelector.generate_dictionary_keys |};
                variable_name := None; variable_type := None;
                variable_prompt := None; all_agents := false |}))).

Lemma update_pushes_merged_schema_witness :
  let run :=
    update CatalogFacts.three_agents catalog DataCollectionUpdater.class_body updater in
  run_completed run = true ∧ length (run_calls run) = 2%nat.
Proof.
  destruct (UpdaterFacts.update_pushes_merged_schema updater
              "demoVerbalizada" "boolean" prompt eq_refl eq_refl eq_refl
              CatalogFacts.three_agents catalog DataCollectionUpdater.class_body)
    as (Hpushes & Hdone & Hreturns).
  assert (run_completed
            (update CatalogFacts.three_agents catalog
               DataCollectionUpdater.class_body updater) = true) as Hcompleted.
  { apply Hreturns; [|done]. apply Forall_forall.
    repeat constructor; vm_compute; by eexists. }
  split; [exact Hcompleted | exact (Hdone Hcompleted)].
Defined.

(** What is sent for the first agent: the entry it had, and the new one. *)
Lemma first_call :
  head (run_calls
          (update CatalogFacts.three_agents catalog
             DataCollectionUpdater.class_body updater))
  = Some ("agent_1",
          <["demoVerbalizada" := {| type := "boolean"; description := prompt |}]>
            (CatalogFacts.schema_of "agent_1")).
Proof. vm_compute. reflexivity. Qed.

End UpdaterExample.

(** ** Instances and the objects of the class body *)

Module SharingFacts.
Import Enums.

(** [self.accepted_agent_ids] and [self.conversation_ids]: no method binds
    these attributes on the instance, so the lookup through any instance
    ends at the object of the class body. *)
Definition accepted_agent_ids_of (cls : ConversationConnection.Class)
    (self : ConversationConnection.t) : list string :=
  ConversationConnection.accepted_agent_ids cls.

Definition conversation_ids_of (cls : ConversationConnection.Class)
    (self : ConversationConnection.t) : list string :=
  ConversationConnection.get_all_conversation_ids cls.

(** Two aggregators, [a = ConversationConnection()] and
    [b = ConversationConnection()], and nothing else done yet. *)
Definition a : ConversationConnection.t := ConversationConnection.init.
Definition b : ConversationConnection.t := ConversationConnection.init.

(** [a.set_accepted_agent_ids(["agent_1"])] *)
Definition after_a_accepts : ConversationConnection.Class :=
  ConversationConnection.set_accepted_agent_ids ["agent_1"]
    ConversationConnection.class_body.

(** [a.build()] then [b.build()], neither with a filter, the remote
    answering [two_pages] both times; the ids seen through [b]. *)
Definition ids_after_both_build : option (list string) :=
  '(cls, a') ← ConversationConnection.build (H := utc_host)
                 AggregatorFacts.two_pages ConversationConnection.class_body a;
  '(cls, b') ← ConversationConnection.build (H := utc_host)
                 AggregatorFacts.two_pages cls b;
  Some (conversation_ids_of cls b').

(** [a.build()] alone; what [b] then answers for its ids and for a group. *)
Definition b_after_a_builds : option (list string * option (list string)) :=
  '(cls, a') ← ConversationConnection.build (H := utc_host)
                 AggregatorFacts.two_pages ConversationConnection.class_body a;
  Some (conversation_ids_of cls b,
        ConversationConnection.get_conversation_ids_from_agent_group b MARIA).

(** [b.build()] after [a.set_accepted_agent_ids(["agent_1"])]. *)
Definition b_builds_after_a_accepts : option (list string) :=
  '(cls, b') ← ConversationConnection.build (H := utc_host)
                 AggregatorFacts.two_pages after_a_accepts b;
  Some (conversation_ids_of cls b').

(** Two updaters, [u = DataCollectionUpdater()] and
    [v = DataCollectionUpdater()], then [u.set_agent_group(MARIA)]: the
    catalog's list of all ids, and the ids selected as seen through [v]. *)
Definition v_after_u_selects : option (list string * list string) :=
  '(catalog, u) ← DataCollectionUpdater.init (H := utc_host)
                    CatalogFacts.three_agents AgentConnection.class_body;
  '(catalog, v) ← DataCollectionUpdater.init (H := utc_host)
                    CatalogFacts.three_agents catalog;
  '(catalog, cls) ← DataCollectionUpdater.set_agent_group MARIA catalog
                      DataCollectionUpdater.class_body u;
  Some (AgentConnection.get_all_agent_ids catalog,
        DataCollectionUpdater.selected catalog cls v).

(** C1, on the code.  The containers of the class bodies are shared by
    the instances: ids accepted through [a] are the accepted ids of [b]
    and filter the build of [b]; conversations built through [a] are the
    conversations of [b], and a build through [b] adds to them; a second
    catalog repeats every id in the one list of agent ids; agents selected
    through one updater are selected in the other.  Only the per-group
    dict, which [build] binds on the instance, stays with [a]. *)
Theorem class_body_containers_shared :
  accepted_agent_ids_of ConversationConnection.class_body b = []
  ∧ accepted_agent_ids_of after_a_accepts b = ["agent_1"]
  ∧ b_builds_after_a_accepts = Some ["conv_1"; "conv_3"]
  ∧ b_after_a_builds = Some (["conv_1"; "conv_2"; "conv_3"; "conv_4"], None)
  ∧ ids_after_both_build
    = Some ["conv_1"; "conv_2"; "conv_3"; "conv_4";
            "conv_1"; "conv_2"; "conv_3"; "conv_4"]
  ∧ v_after_u_selects
    = Some (["agent_1"; "agent_2"; "agent_3"; "agent_1"; "agent_2"; "agent_3"],
            ["agent_1"]).
Proof. repeat split; vm_compute; reflexivity. Qed.

End SharingFacts.


(** * Further properties of the code *)

(** ** The classifier and the group dict *)

Module ClassifierProps.
Import Enums AgentGroupSelector.

Section WithHost.
Context `{Host}.

(** X1.  The classifier never gives a group twice, gives three groups at
    most, never gives ELENA_AFFA together with ELENA_NOAFFA, and gives OTHER
    only on its own. *)
Theorem groups_distinct_and_exclusive (agent_name : string) :
  NoDup (get_agent_groups agent_name)
  ∧ (length (get_agent_groups agent_name) ≤ 3)%nat
  ∧ ¬ (ELENA_AFFA ∈ get_agent_groups agent_name
       ∧ ELENA_NOAFFA ∈ get_agent_groups agent_name)
  ∧ (OTHER ∈ get_agent_groups agent_name → get_agent_groups agent_name = [OTHER]).
Proof.
  split; [apply ClassifierFacts.get_agent_groups_NoDup|].
  destruct (ClassifierFacts.get_agent_groups_cases agent_name) as [He|Hr].
  - rewrite (ClassifierFacts.elena_groups _ He).
    destruct (Str.contains "affa" _), (Str.contains "noaffa" _),
      (Str.contains "banner" _); simpl;
      rewrite ?elem_of_cons, ?elem_of_nil;
      (split; [lia|]); (split; [intuition congruence|]); intuition congruence.
  - destruct Hr as [-> | [-> | [-> | ->]]]; simpl;
      rewrite ?elem_of_cons, ?elem_of_nil;
      (split; [lia|]); (split; [intuition congruence|]); intuition congruence.
Qed.

(** X2.  The first family that matches wins.  With "elena" in the lowered
    name every group is of the Elena family and ELENA comes first, whatever
    else the name has; without it "maría" or "maria" gives MARIA alone, then
    "coach" gives COACH alone, then "artesan" gives ARTESAN alone: the words
    "affa", "noaffa" and "banner" count for nothing outside the Elena
    family. *)
Theorem first_family_wins (agent_name : string) :
  (Str.contains "elena" (lower agent_name) = true →
   head (get_agent_groups agent_name) = Some ELENA
   ∧ ∀ g, g ∈ get_agent_groups agent_name →
          g ∈ [ELENA; ELENA_AFFA; ELENA_NOAFFA; ELENA_BANNER])
  ∧ (Str.contains "elena" (lower agent_name) = false →
     Str.contains "maría" (lower agent_name) = true
     ∨ Str.contains "maria" (lower agent_name) = true →
     get_agent_groups agent_name = [MARIA])
  ∧ (Str.contains "elena" (lower agent_name) = false →
     Str.contains "maría" (lower agent_name) = false →
     Str.contains "maria" (lower agent_name) = false →
     Str.contains "coach" (lower agent_name) = true →
     get_agent_groups agent_name = [COACH])
  ∧ (Str.contains "elena" (lower agent_name) = false →
     Str.contains "maría" (lower agent_name) = false →
     Str.contains "maria" (lower agent_name) = false →
     Str.contains "coach" (lower agent_name) = false →
     Str.contains "artesan" (lower agent_name) = true →
     get_agent_groups agent_name = [ARTESAN]).
Proof.
  split; [|split; [|split]].
  - intros He. rewrite (ClassifierFacts.elena_groups _ He).
    split; [done|]. intros g.
    destruct (Str.contains "affa" _), (Str.contains "noaffa" _),
      (Str.contains "banner" _); simpl;
      rewrite ?elem_of_cons, ?elem_of_nil; intuition congruence.
  - intros He Hm. unfold get_agent_groups. rewrite He.
    by destruct Hm as [-> | ->]; [|rewrite orb_true_r].
  - intros He Hm1 Hm2 Hc. unfold get_agent_groups. by rewrite He, Hm1, Hm2, Hc.
  - intros He Hm1 Hm2 Hc Ha. unfold get_agent_groups.
    by rewrite He, Hm1, Hm2, Hc, Ha.
Qed.

Lemma get_agent_groups_as_strings_fmap (agent_name : string) :
  get_agent_groups_as_strings agent_name = value <$> get_agent_groups agent_name.
Proof.
  unfold get_agent_groups_as_strings.
  assert (∀ gs acc, foldl (λ strings group, strings ++ [value group]) acc gs
                    = acc ++ (value <$> gs)) as Hfold.
  { induction gs as [|g gs IH]; intros acc; simpl; [by rewrite app_nil_r|].
    by rewrite IH, <- app_assoc. }
  apply Hfold.
Qed.

(** X3.  The group strings of a name are the values of its groups, in the
    same order, without repetition, and each one is a key of the dict that
    [generate_dictionary_keys] makes. *)
Theorem group_strings_are_dictionary_keys (agent_name : string) :
  get_agent_groups_as_strings agent_name = value <$> get_agent_groups agent_name
  ∧ NoDup (get_agent_groups_as_strings agent_name)
  ∧ ∀ s, s ∈ get_agent_groups_as_strings agent_name →
         generate_dictionary_keys !! s = Some [].
Proof.
  rewrite get_agent_groups_as_strings_fmap. split; [done|]. split.
  - apply NoDup_fmap_2; [|apply ClassifierFacts.get_agent_groups_NoDup].
    intros g1 g2. apply GroupDictFacts.value_inj.
  - intros s Hs. apply list_elem_of_fmap in Hs as (g & -> & _).
    apply GroupDictFacts.generate_dictionary_keys_lookup.
Qed.

End WithHost.

Lemma first_family_wins_witness :
  get_agent_groups (H := utc_host) "Coach de María (banner AFFA)" = [MARIA].
Proof.
  apply (proj1 (proj2 (first_family_wins (H := utc_host)
                         "Coach de María (banner AFFA)"))).
  - reflexivity.
  - left. reflexivity.
Defined.

Lemma groups_distinct_and_exclusive_witness :
  get_agent_groups (H := utc_host) "sin nombre" = [OTHER].
Proof.
  apply (proj2 (proj2 (proj2 (groups_distinct_and_exclusive (H := utc_host)
                                "sin nombre")))).
  vm_compute. apply elem_of_cons. by left.
Defined.

(** X4.  [generate_dictionary_keys] makes a dict with exactly the values of
    the eight groups as keys, each one with an empty list. *)
Theorem dictionary_has_exactly_the_group_keys :
  (∀ g, generate_dictionary_keys !! value g = Some [])
  ∧ (∀ k l, generate_dictionary_keys !! k = Some l → l = [] ∧ ∃ g, k = value g)
  ∧ size generate_dictionary_keys = 8%nat.
Proof.
  split; [apply GroupDictFacts.generate_dictionary_keys_lookup|]. split.
  - intros k l. unfold generate_dictionary_keys. simpl.
    rewrite !lookup_insert_Some, lookup_empty.
    intros Hk. repeat (destruct Hk as [[<- <-]|[_ Hk]]; [split; [done|]|]).
    + by exists OTHER.
    + by exists COACH.
    + by exists ARTESAN.
    + by exists MARIA.
    + by exists ELENA_BANNER.
    + by exists ELENA_NOAFFA.
    + by exists ELENA_AFFA.
    + by exists ELENA.
    + done.
  - reflexivity.
Qed.

End ClassifierProps.

(** ** Times of day and dates *)

Module TimeProps.
Import TimeHelper.

(** The decimal digit [d] as a character, and a number below 100 on two
    digits. *)
Definition digit (d : Z) : ascii := ascii_of_N (48 + Z.to_N d).

Definition two_digits (n : Z) : string :=
  String (digit (n / 10)) (String (digit (n mod 10)) "").

Lemma format_02_two_digits (n : Z) :
  0 ≤ n < 100 → format_02 n = two_digits n.
Proof.
  intros Hn.
  assert (forallb (λ k, String.eqb (format_02 (Z.of_nat k)) (two_digits (Z.of_nat k)))
                  (seq 0 100) = true) as Hall by (vm_compute; reflexivity).
  rewrite forallb_forall in Hall.
  specialize (Hall (Z.to_nat n)). rewrite Z2Nat.id in Hall by lia.
  apply String.eqb_eq, Hall, in_seq. lia.
Qed.

Lemma digit_inj (d1 d2 : Z) :
  0 ≤ d1 < 10 → 0 ≤ d2 < 10 → digit d1 = digit d2 → d1 = d2.
Proof.
  intros H1 H2 Heq. unfold digit in Heq.
  apply (f_equal N_of_ascii) in Heq.
  rewrite !N_ascii_embedding in Heq by lia. lia.
Qed.

Lemma two_digits_inj (n1 n2 : Z) :
  0 ≤ n1 < 100 → 0 ≤ n2 < 100 → two_digits n1 = two_digits n2 → n1 = n2.
Proof.
  intros H1 H2 Heq. unfold two_digits in Heq. simplify_eq.
  assert (n1 / 10 = n2 / 10) by (apply digit_inj; [| |done]; Z.div_mod_to_equations; lia).
  assert (n1 mod 10 = n2 mod 10)
    by (apply digit_inj; [| |done]; Z.div_mod_to_equations; lia).
  Z.div_mod_to_equations. lia.
Qed.

(** X5.  For a duration from 0 up to 99:59 [seconds_to_timestamp] gives the
    five characters MM:SS, minutes and seconds on two digits each, and two
    such durations never get the same text. *)
Theorem seconds_to_timestamp_mm_ss (seconds : Z) :
  0 ≤ seconds < 6000 →
  seconds_to_timestamp seconds
  = (two_digits (seconds / 60) ++ ":" ++ two_digits (seconds mod 60))%string
  ∧ String.length (seconds_to_timestamp seconds) = 5%nat
  ∧ ∀ other, 0 ≤ other < 6000 →
             seconds_to_timestamp other = seconds_to_timestamp seconds →
             other = seconds.
Proof.
  intros Hs.
  assert (∀ s, 0 ≤ s < 6000 →
            seconds_to_timestamp s
            = (two_digits (s / 60) ++ ":" ++ two_digits (s mod 60))%string) as Hshape.
  { intros s Hrange. unfold seconds_to_timestamp.
    rewrite !format_02_two_digits by (Z.div_mod_to_equations; lia). done. }
  split; [by apply Hshape|]. split; [by rewrite Hshape|].
  intros other Ho Heq. rewrite !Hshape in Heq by done.
  unfold two_digits in Heq. rewrite !StrFacts.app_String in Heq.
  injection Heq as Hm1 Hm2 Hs1 Hs2.
  assert (other / 60 = seconds / 60) as Hmin.
  { apply two_digits_inj; [Z.div_mod_to_equations; lia..|].
    unfold two_digits. by rewrite Hm1, Hm2. }
  assert (other mod 60 = seconds mod 60) as Hsec.
  { apply two_digits_inj; [Z.div_mod_to_equations; lia..|].
    unfold two_digits. by rewrite Hs1, Hs2. }
  Z.div_mod_to_equations. lia.
Qed.

Lemma seconds_to_timestamp_mm_ss_witness :
  seconds_to_timestamp 5999 = "99:59".
Proof.
  rewrite (proj1 (seconds_to_timestamp_mm_ss 5999 ltac:(lia))). reflexivity.
Defined.

Section WithHost.
Context `{Host}.

Lemma unix_to_date_fromtimestamp (ts : Z) :
  unix_to_date ts = date_of <$> fromtimestamp ts.
Proof. unfold unix_to_date. by destruct (fromtimestamp ts). Qed.

Lemma unix_to_time_fromtimestamp (ts : Z) :
  unix_to_time ts = strftime_HMS <$> fromtimestamp ts.
Proof. unfold unix_to_time. by destruct (fromtimestamp ts). Qed.

(** X6.  [unix_to_time] answers exactly when [unix_to_date] does, and its
    answer is the eight characters HH:MM:SS of the local time of day, hours
    below 24 and minutes and seconds below 60, each on two digits. *)
Theorem unix_to_time_hh_mm_ss (ts : Z) :
  (is_Some (unix_to_time ts) ↔ is_Some (unix_to_date ts))
  ∧ ∀ text, unix_to_time ts = Some text →
      ∃ hh mm ss,
        0 ≤ hh < 24 ∧ 0 ≤ mm < 60 ∧ 0 ≤ ss < 60
        ∧ (ts + utcoffset ts) mod 86400 = hh * 3600 + mm * 60 + ss
        ∧ text = (two_digits hh ++ ":" ++ two_digits mm ++ ":" ++ two_digits ss)%string
        ∧ String.length text = 8%nat.
Proof.
  rewrite unix_to_time_fromtimestamp, unix_to_date_fromtimestamp. split.
  - by rewrite !fmap_is_Some.
  - intros text Htext.
    destruct (fromtimestamp ts) as [dt|] eqn:Hdt; [|done].
    apply TimeFacts.fromtimestamp_local in Hdt. subst dt.
    simpl in Htext. simplify_eq. unfold strftime_HMS, second_of_day.
    set (s := (ts + utcoffset ts) mod 86400).
    assert (0 ≤ s < 86400) as Hs by (unfold s; Z.div_mod_to_equations; lia).
    exists (s / 3600), (s / 60 mod 60), (s mod 60).
    repeat (split; [Z.div_mod_to_equations; lia|]).
    rewrite !format_02_two_digits by (Z.div_mod_to_equations; lia).
    done.
Qed.

End WithHost.

Lemma unix_to_time_hh_mm_ss_witness :
  unix_to_time (H := apia_host) 1760659200 = Some "13:00:00".
Proof.
  destruct (unix_to_time (H := apia_host) 1760659200) as [text|] eqn:Htext.
  - destruct (proj2 (unix_to_time_hh_mm_ss (H := apia_host) 1760659200) text Htext)
      as (hh & mm & ss & _ & _ & _ & _ & _ & _).
    vm_compute in Htext. by simplify_eq.
  - exfalso. vm_compute in Htext. discriminate Htext.
Defined.

End TimeProps.

(** ** Dates on a host at a fixed offset from UTC *)

Module DateProps.
Import TimeHelper.

Lemma date_of_shift (dt : Z) : date_of (dt - 86400) = date_of dt - 1.
Proof. unfold date_of. Z.div_mod_to_equations. lia. Qed.

Lemma date_of_bounds (dt : Z) :
  combine_midnight (date_of dt) ≤ dt < combine_midnight (date_of dt) + 86400.
Proof. unfold combine_midnight, date_of. Z.div_mod_to_equations. lia. Qed.

Section FixedOffset.
Context `{Host}.
Variable c : Z.
Hypothesis Hfixed : ∀ u, utcoffset u = c.

Lemma local_fixed (u : Z) :
  local u = if year_in_range (u + c) then Some (u + c) else None.
Proof. unfold local. by rewrite Hfixed. Qed.

Lemma year_in_range_true (dt : Z) :
  year_in_range dt = true ↔ MINORDINAL ≤ date_of dt ≤ MAXORDINAL.
Proof. unfold year_in_range. rewrite andb_true_iff, !Z.leb_le. done. Qed.

Lemma fromtimestamp_fixed (ts : Z) :
  fromtimestamp ts
  = if decide (MINORDINAL < date_of (ts + c) ≤ MAXORDINAL)
    then Some (ts + c) else None.
Proof.
  unfold fromtimestamp. rewrite !local_fixed.
  replace (ts - max_fold_seconds + c) with (ts + c - 86400)
    by (unfold max_fold_seconds; lia).
  destruct (year_in_range (ts + c)) eqn:Hnow; simpl.
  - apply year_in_range_true in Hnow.
    destruct (year_in_range (ts + c - 86400)) eqn:Hprobe; simpl.
    + apply year_in_range_true in Hprobe. rewrite date_of_shift in Hprobe.
      replace (ts + c - (ts + c - 86400) - max_fold_seconds) with 0
        by (unfold max_fold_seconds; lia).
      simpl. rewrite decide_True; [done|lia].
    + rewrite decide_False; [done|]. intros Hd.
      assert (year_in_range (ts + c - 86400) = true); [|congruence].
      apply year_in_range_true. rewrite date_of_shift.
      unfold MINORDINAL, MAXORDINAL in *. lia.
  - rewrite decide_False; [done|]. intros Hd.
    assert (year_in_range (ts + c) = true); [|congruence].
    apply year_in_range_true. lia.
Qed.

Lemma date_to_unix_fixed (d : Z) :
  -86400 < c < 86400 →
  MINORDINAL < d ≤ MAXORDINAL →
  date_to_unix d = Some (combine_midnight d - c).
Proof.
  intros Hc Hd. unfold date_to_unix, mktime. set (t := combine_midnight d).
  assert (date_of t = d) as Ht.
  { pose proof (TimeFacts.date_of_midnight d 0) as Hm.
    rewrite Z.add_0_r in Hm. apply Hm. lia. }
  assert (year_in_range (t + c) = true) as H1.
  { apply year_in_range_true. destruct (Z_lt_le_dec c 0).
    - unfold t. rewrite TimeFacts.date_of_before_midnight by lia.
      unfold MINORDINAL, MAXORDINAL in *. lia.
    - unfold t. rewrite TimeFacts.date_of_midnight by lia.
      unfold MINORDINAL, MAXORDINAL in *. lia. }
  assert (year_in_range t = true) as H2.
  { apply year_in_range_true. rewrite Ht. lia. }
  assert (year_in_range (t - 86400) = true) as H3.
  { apply year_in_range_true. rewrite date_of_shift, Ht.
    unfold MINORDINAL, MAXORDINAL in *. lia. }
  assert (local t = Some (t + c)) as L1 by (by rewrite local_fixed, H1).
  assert (local (t - c) = Some t) as L2.
  { rewrite local_fixed. replace (t - c + c) with t by lia. by rewrite H2. }
  assert (local (t - c - max_fold_seconds) = Some (t - max_fold_seconds)) as L3.
  { rewrite local_fixed.
    replace (t - c - max_fold_seconds + c) with (t - 86400)
      by (unfold max_fold_seconds; lia).
    rewrite H3. done. }
  rewrite L1. simpl.
  replace (t - (t + c - t)) with (t - c) by lia.
  rewrite L2. simpl. rewrite Z.eqb_refl. rewrite L3. simpl.
  replace (t - max_fold_seconds - (t - c - max_fold_seconds)) with c by lia.
  replace (t + c - t) with c by lia. by rewrite Z.eqb_refl.
Qed.

(** X7.  On a host at a fixed offset [c] from UTC, [unix_to_date] gives the
    local date of the instant, and raises exactly when that date is not
    from 0001-01-02 to 9999-12-31: the first day of the calendar is refused
    along with the instants outside it. *)
Theorem unix_to_date_fixed_offset (ts : Z) :
  unix_to_date ts
  = if decide (MINORDINAL < date_of (ts + c) ≤ MAXORDINAL)
    then Some (date_of (ts + c)) else None.
Proof.
  unfold unix_to_date. rewrite fromtimestamp_fixed. by case_decide.
Qed.

(** X8.  On a host at a fixed offset of less than a day, whenever
    [unix_to_date ts] is a date [d], [date_to_unix d] is the instant of the
    local midnight that opens the day of [ts]: it is at most [ts], less than
    86400 seconds before it, and [unix_to_date] takes it to [d] again. *)
Theorem date_to_unix_floors_to_midnight (ts d : Z) :
  -86400 < c < 86400 →
  unix_to_date ts = Some d →
  ∃ u, date_to_unix d = Some u
       ∧ u ≤ ts < u + 86400
       ∧ unix_to_date u = Some d.
Proof.
  intros Hc. rewrite unix_to_date_fixed_offset. case_decide as Hd; [|done].
  intros Heq. simplify_eq. exists (combine_midnight (date_of (ts + c)) - c).
  split; [by apply date_to_unix_fixed|].
  pose proof (date_of_bounds (ts + c)) as Hb. split; [lia|].
  rewrite unix_to_date_fixed_offset.
  replace (combine_midnight (date_of (ts + c)) - c + c)
    with (combine_midnight (date_of (ts + c)) + 0) by lia.
  rewrite TimeFacts.date_of_midnight by lia. by rewrite decide_True.
Qed.

End FixedOffset.

Lemma unix_to_date_fixed_offset_witness :
  unix_to_date (H := utc_host) (-62135596800) = None
  ∧ unix_to_date (H := utc_host) (-62135510400) = Some (ymd2ord 1 1 2)
  ∧ unix_to_date (H := utc_host) 253402300800 = None.
Proof.
  rewrite !(unix_to_date_fixed_offset (H := utc_host) 0 (λ _, eq_refl)).
  repeat split.
Defined.

Lemma date_to_unix_floors_to_midnight_witness :
  ∃ u, date_to_unix (H := utc_host) (ymd2ord 2025 10 17) = Some u
       ∧ u ≤ 1760700000 < u + 86400.
Proof.
  destruct (date_to_unix_floors_to_midnight (H := utc_host) 0 (λ _, eq_refl)
              1760700000 (ymd2ord 2025 10 17)) as (u & Hu & Hrange & _).
  - lia.
  - reflexivity.
  - exists u. split; [exact Hu | exact Hrange].
Defined.

End DateProps.

(** ** The agent catalog *)

Module CatalogProps.
Import Enums AgentGroupSelector AgentConnection.

Section WithHost.
Context `{Host}.

Lemma get_agent_groups_nonempty (agent_name : string) :
  ∃ g, g ∈ get_agent_groups agent_name.
Proof.
  destruct (ClassifierFacts.get_agent_groups_cases agent_name) as [He|Hr].
  - exists ELENA. rewrite (ClassifierFacts.elena_groups _ He).
    apply elem_of_cons. by left.
  - destruct Hr as [-> | [-> | [-> | ->]]]; eexists; apply elem_of_cons; by left.
Qed.

Lemma add_agent_step (api : Api) cls d (id name : string) :
  (∀ g, is_Some (d !! value g)) →
  match agents_get api id with
  | None => add_agent api (cls, d) (id, name) = None
  | Some agent_info =>
      ∃ d0, add_agent api (cls, d) (id, name)
            = Some ({| agents := <[id := agent_info]> (agents cls);
                       agents_ids := agents_ids cls ++ [id] |}, d0)
            ∧ ∀ g, is_Some (d0 !! value g)
  end.
Proof.
  intros Hall. unfold add_agent.
  destruct (agents_get api id) as [agent_info|]; [|done]. simpl.
  destruct (GroupDictFacts.append_to_groups id (get_agent_groups name) d)
    as (d0 & -> & Hlook); [apply ClassifierFacts.get_agent_groups_NoDup|done|].
  simpl. exists d0. split; [done|].
  intros g. rewrite Hlook. destruct (Hall g) as [l ->]. by eexists.
Qed.

(** The loop of [__init__] runs to its end exactly when every [agents.get]
    answers; the dict of agents then has the answer for each listed id. *)
Lemma add_agents_agents (api : Api) (response : list (string * string)) cls d :
  (∀ g, is_Some (d !! value g)) →
  match Py.for_each (add_agent api) (cls, d) response with
  | Some (cls', d') =>
      (∀ a, a ∈ response → is_Some (agents_get api a.1))
      ∧ ∀ id, agents cls' !! id
              = if decide (id ∈ response.*1) then agents_get api id
                else agents cls !! id
  | None => ∃ a, a ∈ response ∧ agents_get api a.1 = None
  end.
Proof.
  revert cls d. induction response as [|[id name] response IH]; intros cls d Hall.
  - simpl. split; [by intros a Ha%elem_of_nil|done].
  - rewrite PyFacts.for_each_cons.
    pose proof (add_agent_step api cls d id name Hall) as Hstep.
    destruct (agents_get api id) as [agent_info|] eqn:Hget.
    + destruct Hstep as (d0 & -> & Hall0). simpl.
      specialize (IH {| agents := <[id := agent_info]> (agents cls);
                        agents_ids := agents_ids cls ++ [id] |} d0 Hall0).
      destruct (Py.for_each _ _ response) as [[cls' d']|].
      * destruct IH as [Hgets Hagents]. split.
        -- intros a [->|Ha]%elem_of_cons; [simpl; by rewrite Hget|by apply Hgets].
        -- intros id'. rewrite Hagents. simpl.
           destruct (decide (id' ∈ response.*1)).
           ++ by rewrite decide_True by (apply elem_of_cons; by right).
           ++ destruct (decide (id' = id)) as [->|Hne].
              ** rewrite decide_True by (apply elem_of_cons; by left).
                 by rewrite lookup_insert_eq.
              ** rewrite decide_False by (rewrite elem_of_cons; by intros [?|?]).
                 by rewrite lookup_insert_ne.
      * destruct IH as (a & Ha & Hnone).
        exists a. split; [apply elem_of_cons; by right|done].
    + rewrite Hstep. simpl.
      exists (id, name). split; [apply elem_of_cons; by left|done].
Qed.

(** X9.  After its construction the catalog has, for each group, the ids of
    the listed agents whose name carries the group, in the order of the
    listing; every listed agent is under one group at least; and the list
    of all agent ids is the one the class had, followed by the listed
    ids. *)
Theorem catalog_group_index (api : Api) catalog catalog' connection :
  init api catalog = Some (catalog', connection) →
  ∃ response,
    agents_list api = Some response
    ∧ (∀ g, get_agent_group_ids connection g
            = Some (fst <$> filter (λ a, g ∈ get_agent_groups a.2) response))
    ∧ (∀ a, a ∈ response →
            ∃ g ids, get_agent_group_ids connection g = Some ids ∧ a.1 ∈ ids)
    ∧ get_all_agent_ids catalog' = get_all_agent_ids catalog ++ (fst <$> response).
Proof.
  intros Hinit.
  destruct (CatalogFacts.init_groups _ _ _ _ Hinit) as (response & Hlist & Hg & Hids).
  exists response. split; [done|]. split; [done|]. split; [|done].
  intros a Ha. destruct (get_agent_groups_nonempty a.2) as [g Hin].
  exists g, (fst <$> filter (λ a, g ∈ get_agent_groups a.2) response).
  split; [apply Hg|]. apply list_elem_of_fmap. exists a. split; [done|].
  by apply list_elem_of_filter.
Qed.

(** X10.  After its construction the catalog answers [get_agent] for a
    listed id with what [agents.get] answered for that id, and for any other
    id with what the class had before ([None] on a fresh class). *)
Theorem catalog_get_agent (api : Api) catalog catalog' connection :
  init api catalog = Some (catalog', connection) →
  ∃ response,
    agents_list api = Some response
    ∧ ∀ id, get_agent catalog' id
            = if decide (id ∈ response.*1) then agents_get api id
              else get_agent catalog id.
Proof.
  unfold init. intros Hinit.
  destruct (agents_list api) as [response|]; [|done]. simpl in Hinit.
  pose proof (add_agents_agents api response catalog generate_dictionary_keys) as Hloop.
  destruct (Py.for_each _ _ response) as [[cls1 d1]|]; [|done].
  simpl in Hinit. simplify_eq. exists response. split; [done|].
  apply Hloop. intros g. rewrite GroupDictFacts.generate_dictionary_keys_lookup.
  by eexists.
Qed.

(** X11.  The construction of the catalog succeeds exactly when the
    listing answers and [agents.get] answers for every listed agent: one
    failure and there is no catalog. *)
Theorem catalog_all_or_nothing (api : Api) catalog :
  is_Some (init api catalog)
  ↔ ∃ response, agents_list api = Some response
                ∧ ∀ a, a ∈ response → is_Some (agents_get api a.1).
Proof.
  unfold init. destruct (agents_list api) as [response|]; simpl.
  - pose proof (add_agents_agents api response catalog generate_dictionary_keys) as Hloop.
    destruct (Py.for_each _ _ response) as [[cls1 d1]|]; simpl.
    + split; [|by eexists]. intros _. exists response. split; [done|].
      apply Hloop. intros g. rewrite GroupDictFacts.generate_dictionary_keys_lookup.
      by eexists.
    + split; [by intros [? ?]|]. intros (r & Hr & Hgets). simplify_eq.
      destruct Hloop as (a & Ha & Hnone).
      { intros g. rewrite GroupDictFacts.generate_dictionary_keys_lookup. by eexists. }
      destruct (Hgets a Ha) as [? ?]. congruence.
  - split; [by intros [? ?]|]. by intros (r & Hr & _).
Qed.

End WithHost.

Lemma three_agents_catalog :
  is_Some (init (H := utc_host) CatalogFacts.three_agents class_body).
Proof. apply catalog_all_or_nothing. eexists. split; [done|]. by eexists. Qed.

Lemma catalog_group_index_witness :
  ∃ catalog' connection,
    init (H := utc_host) CatalogFacts.three_agents class_body
    = Some (catalog', connection)
    ∧ get_agent_group_ids connection ELENA_BANNER = Some ["agent_2"]
    ∧ get_all_agent_ids catalog' = ["agent_1"; "agent_2"; "agent_3"].
Proof.
  destruct (init (H := utc_host) CatalogFacts.three_agents class_body)
    as [[catalog' connection]|] eqn:Hinit.
  - exists catalog', connection. split; [reflexivity|].
    destruct (catalog_group_index (H := utc_host) _ _ _ _ Hinit)
      as (response & Hlist & Hgroups & _ & Hids).
    simpl in Hlist. injection Hlist as <-. split.
    + etrans; [apply Hgroups | vm_compute; reflexivity].
    + etrans; [apply Hids | vm_compute; reflexivity].
  - exfalso. vm_compute in Hinit. discriminate Hinit.
Defined.

Lemma catalog_get_agent_witness :
  ∃ catalog' connection,
    init (H := utc_host) CatalogFacts.three_agents class_body
    = Some (catalog', connection)
    ∧ get_agent catalog' "agent_7" = None
    ∧ is_Some (get_agent catalog' "agent_2").
Proof.
  destruct (init (H := utc_host) CatalogFacts.three_agents class_body)
    as [[catalog' connection]|] eqn:Hinit.
  - exists catalog', connection. split; [reflexivity|].
    destruct (catalog_get_agent (H := utc_host) _ _ _ _ Hinit)
      as (response & Hlist & Hget).
    simpl in Hlist. injection Hlist as <-.
    rewrite !Hget. split; [reflexivity|]. vm_compute. by eexists.
  - exfalso. vm_compute in Hinit. discriminate Hinit.
Defined.

End CatalogProps.

(** ** More on the aggregator *)

Module AggregatorProps.
Import Enums AgentGroupSelector ConversationConnection AggregatorFacts.

Section WithHost.
Context `{Host}.

Lemma build_pages_complete pages cursor st st' :
  build_pages pages cursor st = Some st' → complete pages = true.
Proof.
  revert cursor st. induction pages as [|response pages IH]; intros cursor st;
    [done|].
  simpl. destruct (Py.for_each _ _ _) as [st1|]; [|done]. simpl.
  destruct (has_more response); [apply IH|done].
Qed.

(** X12.  [build] returns exactly when the listing comes to a page that
    says there is no more, and the date and the two times of day can be
    computed for every conversation that passes the filter; conversations
    the filter rejects cannot make it fail. *)
Theorem build_returns_iff pages cls self :
  is_Some (build pages cls self)
  ↔ complete pages = true
    ∧ Forall (λ c, is_Some (conversation_info_of c))
             (indexed (accepted_agent_ids cls) (received pages)).
Proof.
  split.
  - intros [[cls' self'] Hbuild]. split.
    + unfold build in Hbuild.
      destruct (build_pages pages None _) as [st|] eqn:Hpages; [|done].
      by apply build_pages_complete in Hpages.
    + by destruct (build_Recorded _ _ _ _ _ Hbuild) as (g & _ & Hall & _).
  - intros [Hc Hall]. by apply build_returns.
Qed.

(** X13.  After [build] the dict of conversations has, under each id, the
    record of the last indexed conversation with that id, and what it had
    before under the other ids; every id that [build] added to the list of
    ids has its record, with that id in it. *)
Theorem records_follow_ids pages cls self cls' self' :
  build pages cls self = Some (cls', self') →
  let kept := indexed (accepted_agent_ids cls) (received pages) in
  (∀ id, get_all_conversations_info cls' !! id
         = match last (filter (λ c, conversation_id c = id) kept) with
           | Some c => conversation_info_of c
           | None => get_all_conversations_info cls !! id
           end)
  ∧ get_all_conversation_ids cls'
    = get_all_conversation_ids cls ++ (conversation_id <$> kept)
  ∧ ∀ id, id ∈ conversation_id <$> kept →
          ∃ info, get_all_conversations_info cls' !! id = Some info
                  ∧ info_conversation_id info = id.
Proof.
  intros Hbuild kept.
  destruct (build_Recorded _ _ _ _ _ Hbuild) as (g & _ & Hall & Hrec).
  destruct (build_Indexed _ _ _ _ _ Hbuild) as (g' & _ & _ & _ & Hids & _).
  split; [done|]. split; [done|].
  intros id Hid. subst kept. apply list_elem_of_fmap in Hid as (c & -> & Hc).
  unfold get_all_conversations_info. rewrite Hrec.
  set (kept := indexed (accepted_agent_ids cls) (received pages)) in *.
  destruct (last (filter (λ c0, conversation_id c0 = conversation_id c) kept))
    as [c'|] eqn:Hlast.
  - apply last_Some_elem_of in Hlast.
    apply list_elem_of_filter in Hlast as [Hsame Hc'].
    rewrite Forall_forall in Hall. destruct (Hall c' Hc') as [info Hinfo].
    exists info. split; [done|].
    destruct (conversation_info_of_id _ _ Hinfo) as (-> & _). done.
  - apply last_None in Hlast.
    assert (c ∈ filter (λ c0, conversation_id c0 = conversation_id c) kept) as Hin
      by (by apply list_elem_of_filter).
    rewrite Hlast in Hin. by apply elem_of_nil in Hin.
Qed.

Lemma indexed_nothing (accepted : list string) convs :
  accepted ≠ [] →
  (∀ c, c ∈ convs → agent_id c ∉ accepted) →
  indexed accepted convs = [].
Proof.
  intros Hne Hnone. unfold indexed.
  induction convs as [|c convs IH]; [done|].
  rewrite filter_cons, decide_False.
  - apply IH. intros c' Hc'. apply Hnone, elem_of_cons. by right.
  - rewrite skipped_false. intros [?|Hin]; [done|].
    apply (Hnone c); [apply elem_of_cons; by left|done].
Qed.

(** X14.  With a filter that no received conversation passes (accepted ids
    set, none of them the agent of a received conversation), [build] returns
    once the pages end, whatever the conversations hold; it leaves the
    records, the ids and the per-agent ids as they were, and every group of
    the instance has the empty list. *)
Theorem filter_matching_nothing pages cls self :
  complete pages = true →
  accepted_agent_ids cls ≠ [] →
  (∀ c, c ∈ received pages → agent_id c ∉ accepted_agent_ids cls) →
  ∃ cls' self',
    build pages cls self = Some (cls', self')
    ∧ get_all_conversations_info cls' = get_all_conversations_info cls
    ∧ get_all_conversation_ids cls' = get_all_conversation_ids cls
    ∧ (∀ a, get_conversation_ids_from_agent cls' a
            = get_conversation_ids_from_agent cls a)
    ∧ ∀ g, get_conversation_ids_from_agent_group self' g = Some [].
Proof.
  intros Hc Hne Hnone.
  pose proof (indexed_nothing _ _ Hne Hnone) as Hkept.
  destruct (build_returns pages cls self Hc) as [[cls' self'] Hbuild].
  { rewrite Hkept. constructor. }
  exists cls', self'. split; [done|].
  destruct (build_Recorded _ _ _ _ _ Hbuild) as (g0 & _ & _ & Hrec).
  destruct (build_Indexed _ _ _ _ _ Hbuild)
    as (g & Hg & _ & _ & Hids & Hagent & Hgroup & _).
  rewrite Hkept in *. simpl in *. split; [|split; [|split]].
  - apply map_eq. intros id. apply Hrec.
  - unfold get_all_conversation_ids. by rewrite Hids, app_nil_r.
  - intros a. apply Hagent.
  - intros grp. unfold get_conversation_ids_from_agent_group.
    rewrite Hg. simpl. apply Hgroup.
Qed.

Lemma index_conversation_parameters cls per_group c cls' per_group' :
  index_conversation (cls, per_group) c = Some (cls', per_group') →
  parameters cls' = parameters cls.
Proof.
  intros Hstep.
  destruct (skipped (accepted_agent_ids cls) (agent_id c)) eqn:Hskip.
  - rewrite index_conversation_skip in Hstep by done. by simplify_eq.
  - by destruct (index_conversation_keep _ _ _ _ _ Hskip Hstep) as (info & _ & -> & _).
Qed.

Lemma for_each_index_parameters convs cls per_group cls' per_group' :
  Py.for_each index_conversation (cls, per_group) convs = Some (cls', per_group') →
  parameters cls' = parameters cls.
Proof.
  revert cls per_group. induction convs as [|c convs IH]; intros cls g Hrun.
  - simpl in Hrun. by simplify_eq.
  - rewrite PyFacts.for_each_cons in Hrun.
    destruct (index_conversation (cls, g) c) as [[cls1 g1]|] eqn:Hstep; [|done].
    simpl in Hrun. apply IH in Hrun. rewrite Hrun.
    by eapply index_conversation_parameters.
Qed.

Lemma build_pages_parameters pages cursor cls per_group cls' per_group' :
  build_pages pages cursor (cls, per_group) = Some (cls', per_group') →
  ∀ k, k ≠ "cursor" → parameters cls' !! k = parameters cls !! k.
Proof.
  revert cursor cls per_group.
  induction pages as [|response pages IH]; intros cursor cls g Hrun k Hk; [done|].
  simpl in Hrun.
  set (st0 := if Py.truthy cursor then _ else _) in Hrun.
  assert (parameters st0.1 !! k = parameters cls !! k) as Hst0.
  { unfold st0. destruct (Py.truthy cursor); simpl; [|done].
    by rewrite lookup_insert_ne. }
  destruct st0 as [cls0 g0]. simpl in Hst0.
  destruct (Py.for_each index_conversation (cls0, g0) (conversations_page response))
    as [[cls1 g1]|] eqn:Hpage; [|done].
  simpl in Hrun. apply for_each_index_parameters in Hpage.
  destruct (has_more response).
  - rewrite (IH _ _ _ Hrun k Hk). by rewrite Hpage.
  - simplify_eq. by rewrite Hpage.
Qed.

(** X15.  [build] asks for pages of 100 and, of the other request
    parameters, touches only the cursor: the date bounds set before are
    those of every listing call. *)
Theorem build_keeps_date_parameters pages cls self cls' self' :
  build pages cls self = Some (cls', self') →
  parameters cls' !! "page_size" = Some (PInt 100)
  ∧ ∀ k, k ≠ "page_size" → k ≠ "cursor" →
         parameters cls' !! k = parameters cls !! k.
Proof.
  unfold build. intros Hbuild.
  destruct (build_pages pages None _) as [[cls1 g1]|] eqn:Hpages; [|done].
  simpl in Hbuild. simplify_eq.
  pose proof (build_pages_parameters _ _ _ _ _ _ Hpages) as Hkeep. split.
  - rewrite Hkeep by done. simpl. apply lookup_insert_eq.
  - intros k Hk1 Hk2. rewrite Hkeep by done. simpl. by rewrite lookup_insert_ne.
Qed.

Lemma select_all cls (ids : list string) (acc : list ConversationInfo) :
  (∀ id, id ∈ ids →
         ∃ info, conversations cls !! id = Some info ∧ info_conversation_id info = id) →
  ∃ infos,
    Py.for_each (select_conversation cls) acc ids = Some (acc ++ infos)
    ∧ info_conversation_id <$> infos = ids.
Proof.
  revert acc. induction ids as [|id ids IH]; intros acc Hall.
  - exists []. by rewrite app_nil_r.
  - destruct (Hall id) as (info & Hinfo & Hid); [apply elem_of_cons; by left|].
    destruct (IH (acc ++ [info])) as (infos & Hrun & Hids).
    { intros id' Hid'. apply Hall, elem_of_cons. by right. }
    assert (select_conversation cls acc id = Some (acc ++ [info])) as Hstep
      by (unfold select_conversation; by rewrite Hinfo).
    exists (info :: infos). rewrite PyFacts.for_each_cons, Hstep. simpl.
    rewrite Hrun, <- app_assoc. split; [done|]. rewrite Hid. f_equal. exact Hids.
Qed.

(** X16.  After [build], [get_conversation_info_from_agent_group] never
    raises: for every group it returns one record for each id of the group's
    list, in the same order, each record with that id. *)
Theorem group_records_follow_group_ids pages cls self cls' self' :
  build pages cls self = Some (cls', self') →
  ∀ g, ∃ ids infos,
    get_conversation_ids_from_agent_group self' g = Some ids
    ∧ get_conversation_info_from_agent_group cls' self' g = Some infos
    ∧ info_conversation_id <$> infos = ids.
Proof.
  intros Hbuild g.
  destruct (build_Indexed _ _ _ _ _ Hbuild)
    as (d & Hd & _ & _ & _ & _ & Hgroup & _).
  destruct (build_Recorded _ _ _ _ _ Hbuild) as (g0 & _ & Hall & Hrec).
  set (kept := indexed (accepted_agent_ids cls) (received pages)) in *.
  set (ids := conversation_id
                <$> filter (λ c, g ∈ get_agent_groups (agent_name c)) kept).
  assert (get_conversation_ids_from_agent_group self' g = Some ids) as Hids.
  { unfold get_conversation_ids_from_agent_group. rewrite Hd. simpl. apply Hgroup. }
  destruct (select_all cls' ids []) as (infos & Hrun & Hsame).
  { intros id Hid. apply list_elem_of_fmap in Hid as (c & -> & Hc).
    apply list_elem_of_filter in Hc as [_ Hc]. rewrite Hrec.
    destruct (last (filter (λ c0, conversation_id c0 = conversation_id c) kept))
      as [c'|] eqn:Hlast.
    - apply last_Some_elem_of in Hlast.
      apply list_elem_of_filter in Hlast as [Hsame Hc'].
      rewrite Forall_forall in Hall. destruct (Hall c' Hc') as [info Hinfo].
      exists info. split; [done|].
      destruct (conversation_info_of_id _ _ Hinfo) as (-> & _). done.
    - apply last_None in Hlast.
      assert (c ∈ filter (λ c0, conversation_id c0 = conversation_id c) kept) as Hin
        by (by apply list_elem_of_filter).
      rewrite Hlast in Hin. by apply elem_of_nil in Hin. }
  exists ids, infos. split; [done|]. split; [|done].
  unfold get_conversation_info_from_agent_group. rewrite Hids. simpl. apply Hrun.
Qed.

End WithHost.

Lemma two_pages_build_from (cls : Class) :
  accepted_agent_ids cls = [] →
  is_Some (build (H := utc_host) two_pages cls init).
Proof.
  intros Hacc. apply build_returns; [done|]. rewrite Hacc.
  change (indexed [] (received two_pages)) with (received two_pages).
  unfold two_pages. simpl. repeat constructor; vm_compute; by eexists.
Qed.

Lemma records_follow_ids_witness :
  ∃ cls' self',
    build (H := utc_host) two_pages class_body init = Some (cls', self')
    ∧ get_all_conversation_ids cls' = ["conv_1"; "conv_2"; "conv_3"; "conv_4"]
    ∧ is_Some (get_all_conversations_info cls' !! "conv_3").
Proof.
  destruct (two_pages_build_from class_body eq_refl) as [[cls' self'] Hbuild].
  exists cls', self'. split; [exact Hbuild|].
  destruct (records_follow_ids (H := utc_host) _ _ _ _ _ Hbuild)
    as (_ & Hids & Hrec).
  split; [etrans; [apply Hids | vm_compute; reflexivity]|].
  destruct (Hrec "conv_3") as (info & Hinfo & _); [|by eexists].
  vm_compute. apply elem_of_cons. right. apply elem_of_cons. right.
  apply elem_of_cons. by left.
Defined.

Lemma filter_matching_nothing_witness :
  ∃ cls' self',
    build (H := utc_host) two_pages
          (set_accepted_agent_ids ["agent_9"] class_body) init = Some (cls', self')
    ∧ get_all_conversation_ids cls' = []
    ∧ get_conversation_ids_from_agent_group self' MARIA = Some [].
Proof.
  destruct (filter_matching_nothing (H := utc_host) two_pages
              (set_accepted_agent_ids ["agent_9"] class_body) init)
    as (cls' & self' & Hbuild & _ & Hids & _ & Hgroups).
  - reflexivity.
  - discriminate.
  - intros c Hc Hin. apply list_elem_of_singleton in Hin.
    vm_compute in Hc.
    repeat (apply elem_of_cons in Hc as [->|Hc]; [discriminate Hin|]).
    by apply elem_of_nil in Hc.
  - exists cls', self'. split; [exact Hbuild|]. split; [exact Hids|apply Hgroups].
Defined.

Lemma build_keeps_date_parameters_witness :
  ∃ cls' self',
    build (H := utc_host) two_pages
          (set_parameter "call_start_after_unix" (PInt 1759276800) class_body) init
    = Some (cls', self')
    ∧ parameters cls' !! "call_start_after_unix" = Some (PInt 1759276800)
    ∧ parameters cls' !! "page_size" = Some (PInt 100).
Proof.
  destruct (two_pages_build_from
              (set_parameter "call_start_after_unix" (PInt 1759276800) class_body)
              eq_refl) as [[cls' self'] Hbuild].
  exists cls', self'. split; [exact Hbuild|].
  destruct (build_keeps_date_parameters (H := utc_host) _ _ _ _ _ Hbuild)
    as [Hsize Hkeep].
  split; [|exact Hsize]. rewrite Hkeep by discriminate. reflexivity.
Defined.

Lemma group_records_follow_group_ids_witness :
  ∃ cls' self' infos,
    build (H := utc_host) two_pages class_body init = Some (cls', self')
    ∧ get_conversation_info_from_agent_group cls' self' MARIA = Some infos
    ∧ info_conversation_id <$> infos = ["conv_1"; "conv_3"].
Proof.
  destruct (two_pages_build_from class_body eq_refl) as [[cls' self'] Hbuild].
  destruct (group_records_follow_group_ids (H := utc_host) _ _ _ _ _ Hbuild MARIA)
    as (ids & infos & Hids & Hinfos & Hsame).
  exists cls', self', infos. split; [exact Hbuild|]. split; [exact Hinfos|].
  rewrite Hsame.
  destruct (build_Indexed (H := utc_host) _ _ _ _ _ Hbuild)
    as (d & Hd & _ & _ & _ & _ & Hgroup & _).
  unfold get_conversation_ids_from_agent_group in Hids.
  rewrite Hd in Hids. change (d !! value MARIA = Some ids) in Hids.
  rewrite Hgroup in Hids. vm_compute in Hids. injection Hids as <-. reflexivity.
Defined.

End AggregatorProps.

(** ** The records of one agent *)

Module AgentRecordsProps.
Import Str ConversationConnection.

Fixpoint all_continuation (s : string) : bool :=
  match s with
  | EmptyString => true
  | String c s' => is_continuation c && all_continuation s'
  end.

Lemma chars_cons (b : ascii) (rest : string) :
  chars (String b rest)
  = match chars rest with
    | ch :: chs =>
        if match rest with String b' _ => is_continuation b' | EmptyString => false end
        then String b ch :: chs
        else String b "" :: ch :: chs
    | [] => [String b ""]
    end.
Proof. reflexivity. Qed.

(** A byte followed by continuation bytes only is one character. *)
Lemma chars_unit (b : ascii) (conts : string) :
  all_continuation conts = true → chars (String b conts) = [String b conts].
Proof.
  revert b. induction conts as [|c conts IH]; intros b Hall; [done|].
  simpl in Hall. apply andb_true_iff in Hall as [Hc Hall].
  rewrite chars_cons, (IH c Hall), Hc. done.
Qed.

(** The first character of a string that is not empty. *)
Lemma chars_head (b : ascii) (rest : string) :
  ∃ conts chs,
    chars (String b rest) = String b conts :: chs ∧ all_continuation conts = true.
Proof.
  revert b. induction rest as [|c rest IH]; intros b.
  - by exists "", [].
  - destruct (IH c) as (conts & chs & Hchars & Hall).
    rewrite chars_cons, Hchars.
    destruct (is_continuation c) eqn:Hc.
    + exists (String c conts), chs. split; [done|]. simpl. by rewrite Hc, Hall.
    + by exists "", (String c conts :: chs).
Qed.

(** X17.  [get_conversation_info_from_agent] looks up the characters of the
    agent's conversation id, one by one, as if each were an id.  Hence, as
    soon as the ids of the stored conversations have two characters or
    more, it raises for every agent: a [KeyError] on the agent when it has
    no conversation, on the first character of its conversation id when it
    has one.  (Only an empty id gets an answer, the empty list.) *)
Theorem agent_records_never_found (cls : Class) (agent_id : string) :
  (∀ id, is_Some (conversations cls !! id) → (2 ≤ length (chars id))%nat) →
  get_conversation_info_from_agent cls agent_id = None
  ∨ (get_conversation_ids_from_agent cls agent_id = Some ""
     ∧ get_conversation_info_from_agent cls agent_id = Some []).
Proof.
  intros Hkeys. unfold get_conversation_info_from_agent.
  destruct (get_conversation_ids_from_agent cls agent_id) as [cid|]; [|by left].
  simpl. destruct cid as [|b rest]; [by right|].
  left. destruct (chars_head b rest) as (conts & chs & -> & Hall).
  rewrite PyFacts.for_each_cons.
  assert (select_conversation cls [] (String b conts) = None) as ->; [|done].
  unfold select_conversation.
  destruct (conversations cls !! String b conts) as [info|] eqn:Hinfo; [|done].
  exfalso. specialize (Hkeys (String b conts) ltac:(by eexists)).
  rewrite chars_unit in Hkeys by done. simpl in Hkeys. lia.
Qed.

(** A class with one conversation, "conv_1" of "agent_1". *)
Definition stored : ConversationInfo :=
  {| info_conversation_id := "conv_1"; info_agent_id := "agent_1";
     info_agent_name := "María ES"; info_start_date := 739541;
     info_start_time := "00:00:00"; info_call_duration_secs := 125;
     info_call_duration_timestamp := "00:02:05"; info_status := "done";
     info_successful := "success"; info_direction := "inbound";
     info_agent_groups := ["María"] |}.

Definition one_conversation : Class := add_conversation "agent_1" stored class_body.

Lemma agent_records_never_found_witness :
  get_conversation_ids_from_agent one_conversation "agent_1" = Some "conv_1"
  ∧ get_conversation_info_from_agent one_conversation "agent_1" = None.
Proof.
  split; [reflexivity|].
  destruct (agent_records_never_found one_conversation "agent_1") as [Hnone|[Hid _]].
  - intros id [info Hinfo]. unfold one_conversation in Hinfo. simpl in Hinfo.
    apply lookup_insert_Some in Hinfo as [[<- _]|[_ Hinfo]].
    + vm_compute. lia.
    + by rewrite lookup_empty in Hinfo.
  - exact Hnone.
  - discriminate Hid.
Defined.

End AgentRecordsProps.

(** ** More on the bulk updater *)

Module UpdaterProps.
Import Enums AgentConnection DataCollectionUpdater UpdaterFacts.

(** X18.  [set_agent_group] adds the ids of the group at the end of the
    selection and keeps what was selected.  Before [set_all_agents] the list
    it extends is the updater's own and the catalog is left alone; after
    [set_all_agents] the selection is the catalog's list of all agent ids
    itself, and it is that list that grows. *)
Theorem set_agent_group_extends_selection (agent_group : AgentGroup)
    catalog cls self catalog' cls' :
  set_agent_group agent_group catalog cls self = Some (catalog', cls') →
  ∃ group_ids,
    get_agent_group_ids (connection self) agent_group = Some group_ids
    ∧ selected catalog' cls' self = selected catalog cls self ++ group_ids
    ∧ agents catalog' = agents catalog
    ∧ (all_agents self = false → catalog' = catalog)
    ∧ (all_agents self = true →
       cls' = cls
       ∧ get_all_agent_ids catalog' = get_all_agent_ids catalog ++ group_ids).
Proof.
  unfold set_agent_group, selected. intros Hset.
  destruct (get_agent_group_ids (connection self) agent_group) as [group_ids|];
    [|done].
  simpl in Hset. exists group_ids. split; [done|].
  destruct (all_agents self); simplify_eq; simpl; by repeat split.
Qed.

Section Configured.
Variables (self : DataCollectionUpdater.t) (name type prompt : string).
Hypothesis Hname : variable_name self = Some name.
Hypothesis Htype : variable_type self = Some type.
Hypothesis Hprompt : variable_prompt self = Some prompt.

Local Abbreviation definition :=
  {| AgentConnection.type := type; description := prompt |}.

Lemma prepare_None agents agent_id :
  schema agents agent_id = None → prepare self agents agent_id = None.
Proof.
  unfold prepare, schema. intros Hnone.
  destruct (agents !! agent_id) as [agent|]; [|done]. simpl in *.
  destruct (platform_settings agent) as [settings|]; [|done]. simpl in *.
  by rewrite Hnone.
Qed.

(** The cache after a run that completed. *)
Lemma update_loop_cache api agents0 ids agents calls :
  touched name type prompt agents0 agents →
  run_completed (update_loop api self ids agents calls) = true →
  touched name type prompt agents0 (run_agents (update_loop api self ids agents calls))
  ∧ ∀ id,
      (id ∈ ids →
       ∃ original, schema agents0 id = Some original
                   ∧ schema (run_agents (update_loop api self ids agents calls)) id
                     = Some (<[name := definition]> original))
      ∧ (id ∉ ids →
         schema (run_agents (update_loop api self ids agents calls)) id
         = schema agents id).
Proof.
  revert agents calls. induction ids as [|agent_id ids IH]; intros agents calls Ht.
  - simpl. intros _. split; [done|]. intros id. split; [by intros ?%elem_of_nil|done].
  - simpl. destruct (prepare self agents agent_id) as [[agents' pushed]|] eqn:Hprep;
      [|done].
    destruct (prepare_Some self name type prompt Hname Htype Hprompt _ _ _ _ Hprep)
      as (current & Hcur & -> & Hnew & Hother).
    assert (∃ original, schema agents0 agent_id = Some original
                        ∧ <[name := definition]> current
                          = <[name := definition]> original) as (original & Ho & Heq).
    { destruct (Ht agent_id) as [Hsame|(original & Horig & Hsame)].
      - exists current. by rewrite <- Hsame.
      - exists original. split; [done|]. rewrite Hcur in Hsame. simplify_eq.
        by rewrite insert_insert_eq. }
    assert (touched name type prompt agents0 agents') as Ht'.
    { intros id. destruct (decide (id = agent_id)) as [->|Hne].
      - right. exists original. split; [done|]. by rewrite Hnew, Heq.
      - rewrite Hother by done. apply Ht. }
    destruct (agents_update api agent_id _); [|done].
    intros Hdone. destruct (IH agents' _ Ht' Hdone) as [Hfinal Hcache].
    split; [done|]. intros id. destruct (Hcache id) as [Hin Hout]. split.
    + intros [->|Hid]%elem_of_cons; [|by apply Hin].
      destruct (decide (agent_id ∈ ids)) as [Hlater|Hnot]; [by apply Hin|].
      exists original. split; [done|]. by rewrite (Hout Hnot), Hnew, Heq.
    + intros Hid. apply not_elem_of_cons in Hid as [Hne Hid].
      rewrite (Hout Hid). by apply Hother.
Qed.

(** X19.  After an [update] that ran to its end, the cached mapping of every
    selected agent is the one it had with the entry [name] set to the new
    definition, and the cached mapping of every other agent is as it
    was. *)
Theorem update_rewrites_selected_schemas api catalog cls :
  let run := update api catalog cls self in
  run_completed run = true →
  ∀ id,
    (id ∈ selected catalog cls self →
     ∃ original, schema (agents catalog) id = Some original
                 ∧ schema (run_agents run) id = Some (<[name := definition]> original))
    ∧ (id ∉ selected catalog cls self →
       schema (run_agents run) id = schema (agents catalog) id).
Proof.
  intros run Hdone. unfold run, update in *.
  apply (update_loop_cache api (agents catalog)); [by left|done].
Qed.

(** X20.  When the remote accepts every call and every selected agent has a
    mapping, [update] runs to its end, and running it again on the cache it
    left sends the same calls and leaves the same schemas: the update is
    idempotent. *)
Theorem update_twice_sends_the_same api catalog cls :
  (∀ id dc, agents_update api id dc = true) →
  (∀ id, id ∈ selected catalog cls self → is_Some (schema (agents catalog) id)) →
  let run := update api catalog cls self in
  let again :=
    update api {| agents := run_agents run; agents_ids := agents_ids catalog |}
           cls self in
  run_completed run = true
  ∧ run_completed again = true
  ∧ run_calls again = run_calls run
  ∧ ∀ id, schema (run_agents again) id = schema (run_agents run) id.
Proof.
  intros Hremote Hschemas run again.
  set (ids := selected catalog cls self) in *.
  assert (selected {| agents := run_agents run; agents_ids := agents_ids catalog |}
                   cls self = ids) as Hsel by (unfold ids, selected; by destruct (all_agents self)).
  destruct (update_loop_pushes self name type prompt Hname Htype Hprompt
              api (agents catalog) ids (agents catalog) [])
    as (calls1 & Hcalls1 & Hall1 & Hlen1 & Hret1); [by left|].
  assert (run_completed run = true) as Hdone by (by apply Hret1).
  destruct (update_loop_cache api (agents catalog) ids (agents catalog) [])
    as [Htouched Hcache]; [by left|done|].
  destruct (update_loop_pushes self name type prompt Hname Htype Hprompt
              api (agents catalog) ids (run_agents run) [])
    as (calls2 & Hcalls2 & Hall2 & Hlen2 & Hret2); [done|].
  assert (run_completed again = true) as Hdone2.
  { unfold again, update. rewrite Hsel. simpl. by apply Hret2. }
  assert (run_calls again = calls2) as Hagain
    by (unfold again, update; rewrite Hsel; simpl; apply Hcalls2).
  assert (run_calls run = calls1) as Hrun by apply Hcalls1.
  split; [done|]. split; [done|]. split.
  - rewrite Hagain, Hrun.
    assert (length calls1 = length ids) as L1 by (apply Hlen1; exact Hdone).
    assert (length calls2 = length ids) as L2 by (apply Hlen2; exact Hdone2).
    rewrite L1, firstn_all in Hall1. rewrite L2, firstn_all in Hall2.
    clear -Hall1 Hall2. revert calls1 calls2 Hall1 Hall2.
    induction ids as [|id ids IH]; intros calls1 calls2 H1 H2.
    + apply Forall2_nil_inv_l in H1, H2. by subst.
    + apply Forall2_cons_inv_l in H1 as ([i1 d1] & c1 & (Hi1 & o1 & Ho1 & Hd1 & _) & H1 & ->).
      apply Forall2_cons_inv_l in H2 as ([i2 d2] & c2 & (Hi2 & o2 & Ho2 & Hd2 & _) & H2 & ->).
      simpl in *. f_equal; [|by apply IH]. subst. congruence.
  - intros id.
    destruct (update_loop_cache api (agents catalog) ids (run_agents run) [])
      as [_ Hcache2]; [done|exact Hdone2|].
    destruct (decide (id ∈ ids)) as [Hin|Hout].
    + destruct (proj1 (Hcache id) Hin) as (o1 & Ho1 & H1).
      destruct (proj1 (Hcache2 id) Hin) as (o2 & Ho2 & H2).
      change (schema (run_agents run) id = Some (<[name := definition]> o1)) in H1.
      change (schema (run_agents again) id = Some (<[name := definition]> o2)) in H2.
      rewrite H1, H2. congruence.
    + exact (proj2 (Hcache2 id) Hout).
Qed.

(** X21.  [update] stops at the first selected agent that has no
    data-collection mapping in the cache: it has then called the remote for
    each agent before that one, in order, and for none after, and it does
    not run to its end. *)
Theorem update_stops_at_missing_schema api agents0 (before after : list string)
    (missing : string) :
  (∀ id dc, agents_update api id dc = true) →
  (∀ id, id ∈ before → is_Some (schema agents0 id)) →
  schema agents0 missing = None →
  let run := update_loop api self (before ++ missing :: after) agents0 [] in
  run_completed run = false
  ∧ Forall2 (pushes name type prompt agents0) before (run_calls run).
Proof.
  intros Hremote Hbefore Hmissing run.
  assert (∀ pre agents calls,
            touched name type prompt agents0 agents →
            (∀ id, id ∈ pre → is_Some (schema agents0 id)) →
            run_completed (update_loop api self (pre ++ missing :: after) agents calls)
            = false
            ∧ length (run_calls (update_loop api self (pre ++ missing :: after)
                                   agents calls))
              = (length calls + length pre)%nat) as Hloop.
  { induction pre as [|id pre IH]; intros agents calls Ht Hpre.
    - simpl. rewrite prepare_None; [simpl; split; [done|lia]|].
      destruct (Ht missing) as [->|(o & Ho & _)]; [done|congruence].
    - simpl.
      destruct (prepare_returns self name type prompt Hname Htype Hprompt agents id)
        as [[agents' pushed] Hprep].
      { destruct (Hpre id) as [o Ho]; [apply elem_of_cons; by left|].
        destruct (Ht id) as [->|(o' & _ & ->)]; by eexists. }
      rewrite Hprep, Hremote.
      destruct (prepare_Some self name type prompt Hname Htype Hprompt _ _ _ _ Hprep)
        as (current & Hcur & -> & Hnew & Hother).
      destruct (IH agents' (calls ++ [(id, <[name := definition]> current)]))
        as [Hdone Hlen].
      + intros id'. destruct (decide (id' = id)) as [->|Hne].
        * right. destruct (Ht id) as [Hsame|(o & Ho & Hsame)].
          -- exists current. by rewrite <- Hsame.
          -- exists o. split; [done|]. rewrite Hcur in Hsame. simplify_eq.
             by rewrite Hnew, insert_insert_eq.
        * rewrite Hother by done. apply Ht.
      + intros id' Hid'. apply Hpre, elem_of_cons. by right.
      + split; [done|]. rewrite Hlen, length_app. simpl. lia. }
  destruct (Hloop before agents0 []) as [Hdone Hlen]; [by left|done|].
  split; [done|].
  destruct (update_loop_pushes self name type prompt Hname Htype Hprompt
              api agents0 (before ++ missing :: after) agents0 [])
    as (calls & Hcalls & Hall & _); [by left|].
  fold run in Hcalls. simpl in Hcalls, Hlen. fold run in Hlen.
  rewrite Hcalls in *. rewrite Hlen in Hall.
  by rewrite take_app_length in Hall.
Qed.

End Configured.

Lemma example_configured :
  variable_name UpdaterExample.updater = Some "demoVerbalizada"
  ∧ variable_type UpdaterExample.updater = Some "boolean"
  ∧ variable_prompt UpdaterExample.updater = Some UpdaterExample.prompt.
Proof. done. Qed.

Lemma update_rewrites_selected_schemas_witness :
  ∃ original,
    schema (agents UpdaterExample.catalog) "agent_2" = Some original
    ∧ schema (run_agents (update CatalogFacts.three_agents UpdaterExample.catalog
                            DataCollectionUpdater.class_body UpdaterExample.updater))
             "agent_2"
      = Some (<["demoVerbalizada" :=
                  {| AgentConnection.type := "boolean";
                     description := UpdaterExample.prompt |}]> original).
Proof.
  apply (update_rewrites_selected_schemas UpdaterExample.updater
           "demoVerbalizada" "boolean" UpdaterExample.prompt eq_refl eq_refl eq_refl
           CatalogFacts.three_agents UpdaterExample.catalog
           DataCollectionUpdater.class_body).
  - vm_compute. reflexivity.
  - vm_compute. apply elem_of_cons. right. apply elem_of_cons. by left.
Defined.

Lemma update_twice_sends_the_same_witness :
  let run := update CatalogFacts.three_agents UpdaterExample.catalog
               DataCollectionUpdater.class_body UpdaterExample.updater in
  run_calls
    (update CatalogFacts.three_agents
       {| agents := run_agents run; agents_ids := agents_ids UpdaterExample.catalog |}
       DataCollectionUpdater.class_body UpdaterExample.updater)
  = run_calls run.
Proof.
  apply (update_twice_sends_the_same UpdaterExample.updater
           "demoVerbalizada" "boolean" UpdaterExample.prompt eq_refl eq_refl eq_refl
           CatalogFacts.three_agents UpdaterExample.catalog
           DataCollectionUpdater.class_body).
  - done.
  - apply Forall_forall. repeat constructor; vm_compute; by eexists.
Defined.

Lemma update_stops_at_missing_schema_witness :
  let run :=
    update_loop CatalogFacts.three_agents UpdaterExample.updater
      (["agent_1"] ++ "agent_5" :: ["agent_2"]) (agents UpdaterExample.catalog) [] in
  run_completed run = false ∧ length (run_calls run) = 1%nat.
Proof.
  destruct (update_stops_at_missing_schema UpdaterExample.updater
              "demoVerbalizada" "boolean" UpdaterExample.prompt eq_refl eq_refl eq_refl
              CatalogFacts.three_agents (agents UpdaterExample.catalog)
              ["agent_1"] ["agent_2"] "agent_5") as [Hdone Hcalls].
  - done.
  - apply Forall_forall. repeat constructor; vm_compute; by eexists.
  - vm_compute. reflexivity.
  - split; [exact Hdone|]. by apply Forall2_length in Hcalls.
Defined.

(** An updater whose catalog has "agent_2" under ELENA, after
    [set_all_agents]. *)
Definition all_then_elena : DataCollectionUpdater.t :=
  set_all_agents
    {| connection :=
         {| agent_groups_ids :=
              <[value ELENA := ["agent_2"]]> AgentGroupSelector.generate_dictionary_keys |};
       variable_name := None; variable_type := None; variable_prompt := None;
       all_agents := false |}.

Lemma set_agent_group_extends_selection_witness :
  ∃ catalog' cls',
    set_agent_group ELENA UpdaterExample.catalog DataCollectionUpdater.class_body
      all_then_elena = Some (catalog', cls')
    ∧ get_all_agent_ids catalog' = ["agent_1"; "agent_2"; "agent_2"].
Proof.
  destruct (set_agent_group ELENA UpdaterExample.catalog
              DataCollectionUpdater.class_body all_then_elena)
    as [[catalog' cls']|] eqn:Hset.
  - exists catalog', cls'. split; [reflexivity|].
    destruct (set_agent_group_extends_selection _ _ _ _ _ _ Hset)
      as (group_ids & Hgroup & _ & _ & _ & Hall).
    destruct (Hall eq_refl) as [_ ->]. vm_compute in Hgroup.
    injection Hgroup as <-. reflexivity.
  - exfalso. vm_compute in Hset. discriminate Hset.
Defined.

End UpdaterProps.

(** ** The details of a conversation *)

Module DownloaderProps.
Import ConversationDownloader.

(** A loop that stores each item under a key of its own: the last item
    with a key is the one found under it. *)
Lemma foldl_insert_lookup {A V : Type} (key : A → string) (f : A → V)
    (l : list A) (d : gmap string V) (k : string) :
  foldl (λ d x, <[key x := f x]> d) d l !! k
  = match last (filter (λ x, key x = k) l) with
    | Some x => Some (f x)
    | None => d !! k
    end.
Proof.
  revert d. induction l as [|x l IH]; intros d; [done|].
  simpl. rewrite IH, filter_cons.
  destruct (decide (key x = k)) as [<-|Hne].
  - rewrite last_cons. destruct (last _); [done|]. by rewrite lookup_insert_eq.
  - destruct (last _); [done|]. by rewrite lookup_insert_ne.
Qed.

Lemma foldl_insert_size {A V : Type} (key : A → string) (f : A → V)
    (l : list A) (d : gmap string V) :
  (size (foldl (λ d x, <[key x := f x]> d) d l) ≤ size d + length l)%nat.
Proof.
  revert d. induction l as [|x l IH]; intros d; simpl; [lia|].
  etrans; [apply IH|].
  destruct (d !! key x) eqn:Hd.
  - rewrite map_size_insert_Some by done. lia.
  - rewrite map_size_insert_None by done. lia.
Qed.

Lemma foldl_insert_size_NoDup {A V : Type} (key : A → string) (f : A → V)
    (l : list A) (d : gmap string V) :
  NoDup (key <$> l) →
  (∀ x, x ∈ l → d !! key x = None) →
  size (foldl (λ d x, <[key x := f x]> d) d l) = (size d + length l)%nat.
Proof.
  revert d. induction l as [|x l IH]; intros d Hnd Hd; simpl; [lia|].
  rewrite fmap_cons in Hnd. apply NoDup_cons in Hnd as [Hx Hnd].
  rewrite IH; [| done |].
  - rewrite map_size_insert_None; [lia|]. apply Hd, elem_of_cons. by left.
  - intros y Hy. rewrite lookup_insert_ne.
    + apply Hd, elem_of_cons. by right.
    + intros Heq. apply Hx. rewrite Heq. by apply list_elem_of_fmap_2.
Qed.


(** The results [process_criteria] and [process_data_collection] walk. *)
Definition criteria_results (raw_details : Conversation) : list CriteriaResult.t :=
  match analysis raw_details with
  | Some analysis => (default [] (evaluation_criteria_results analysis)).*2
  | None => []
  end.

Definition collection_results (raw_details : Conversation)
  : list DataCollectionResult.t :=
  match analysis raw_details with
  | Some analysis => (default [] (data_collection_results analysis)).*2
  | None => []
  end.

Definition criterion_of (result : CriteriaResult.t) : Criterion :=
  {| criterion_result := CriteriaResult.result result;
     criterion_rationale := CriteriaResult.rationale result |}.

Definition collected_of (data : DataCollectionResult.t) : Collected :=
  {| collected_value := DataCollectionResult.value data;
     collected_rationale := DataCollectionResult.rationale data |}.

Lemma process_criteria_foldl (raw_details : Conversation) :
  process_criteria raw_details
  = foldl (λ d result, <[CriteriaResult.criteria_id result := criterion_of result]> d)
      ∅ (criteria_results raw_details).
Proof.
  unfold process_criteria, criteria_results.
  destruct (analysis raw_details) as [a|]; [|done].
  by destruct (evaluation_criteria_results a).
Qed.

Lemma process_data_collection_foldl (raw_details : Conversation) :
  process_data_collection raw_details
  = foldl (λ d data,
             <[DataCollectionResult.data_collection_id data := collected_of data]> d)
      ∅ (collection_results raw_details).
Proof.
  unfold process_data_collection, collection_results.
  destruct (analysis raw_details) as [a|]; [|done].
  by destruct (data_collection_results a).
Qed.

(** X22.  [process_criteria] and [process_data_collection] file each result
    under the id the result itself carries, whatever its key in the dict of
    the remote: under an id is the last result with that id, results that
    share an id collapse into one entry, and no result is lost when the ids
    are pairwise distinct.  Without analysis or without results the dict is
    empty. *)
Theorem results_filed_under_their_own_id (raw_details : Conversation) :
  let criteria := process_criteria raw_details in
  let data_collection := process_data_collection raw_details in
  (∀ id, criteria !! id
         = criterion_of
             <$> last (filter (λ result, CriteriaResult.criteria_id result = id)
                         (criteria_results raw_details)))
  ∧ (size criteria ≤ length (criteria_results raw_details))%nat
  ∧ (NoDup (CriteriaResult.criteria_id <$> criteria_results raw_details) →
     size criteria = length (criteria_results raw_details))
  ∧ (∀ id, data_collection !! id
           = collected_of
               <$> last (filter (λ data, DataCollectionResult.data_collection_id data = id)
                           (collection_results raw_details)))
  ∧ (size data_collection ≤ length (collection_results raw_details))%nat
  ∧ (NoDup (DataCollectionResult.data_collection_id <$> collection_results raw_details) →
     size data_collection = length (collection_results raw_details)).
Proof.
  simpl. rewrite process_criteria_foldl, process_data_collection_foldl.
  repeat split.
  - intros id. rewrite foldl_insert_lookup. by destruct (last _).
  - etrans; [apply foldl_insert_size|]. by rewrite map_size_empty.
  - intros Hnd. rewrite foldl_insert_size_NoDup; [by rewrite map_size_empty|done|done].
  - intros id. rewrite foldl_insert_lookup. by destruct (last _).
  - etrans; [apply foldl_insert_size|]. by rewrite map_size_empty.
  - intros Hnd. rewrite foldl_insert_size_NoDup; [by rewrite map_size_empty|done|done].
Qed.

(** *** The transcript *)

(** The item [process_transcript] makes of a turn. *)
Definition item (index : Z) (turn : Turn.t) (agent_id : string) : TranscriptTurn :=
  {| turn := index;
     time := TimeHelper.seconds_to_timestamp (Turn.time_in_call_secs turn);
     turn_role := Turn.role turn;
     turn_agent_id := agent_id;
     turn_message := Turn.message turn |}.

Lemma transcribe_step (done : list TranscriptTurn) (n : Z) (t : Turn.t) :
  transcribe (done, n) t
  = (agent_id ← agent_id_of_turn t; Some (done ++ [item (n + 1) t agent_id], n + 1)).
Proof. done. Qed.

Lemma transcribe_loop (turns : list Turn.t) :
  ∀ (done : list TranscriptTurn) (n : Z) out m,
    Py.for_each transcribe (done, n) turns = Some (out, m) →
    m = n + Z.of_nat (length turns)
    ∧ ∃ new, out = done ++ new
        ∧ length new = length turns
        ∧ ∀ (i : nat) turn, turns !! i = Some turn →
            ∃ agent_id, agent_id_of_turn turn = Some agent_id
                        ∧ new !! i = Some (item (n + Z.of_nat i + 1) turn agent_id).
Proof.
  induction turns as [|t turns IH]; intros done n out m Hloop.
  - simpl in Hloop. simplify_eq. split; [simpl; lia|].
    exists []. rewrite app_nil_r. repeat split; [done..|]. intros i turn Hi. done.
  - rewrite PyFacts.for_each_cons, transcribe_step in Hloop.
    destruct (agent_id_of_turn t) as [agent_id|] eqn:Hid; simpl in Hloop; [|done].
    apply IH in Hloop as (-> & new & -> & Hlen & Hnew).
    split; [simpl length; lia|].
    exists (item (n + 1) t agent_id :: new).
    split; [by rewrite <- app_assoc|]. split; [simpl; lia|].
    intros [|i] turn Hi; simpl in Hi.
    + simplify_eq. exists agent_id. split; [done|]. simpl. do 2 f_equal. lia.
    + destruct (Hnew i turn Hi) as (id & Hid' & Hi'). exists id. split; [done|].
      simpl. rewrite Hi'. do 2 f_equal. lia.
Qed.

Lemma transcribe_returns (turns : list Turn.t) :
  ∀ st, is_Some (Py.for_each transcribe st turns)
        ↔ Forall (λ turn, is_Some (agent_id_of_turn turn)) turns.
Proof.
  induction turns as [|t turns IH]; intros [done n].
  - simpl. split; [by constructor|by eexists].
  - rewrite PyFacts.for_each_cons, Forall_cons, transcribe_step.
    destruct (agent_id_of_turn t) as [agent_id|]; simpl.
    + rewrite IH. split; [by split; [eexists|]|by intros [_ ?]].
    + split; [by intros []|by intros [[] _]].
Qed.

(** X23.  [process_transcript] returns exactly when no turn of the
    transcript carries [agent_metadata]: on a turn with metadata the
    subscript of line 263 raises.  When it returns there is one item per
    turn, in the order of the transcript, numbered from 1 without a gap,
    with the time of the turn as [seconds_to_timestamp] writes it, the
    role and the message of the turn, and [""] for the agent id. *)
Theorem transcript_turns_numbered_from_one (raw_details : Conversation) :
  (is_Some (process_transcript raw_details)
   ↔ Forall (λ turn, Turn.agent_metadata turn = None) (transcript raw_details))
  ∧ ∀ items, process_transcript raw_details = Some items →
      length items = length (transcript raw_details)
      ∧ ∀ (i : nat) t, transcript raw_details !! i = Some t →
          items !! i = Some (item (Z.of_nat i + 1) t "").
Proof.
  unfold process_transcript. split.
  - transitivity (is_Some (Py.for_each transcribe ([], 0) (transcript raw_details))).
    { destruct (Py.for_each _ _ _) as [[? ?]|]; simpl; split; intros [? ?]; try done;
        by eexists. }
    rewrite transcribe_returns. apply Forall_proper; [|done]. intros t.
    unfold agent_id_of_turn.
    destruct (Turn.agent_metadata t) as [metadata|]; [|split; [done|by eexists]].
    split; [by intros [? ?]|done].
  - intros items Hitems.
    destruct (Py.for_each _ _ _) as [[out m]|] eqn:Hloop; [|done].
    simpl in Hitems. simplify_eq.
    apply transcribe_loop in Hloop as (_ & new & -> & Hlen & Hnew).
    split; [done|]. intros i t Hi.
    destruct (Hnew i t Hi) as (agent_id & Hid & Hitem). simpl. rewrite Hitem.
    do 2 f_equal.
    unfold agent_id_of_turn in Hid.
    destruct (Turn.agent_metadata t); by simplify_eq.
Qed.

(** *** The contact fields *)

(** The dynamic variables of a conversation, none when the remote sent no
    client data or no variables. *)
Definition variables_of (raw_details : Conversation) : gmap string PyValue :=
  match conversation_initiation_client_data (initiation raw_details) with
  | Some client_data => default ∅ (dynamic_variables client_data)
  | None => ∅
  end.

(** The key of [details] a contact variable is copied to. *)
Definition contact_target (key : string) : option string :=
  if String.eqb key "email" then Some "email"
  else if String.eqb key "phone" then Some "phone"
  else if String.eqb key "secret_user_id" then Some "salesforce_user_id"
  else if String.eqb key "secret_object_id" then Some "salesforce_object_id"
  else None.

Definition contact_keys : list string :=
  ["email"; "phone"; "salesforce_user_id"; "salesforce_object_id"].

(** What [process_basic_variables] stores for a contact variable. *)
Definition contact_value (v : option PyValue) : PyValue :=
  match v with
  | Some v => if truthy (Some v) then v else PyStr ""
  | None => PyStr ""
  end.

Lemma copy_variable_lookup (source target : string)
    (variables : gmap string PyValue) (details : gmap string Field) (key : string) :
  copy_variable source target variables details !! key
  = if decide (key = target)
    then (if truthy (variables !! source)
          then Some (FValue (contact_value (variables !! source)))
          else details !! key)
    else details !! key.
Proof.
  unfold copy_variable, contact_value.
  destruct (variables !! source) as [v|]; [|by destruct (decide _)].
  destruct (truthy (Some v)); [|by destruct (decide _)].
  destruct (decide (key = target)) as [->|Hne].
  - by rewrite lookup_insert_eq.
  - by rewrite lookup_insert_ne.
Qed.

Local Ltac decides :=
  repeat match goal with
         | |- context [decide (?a = ?b)] =>
             destruct (decide (a = b)) as [?|?]; try congruence
         end.

Local Ltac lookups :=
  repeat (rewrite lookup_insert_eq || rewrite lookup_insert_ne by congruence);
  decides.

Local Ltac finish :=
  decides; unfold contact_value;
  match goal with
  | |- context [truthy (?m !! ?k)] => destruct (m !! k); [destruct (truthy _)|]
  end.

Lemma process_basic_variables_lookup (details : gmap string Field)
    (raw_details : Conversation) (key : string) :
  process_basic_variables details raw_details !! key
  = if decide (key = "email")
    then Some (FValue (contact_value (variables_of raw_details !! "email")))
    else if decide (key = "phone")
    then Some (FValue (contact_value (variables_of raw_details !! "phone")))
    else if decide (key = "salesforce_user_id")
    then Some (FValue (contact_value (variables_of raw_details !! "secret_user_id")))
    else if decide (key = "salesforce_object_id")
    then Some (FValue (contact_value (variables_of raw_details !! "secret_object_id")))
    else details !! key.
Proof.
  assert (∀ d : gmap string Field,
            <["salesforce_object_id" := FValue (PyStr "")]>
              (<["salesforce_user_id" := FValue (PyStr "")]>
                 (<["phone" := FValue (PyStr "")]>
                    (<["email" := FValue (PyStr "")]> d))) !! key
            = if decide (key = "email") then Some (FValue (PyStr ""))
              else if decide (key = "phone") then Some (FValue (PyStr ""))
              else if decide (key = "salesforce_user_id") then Some (FValue (PyStr ""))
              else if decide (key = "salesforce_object_id") then Some (FValue (PyStr ""))
              else d !! key) as Hblank.
  { intros d.
    destruct (decide (key = "email")) as [->|?]; [by lookups|].
    destruct (decide (key = "phone")) as [->|?]; [by lookups|].
    destruct (decide (key = "salesforce_user_id")) as [->|?]; [by lookups|].
    destruct (decide (key = "salesforce_object_id")) as [->|?]; [by lookups|].
    by lookups. }
  unfold process_basic_variables, variables_of.
  destruct (conversation_initiation_client_data _) as [client_data|];
    [|by rewrite Hblank, !lookup_empty].
  destruct (dynamic_variables client_data) as [variables|]; simpl;
    [|by rewrite Hblank, !lookup_empty].
  rewrite !copy_variable_lookup, Hblank.
  destruct (decide (key = "email")) as [->|?]; [by finish|].
  destruct (decide (key = "phone")) as [->|?]; [by finish|].
  destruct (decide (key = "salesforce_user_id")) as [->|?]; [by finish|].
  destruct (decide (key = "salesforce_object_id")) as [->|?]; [by finish|].
  by decides.
Qed.

Lemma process_dynamic_variables_filter (raw_details : Conversation) :
  process_dynamic_variables (initiation raw_details)
  = Some (filter (λ kv, EnricherFacts.dropped kv.1 = false) (variables_of raw_details)).
Proof.
  unfold process_dynamic_variables, variables_of.
  destruct (conversation_initiation_client_data _) as [client_data|];
    [|by rewrite map_filter_empty].
  destruct (dynamic_variables client_data) as [variables|]; simpl;
    [|by rewrite map_filter_empty].
  rewrite EnricherFacts.drop_keys.
  - f_equal. apply map_filter_ext. intros i x Hx. simpl. split.
    + intros Hno. destruct (EnricherFacts.dropped i) eqn:Hd; [|done].
      exfalso. apply Hno. split; [|done].
      unfold Py.keys. apply list_elem_of_fmap. exists (i, x).
      split; [done|]. by apply elem_of_map_to_list.
    + intros Hd [_ Hd']. congruence.
  - apply NoDup_fst_map_to_list.
  - intros k Hk. unfold Py.keys in Hk.
    apply list_elem_of_fmap in Hk as ([k' x] & -> & Hx).
    apply elem_of_map_to_list in Hx. by eexists.
Qed.

(** X24.  [process_basic_variables] never raises, always leaves the four
    contact keys in [details] and touches no other key, so the eleven
    fields [build] copied from the listing are all kept.  Together with
    [process_dynamic_variables] it places every dynamic variable whose name
    does not start with "system": a contact variable ([email], [phone],
    [secret_user_id], [secret_object_id]) is left out of the dynamic
    variables and is found under its contact key when its value is true,
    where [""] stands when it is [0] or [""]; every other variable is among
    the dynamic variables with its value. *)
Theorem contact_fields_and_dynamic_variables (details : gmap string Field)
    (raw_details : Conversation) :
  let variables := variables_of raw_details in
  let details' := process_basic_variables details raw_details in
  (∀ key, key ∉ contact_keys → details' !! key = details !! key)
  ∧ (∀ key, key ∈ contact_keys → is_Some (details' !! key))
  ∧ (∀ conversation,
       basic_details conversation
       ⊆ process_basic_variables (basic_details conversation) raw_details)
  ∧ ∃ kept,
      process_dynamic_variables (initiation raw_details) = Some kept
      ∧ kept ⊆ variables
      ∧ ∀ key v,
          variables !! key = Some v →
          Str.startswith "system" key = false →
          match contact_target key with
          | Some target =>
              kept !! key = None
              ∧ details' !! target
                = Some (FValue (if truthy (Some v) then v else PyStr ""))
          | None => kept !! key = Some v
          end.
Proof.
  assert (∀ details key,
            key ∉ contact_keys →
            process_basic_variables details raw_details !! key = details !! key)
    as Hframe.
  { intros d key Hkey. rewrite process_basic_variables_lookup.
    unfold contact_keys in Hkey.
    rewrite !elem_of_cons, elem_of_nil in Hkey.
    repeat (destruct (decide _) as [->|?]; [exfalso; apply Hkey; tauto|]). done. }
  cbv zeta. split; [|split; [|split]].
  - apply Hframe.
  - intros key Hkey. rewrite process_basic_variables_lookup.
    unfold contact_keys in Hkey.
    rewrite !elem_of_cons, elem_of_nil in Hkey.
    destruct Hkey as [-> | [-> | [-> | [-> | []]]]]; simpl; by eexists.
  - intros conversation. apply map_subseteq_spec. intros key value Hkey.
    rewrite Hframe; [done|]. intros Hcontact.
    unfold contact_keys in Hcontact.
    rewrite !elem_of_cons, elem_of_nil in Hcontact.
    destruct Hcontact as [-> | [-> | [-> | [-> | []]]]]; vm_compute in Hkey;
      discriminate Hkey.
  - eexists. split; [apply process_dynamic_variables_filter|].
    split; [apply map_filter_subseteq|].
    intros key v Hv Hsys. unfold contact_target.
    destruct (String.eqb_spec key "email") as [->|?].
    { split; [apply map_lookup_filter_None; right; by intros ? _|].
      rewrite process_basic_variables_lookup. simpl. by rewrite Hv. }
    destruct (String.eqb_spec key "phone") as [->|?].
    { split; [apply map_lookup_filter_None; right; by intros ? _|].
      rewrite process_basic_variables_lookup. simpl. by rewrite Hv. }
    destruct (String.eqb_spec key "secret_user_id") as [->|?].
    { split; [apply map_lookup_filter_None; right; by intros ? _|].
      rewrite process_basic_variables_lookup. simpl. by rewrite Hv. }
    destruct (String.eqb_spec key "secret_object_id") as [->|?].
    { split; [apply map_lookup_filter_None; right; by intros ? _|].
      rewrite process_basic_variables_lookup. simpl. by rewrite Hv. }
    apply map_lookup_filter_Some. split; [done|].
    unfold EnricherFacts.dropped. cbn [fst]. rewrite Hsys.
    rewrite !orb_false_iff, !String.eqb_neq. done.
Qed.


(** *** A conversation of two turns *)

Definition example_raw_details : Conversation :=
  {| initiation :=
       {| conversation_initiation_client_data :=
            Some {| dynamic_variables :=
                      Some (list_to_map
                              [ ("system__caller_id", PyStr "+34600000000");
                                ("email", PyStr "ana@example.com");
                                ("phone", PyInt 0);
                                ("plan", PyStr "premium") ]) |} |};
     analysis :=
       Some {| transcript_summary := None;
               evaluation_criteria_results :=
                 Some [ ("first",
                         {| CriteriaResult.criteria_id := "greeting";
                            CriteriaResult.result := "failure";
                            CriteriaResult.rationale := "no greeting yet" |});
                        ("second",
                         {| CriteriaResult.criteria_id := "greeting";
                            CriteriaResult.result := "success";
                            CriteriaResult.rationale := "greeted the caller" |}) ];
               data_collection_results := None |};
     transcript :=
       [ {| Turn.role := "agent";
            Turn.agent_metadata := None;
            Turn.message := Some "Hola";
            Turn.time_in_call_secs := 0 |};
         {| Turn.role := "user";
            Turn.agent_metadata := None;
            Turn.message := Some "Hola, buenas";
            Turn.time_in_call_secs := 65 |} ] |}.

(** The same conversation, its first turn with the metadata of the agent. *)
Definition example_with_metadata : Conversation :=
  {| initiation := initiation example_raw_details;
     analysis := analysis example_raw_details;
     transcript :=
       [ {| Turn.role := "agent";
            Turn.agent_metadata := Some {| AgentMetadata.agent_id := "agent_1" |};
            Turn.message := Some "Hola";
            Turn.time_in_call_secs := 0 |};
         {| Turn.role := "user";
            Turn.agent_metadata := None;
            Turn.message := Some "Hola, buenas";
            Turn.time_in_call_secs := 65 |} ] |}.

Lemma results_filed_under_their_own_id_witness :
  process_criteria example_raw_details !! "greeting"
  = Some {| criterion_result := "success";
            criterion_rationale := "greeted the caller" |}
  ∧ size (process_criteria example_raw_details) = 1%nat
  ∧ process_data_collection example_raw_details = ∅.
Proof.
  destruct (results_filed_under_their_own_id example_raw_details)
    as (Hcriteria & _ & _ & _ & Hsize & _).
  split; [rewrite Hcriteria; vm_compute; reflexivity|].
  split; [vm_compute; reflexivity|].
  apply map_size_empty_iff. simpl in Hsize. lia.
Defined.

Lemma transcript_turns_numbered_from_one_witness :
  (∃ items,
     process_transcript example_raw_details = Some items
     ∧ length items = 2%nat
     ∧ items !! 1%nat
       = Some {| turn := 2; time := "01:05"; turn_role := "user";
                 turn_agent_id := ""; turn_message := Some "Hola, buenas" |})
  ∧ process_transcript example_with_metadata = None.
Proof.
  split.
  - destruct (transcript_turns_numbered_from_one example_raw_details)
      as [Hreturns Hitems].
    destruct (proj2 Hreturns) as [items Hsome].
    { repeat (apply Forall_cons; split; [reflexivity|]). constructor. }
    exists items. split; [done|].
    destruct (Hitems items Hsome) as [Hlen Hith]. split; [done|].
    rewrite (Hith 1%nat _ eq_refl). vm_compute. reflexivity.
  - destruct (process_transcript example_with_metadata) as [items|] eqn:Hitems;
      [|reflexivity].
    exfalso.
    pose proof (proj1 (proj1 (transcript_turns_numbered_from_one
                                example_with_metadata))
                  (ex_intro _ items Hitems)) as Hall.
    apply Forall_cons in Hall as [Hnone _]. discriminate Hnone.
Defined.

Lemma contact_fields_and_dynamic_variables_witness :
  ∃ kept,
    process_dynamic_variables (initiation example_raw_details) = Some kept
    ∧ kept !! "plan" = Some (PyStr "premium")
    ∧ kept !! "phone" = None
    ∧ process_basic_variables ∅ example_raw_details !! "phone"
      = Some (FValue (PyStr ""))
    ∧ process_basic_variables ∅ example_raw_details !! "email"
      = Some (FValue (PyStr "ana@example.com")).
Proof.
  destruct (contact_fields_and_dynamic_variables ∅ example_raw_details)
    as (_ & _ & _ & kept & Hkept & _ & Hplaced).
  exists kept. split; [done|].
  split; [exact (Hplaced "plan" (PyStr "premium") eq_refl eq_refl)|].
  split; [exact (proj1 (Hplaced "phone" (PyInt 0) eq_refl eq_refl))|].
  split; [exact (proj2 (Hplaced "phone" (PyInt 0) eq_refl eq_refl))|].
  exact (proj2 (Hplaced "email" (PyStr "ana@example.com") eq_refl eq_refl)).
Defined.

End DownloaderProps.
